(** * URLtracker: link registry, redirect-and-record path and stats queries

    A shallow embedding of [server.js].  The Express handlers become
    functions from a store (the Redis keyspace the handlers talk to) and
    a request to a response and a new store.

    Conventions.
    - A string is a Rocq [string]; a character stands for a code unit in
      the range 0..255.  This is what Node hands to the handlers for
      header values, and it covers the identifiers, dates and visits
      that the handlers write; text with other characters is outside
      the model.
    - A [Date] is its time value: [Some t] for [t] milliseconds since the
      epoch, [None] for an invalid date (time value NaN).
    - The current time ([new Date()]) and the generated identifier
      ([shortid.generate()]) are inputs of the handlers that use them. *)

From Stdlib Require Import ZArith Ascii String.
From Stdlib Require DecimalString DecimalZ.
From stdpp Require Import base option list strings gmap sorting.

Local Open Scope Z_scope.

(** ** Strings *)

Module Str.

(** [String.prototype.startsWith]. *)
Fixpoint startsWith (p s : string) : bool :=
  match p, s with
  | EmptyString, _ => true
  | String a p', String b s' => Ascii.eqb a b && startsWith p' s'
  | String _ _, EmptyString => false
  end.

(** Case mapping of one code unit below 256: the letters A-Z, and the
    Latin-1 capitals U+00C0..U+00DE other than the multiplication sign
    U+00D7, move up by 32; every other code unit is its own lower case. *)
Definition lower_char (c : ascii) : ascii :=
  let n := N_of_ascii c in
  if ((65 <=? n) && (n <=? 90))%N
     || ((192 <=? n) && (n <=? 222) && negb (n =? 215))%N
  then ascii_of_N (n + 32) else c.

(** [String.prototype.toLowerCase]. *)
Fixpoint toLowerCase (s : string) : string :=
  match s with
  | EmptyString => EmptyString
  | String c s' => String (lower_char c) (toLowerCase s')
  end.

(** [RegExp.prototype.test] for a pattern that is an alternation of
    literal words, unanchored: the matcher tries every start position
    from the left and, at each position, the alternatives in order. *)
Fixpoint test_alternation (alts : list string) (s : string) : bool :=
  existsb (fun a => startsWith a s) alts
  || match s with
     | EmptyString => false
     | String _ s' => test_alternation alts s'
     end.

End Str.

(** ** Device classification *)

Inductive DeviceType := mobile | desktop.

Definition device_tokens : list string :=
  ["mobile"; "android"; "iphone"; "ipad"; "ipod"].

(** [detectDeviceType]; the argument is [None] when the caller passes
    [undefined], which the default parameter turns into the empty string. *)
Definition detectDeviceType (ua : option string) : DeviceType :=
  let value := Str.toLowerCase (default "" ua) in
  if Str.test_alternation device_tokens value then mobile else desktop.

(** *** What "matched case-insensitively" means, independently of the code *)

(** [c] is the letter [t] or its capital; [t] is a lower-case letter of a
    token. *)
Definition same_letter (c t : ascii) : Prop :=
  c = t \/ (N_of_ascii c + 32 = N_of_ascii t)%N.

Fixpoint same_word (w tok : string) : Prop :=
  match w, tok with
  | EmptyString, EmptyString => True
  | String c w', String t tok' => same_letter c t /\ same_word w' tok'
  | _, _ => False
  end.

(** The token occurs somewhere in [s], letter case ignored. *)
Definition occurs_ci (tok s : string) : Prop :=
  exists pre w post, s = pre +:+ w +:+ post /\ same_word w tok.

Definition lower_letters (tok : string) : Prop :=
  Forall (fun t => 97 <= N_of_ascii t <= 122)%N (list_ascii_of_string tok).

(** ** JavaScript values *)

(** A number.  [Dec m e] is the double nearest to [m * 10 ^ e]; the sign
    of zero is not kept, since no handler can tell the two zeros apart. *)
Inductive JsNumber :=
| NaN
| Infinity (negative : bool)
| Dec (m e : Z).

(** [m * 10 ^ e] rounds to zero: it is at most half of the least positive
    double, 2^-1074 (the tie goes to zero, whose significand is even). *)
Definition rounds_to_zero (m e : Z) : bool :=
  (m =? 0) || ((e <? 0) && (Z.abs m * 2 ^ 1075 <=? 10 ^ (- e))).

(** The values [JSON.parse] produces.  An object keeps its properties in
    a list; where a name occurs twice the last occurrence is the
    property's value. *)
#[warnings="-register-all"]
Inductive JsVal :=
| JNull
| JBool (b : bool)
| JNum (n : JsNumber)
| JStr (s : string)
| JArr (items : list JsVal)
| JObj (props : list (string * JsVal)).

(** [Boolean(v)]. *)
Definition ToBoolean (v : JsVal) : bool :=
  match v with
  | JNull => false
  | JBool b => b
  | JNum NaN => false
  | JNum (Infinity _) => true
  | JNum (Dec m e) => negb (rounds_to_zero m e)
  | JStr s => negb (String.eqb s "")
  | JArr _ | JObj _ => true
  end.

Definition last_prop (k : string) (props : list (string * JsVal)) : option JsVal :=
  fold_left (fun acc p => if String.eqb (fst p) k then Some (snd p) else acc)
            props None.

(** [v.k] for a truthy value [v] and a name [k] that no prototype
    defines; [None] is [undefined]. *)
Definition js_get (v : JsVal) (k : string) : option JsVal :=
  match v with
  | JObj props => last_prop k props
  | _ => None
  end.

(** [o || d] for a string or [undefined]. *)
Definition or_else (o : option string) (d : string) : string :=
  match o with
  | Some s => if String.eqb s "" then d else s
  | None => d
  end.

(** [!o] for a string or [undefined]. *)
Definition falsy (o : option string) : bool :=
  match o with
  | Some s => String.eqb s ""
  | None => true
  end.

(** ** Completions: a call returns or throws *)

Inductive completion (A : Type) :=
| Normal (a : A)
| Throw.
Arguments Normal {A} a.
Arguments Throw {A}.

#[global] Instance completion_ret : MRet completion := fun A a => Normal a.
#[global] Instance completion_bind : MBind completion := fun A B f c =>
  match c with
  | Normal a => f a
  | Throw => Throw
  end.

(** [Array.prototype.filter] with a callback that may throw. *)
Fixpoint filterM {A} (f : A -> completion bool) (l : list A) : completion (list A) :=
  match l with
  | [] => mret []
  | x :: l' =>
      b ← f x;
      r ← filterM f l';
      mret (if b : bool then x :: r else r)
  end.

(** [Array.prototype.sort] with a comparison function.  The comparison
    yields a number ([None] for NaN, which the sort reads as +0) or
    throws.  The sort is the stable insertion sort; whenever the
    comparison is a consistent ordering of the elements, every sort that
    conforms to the language definition returns this same array. *)
Section sort.
Context {A : Type} (comparefn : A -> A -> completion (option Z)).

Definition SortCompare (x y : A) : completion Z :=
  v ← comparefn x y; mret (default 0 v).

Fixpoint sort_insert (x : A) (l : list A) : completion (list A) :=
  match l with
  | [] => mret [x]
  | y :: l' =>
      c ← SortCompare x y;
      if c <=? 0 then mret (x :: y :: l')
      else r ← sort_insert x l'; mret (y :: r)
  end.

Fixpoint js_sort (l : list A) : completion (list A) :=
  match l with
  | [] => mret []
  | x :: l' => s ← js_sort l'; sort_insert x s
  end.
End sort.

(** ** Dates *)

Definition Date := option Z.

Definition msPerDay : Z := 24 * 60 * 60 * 1000.

(** [TimeClip]: a time value is an integer within 8.64e15 of the epoch. *)
Definition TimeClip (t : option Z) : Date :=
  match t with
  | Some z => if Z.abs z <=? 8640000000000000 then Some z else None
  | None => None
  end.

(** [a < b] and [a > b] on dates: false as soon as one side is invalid. *)
Definition date_lt (a b : Date) : bool :=
  match a, b with
  | Some x, Some y => x <? y
  | _, _ => false
  end.

Definition date_gt (a b : Date) : bool := date_lt b a.

(** [a - b] on dates. *)
Definition date_sub (a b : Date) : option Z :=
  match a, b with
  | Some x, Some y => Some (x - y)
  | _, _ => None
  end.

(** [new Date(d.getTime() + ms)]. *)
Definition date_plus (d : Date) (ms : Z) : Date :=
  TimeClip (match d with Some t => Some (t + ms) | None => None end).

(** *** [Date.prototype.toISOString] *)

Module ISO.

Definition digit (n : Z) : ascii := ascii_of_N (48 + Z.to_N n).

(** The [w] low decimal digits of [n], most significant first. *)
Fixpoint digits (w : nat) (n : Z) (acc : string) : string :=
  match w with
  | O => acc
  | S w' => digits w' (n / 10) (String (digit (n mod 10)) acc)
  end.

(** Days since the epoch to year, month (1..12) and day of the month
    in the proleptic Gregorian calendar. *)
Definition civil_from_days (days : Z) : Z * Z * Z :=
  let z := days + 719468 in
  let era := z / 146097 in
  let doe := z - era * 146097 in
  let yoe := (doe - doe / 1460 + doe / 36524 - doe / 146096) / 365 in
  let doy := doe - (365 * yoe + yoe / 4 - yoe / 100) in
  let mp := (5 * doy + 2) / 153 in
  let d := doy - (153 * mp + 2) / 5 + 1 in
  let m := if mp <? 10 then mp + 3 else mp - 9 in
  let y := yoe + era * 400 + (if m <=? 2 then 1 else 0) in
  (y, m, d).

(** Year, month and day to days since the epoch. *)
Definition days_from_civil (y m d : Z) : Z :=
  let y' := if m <=? 2 then y - 1 else y in
  let era := y' / 400 in
  let yoe := y' - era * 400 in
  let mp := if m <=? 2 then m + 9 else m - 3 in
  let doy := (153 * mp + 2) / 5 + d - 1 in
  let doe := yoe * 365 + yoe / 4 - yoe / 100 + doy in
  era * 146097 + doe - 719468.

Definition year_string (y : Z) : string :=
  if (0 <=? y) && (y <=? 9999) then digits 4 y ""
  else String (if y <? 0 then "-"%char else "+"%char) (digits 6 (Z.abs y) "").

(** [YYYY-MM-DDTHH:mm:ss.sssZ], with a signed six-digit year outside
    0..9999. *)
Definition toISOString (t : Z) : string :=
  let '(y, m, d) := civil_from_days (t / msPerDay) in
  let r := t mod msPerDay in
  year_string y +:+ "-" +:+ digits 2 m "" +:+ "-" +:+ digits 2 d ""
  +:+ "T" +:+ digits 2 (r / 3600000) ""
  +:+ ":" +:+ digits 2 (r / 60000 mod 60) ""
  +:+ ":" +:+ digits 2 (r / 1000 mod 60) ""
  +:+ "." +:+ digits 3 (r mod 1000) "" +:+ "Z".

End ISO.

(** ** The platform

    What the handlers take from the language, from Node and from the
    process environment, and which this file does not define: the URL
    parser, [JSON.parse], [Date.parse], the conversions that the [Date]
    and [Number] constructors apply, and [BASE_URL]. *)
Class Platform := {
  (** [new URL(s).protocol]; [None] when the constructor throws. *)
  URL_protocol : string -> option string;
  (** [JSON.parse(s)]; [None] when it throws. *)
  JSON_parse : string -> option JsVal;
  (** [Date.parse(s)]; [None] is NaN. *)
  Date_parse : string -> option Z;
  (** The time value [new Date(v)] starts from when [v] is a number, an
      array or an object; the conversion of an object can throw. *)
  Date_value : JsVal -> completion (option Z);
  (** [Number(s)]. *)
  Number_of_string : string -> JsNumber;
  (** [process.env.BASE_URL], or its default. *)
  BASE_URL : string;
}.

Section dates.
Context `{Platform}.

(** [new Date(x)] for [x] a string or [undefined]. *)
Definition Date_of_string (x : option string) : Date :=
  match x with
  | Some s => TimeClip (Date_parse s)
  | None => None
  end.

(** [new Date(x)] for [x] a value or [undefined]. *)
Definition new_Date (x : option JsVal) : completion Date :=
  match x with
  | None => mret (Date_of_string None)
  | Some (JStr s) => mret (Date_of_string (Some s))
  | Some JNull => mret (Some 0)
  | Some (JBool b) => mret (Some (if b then 1 else 0))
  | Some v => t ← Date_value v; mret (TimeClip t)
  end.
End dates.

(** ** The store

    The Redis keyspace, by type of value: hashes of string fields, lists
    of strings and sets of strings.  The handlers keep hashes under
    [link:<id>], lists under [visits:<id>] and one set under [links], so
    no key is ever used at two types. *)

Record Store := {
  hashes : gmap string (gmap string string);
  lists : gmap string (list string);
  sets : gmap string (gset string);
}.

Definition empty_store : Store :=
  {| hashes := ∅; lists := ∅; sets := ∅ |}.

Module Redis.

(** HGETALL: the fields of the hash, none when the key is absent. *)
Definition hGetAll (st : Store) (key : string) : gmap string string :=
  default ∅ (hashes st !! key).

(** HSET: writes the given fields, keeps the others. *)
Definition hSet (st : Store) (key : string) (fields : list (string * string)) : Store :=
  {| hashes := <[key := list_to_map fields ∪ hGetAll st key]> (hashes st);
     lists := lists st;
     sets := sets st |}.

(** SADD. *)
Definition sAdd (st : Store) (key member : string) : Store :=
  {| hashes := hashes st;
     lists := lists st;
     sets := <[key := {[member]} ∪ default ∅ (sets st !! key)]> (sets st) |}.

(** SMEMBERS: the reply lists every member once, in an order that is
    the server's choice. *)
Definition sMembers (st : Store) (key : string) (reply : list string) : Prop :=
  NoDup reply /\ forall x, x ∈ reply <-> x ∈ default ∅ (sets st !! key).

(** RPUSH. *)
Definition rPush (st : Store) (key value : string) : Store :=
  {| hashes := hashes st;
     lists := <[key := default [] (lists st !! key) ++ [value]]> (lists st);
     sets := sets st |}.

(** LRANGE key 0 -1: the whole list, empty when the key is absent. *)
Definition lRange_all (st : Store) (key : string) : list string :=
  default [] (lists st !! key).

(** An integer as the server writes it. *)
Definition string_of_Z (z : Z) : string :=
  DecimalString.NilZero.string_of_int (Z.to_int z).

(** An integer as the server reads it: the canonical decimal form and
    nothing else. *)
Definition Z_of_string (s : string) : option Z :=
  match DecimalString.NilZero.int_of_string s with
  | Some d =>
      let z := Z.of_int d in
      if String.eqb (string_of_Z z) s then Some z else None
  | None => None
  end.

(** HINCRBY: an absent field counts as 0; a field that is not an
    integer makes the command fail and leaves the store as it was.  The
    server also confines counters to 64 bits; that limit is out of
    reach here, where the counter follows the length of a list. *)
Definition hIncrBy (st : Store) (key field : string) (incr : Z) : completion Z * Store :=
  let h := hGetAll st key in
  match match h !! field with
        | Some s => Z_of_string s
        | None => Some 0
        end with
  | Some n =>
      (Normal (n + incr),
       {| hashes := <[key := <[field := string_of_Z (n + incr)]> h]> (hashes st);
          lists := lists st;
          sets := sets st |})
  | None => (Throw, st)
  end.

End Redis.

(** ** Requests and responses *)

Module Link.
(** A link as the responses carry it. *)
Record t := {
  id : string;
  originalUrl : option string;
  createdAt : option string;
  visitCount : JsNumber;
  shortUrl : string;
}.
End Link.

Record Visit := {
  timestamp : string;
  userAgent : string;
  deviceType : DeviceType;
}.

(** What a handler does with the request: [res.status(code).send(body)],
    [res.json(...)] with a link, a list of links or the stats of a link,
    [res.redirect(url)], [next()], or nothing at all because a command
    or a conversion failed and the handler's promise is rejected. *)
Inductive Response :=
| SendStatus (code : Z) (body : string)
| SendLink (link : Link.t)
| SendLinks (links : list Link.t)
| SendStats (link : Link.t) (visits : list JsVal)
| Redirect (url : option string)
| Next
| Rejected.

Definition status_of (r : Response) : option Z :=
  match r with
  | SendStatus code _ => Some code
  | SendLink _ | SendLinks _ | SendStats _ _ => Some 200
  | Redirect _ => Some 302
  | Next | Rejected => None
  end.

(** The redirect route's view of a request: [req.path], [req.params.id]
    and [req.get('user-agent')]. *)
Record Request := {
  path : string;
  params_id : string;
  user_agent : option string;
}.

(** ** [JSON.stringify] of a visit *)

Module JSON.

Definition hex_digit (n : N) : ascii :=
  if (n <? 10)%N then ascii_of_N (48 + n) else ascii_of_N (87 + n).

(** One code unit inside a JSON string literal: the short escapes,
    [\u00XX] for the other control characters, itself otherwise. *)
Definition quote_char (c : ascii) : string :=
  let n := N_of_ascii c in
  let esc (x : ascii) := String "\"%char (String x EmptyString) in
  if (n =? 8)%N then esc "b"%char
  else if (n =? 9)%N then esc "t"%char
  else if (n =? 10)%N then esc "n"%char
  else if (n =? 12)%N then esc "f"%char
  else if (n =? 13)%N then esc "r"%char
  else if (n =? 34)%N then esc c
  else if (n =? 92)%N then esc c
  else if (n <? 32)%N then
    "\u00" +:+ String (hex_digit (n / 16)) (String (hex_digit (n mod 16)) EmptyString)
  else String c EmptyString.

Fixpoint quote_chars (s : string) : string :=
  match s with
  | EmptyString => EmptyString
  | String c s' => quote_char c +:+ quote_chars s'
  end.

Definition dquote : string := String "034"%char EmptyString.

Definition quote (s : string) : string := dquote +:+ quote_chars s +:+ dquote.

Definition device_name (d : DeviceType) : string :=
  match d with
  | mobile => "mobile"
  | desktop => "desktop"
  end.

(** [JSON.stringify(visit)]: the three properties in the order in which
    the object literal lists them. *)
Definition stringify_visit (v : Visit) : string :=
  "{" +:+ quote "timestamp" +:+ ":" +:+ quote (timestamp v)
  +:+ "," +:+ quote "userAgent" +:+ ":" +:+ quote (userAgent v)
  +:+ "," +:+ quote "deviceType" +:+ ":" +:+ quote (device_name (deviceType v))
  +:+ "}".

End JSON.

(** ** The handlers *)

Definition linksSetKey : string := "links".

(** [Array.prototype.includes] on strings. *)
Definition includes (l : list string) (s : string) : bool :=
  existsb (String.eqb s) l.

(** [links.filter(Boolean)] on an array of objects and nulls. *)
Definition filter_Boolean {A} (l : list (option A)) : list A :=
  omap (fun x => x) l.

Section handlers.
Context `{Platform}.

(** *** POST /api/links

    [url] is the [url] property of the body, a string; [id] is the
    identifier that [shortid.generate()] returns and [now] the time of
    the call. *)
Definition create (st : Store) (url id : string) (now : Z) : Response * Store :=
  match URL_protocol url with
  | Some protocol =>
      if negb (includes ["http:"; "https:"] protocol)
      then (SendStatus 400 "Only http(s) URLs are allowed.", st)
      else
        let createdAt := ISO.toISOString now in
        let linkKey := "link:" +:+ id in
        let st1 :=
          Redis.hSet st linkKey
            [("id", id);
             ("originalUrl", url);
             ("createdAt", createdAt);
             ("visitCount", Redis.string_of_Z 0);
             ("shortUrl", BASE_URL +:+ "/" +:+ id)] in
        let st2 := Redis.sAdd st1 linksSetKey id in
        (SendLink {| Link.id := id;
                     Link.originalUrl := Some url;
                     Link.createdAt := Some createdAt;
                     Link.visitCount := Dec 0 0;
                     Link.shortUrl := BASE_URL +:+ "/" +:+ id |},
         st2)
  | None => (SendStatus 400 "Invalid URL provided.", st)
  end.

(** [Number(x || 0)] for a field of a hash. *)
Definition Number_or_zero (x : option string) : JsNumber :=
  if falsy x then Dec 0 0 else Number_of_string (default "" x).

(** The object that the list and the stats responses build from the
    fields of a link's hash. *)
Definition link_of_data (id : string) (data : gmap string string) : Link.t :=
  {| Link.id := default "" (data !! "id");
     Link.originalUrl := data !! "originalUrl";
     Link.createdAt := data !! "createdAt";
     Link.visitCount := Number_or_zero (data !! "visitCount");
     Link.shortUrl := or_else (data !! "shortUrl") (BASE_URL +:+ "/" +:+ id) |}.

(** *** GET /api/links

    [ids] is the reply to SMEMBERS. *)
Definition fetch_link (st : Store) (id : string) : option Link.t :=
  let data := Redis.hGetAll st ("link:" +:+ id) in
  if falsy (data !! "id") then None else Some (link_of_data id data).

Definition by_createdAt (a b : Link.t) : completion (option Z) :=
  mret (date_sub (Date_of_string (Link.createdAt b))
                 (Date_of_string (Link.createdAt a))).

Definition list_links (st : Store) (ids : list string) : Response :=
  let links := map (fetch_link st) ids in
  match js_sort by_createdAt (filter_Boolean links) with
  | Normal filtered => SendLinks filtered
  | Throw => Rejected
  end.

(** *** GET /api/links/:id/stats

    [q_start] and [q_end] are the query parameters [start] and [end],
    each a string or absent. *)

(** [req.query.x ? new Date(req.query.x) : null]. *)
Definition query_date (q : option string) : option Date :=
  if falsy q then None else Some (Date_of_string q).

(** The [try]/[catch] around [JSON.parse]. *)
Definition parse_entry (entry : string) : JsVal :=
  match JSON_parse entry with
  | Some v => v
  | None => JNull
  end.

Definition visit_date (visit : JsVal) : completion Date :=
  new_Date (js_get visit "timestamp").

(** The date filter's callback. *)
Definition in_range (start end_ : option Date) (visit : JsVal) : completion bool :=
  ts ← visit_date visit;
  mret (if match start with Some s => date_lt ts s | None => false end
        then false
        else if match end_ with
                | Some e => date_gt ts (date_plus e msPerDay)
                | None => false
                end
        then false
        else true).

Definition by_timestamp (a b : JsVal) : completion (option Z) :=
  db ← visit_date b;
  da ← visit_date a;
  mret (date_sub db da).

Definition parsedVisits (visits : list string) (start end_ : option Date)
  : completion (list JsVal) :=
  kept ← filterM (in_range start end_)
                 (List.filter ToBoolean (map parse_entry visits));
  js_sort by_timestamp kept.

Definition stats (st : Store) (id : string) (q_start q_end : option string) : Response :=
  let linkKey := "link:" +:+ id in
  let link := Redis.hGetAll st linkKey in
  if falsy (link !! "id") then SendStatus 404 "Link not found."
  else
    let visitsKey := "visits:" +:+ id in
    let visits := Redis.lRange_all st visitsKey in
    let start := query_date q_start in
    let end_ := query_date q_end in
    match parsedVisits visits start end_ with
    | Normal vs => SendStats (link_of_data id link) vs
    | Throw => Rejected
    end.

(** *** GET /:id *)
Definition redirect (st : Store) (req : Request) (now : Z) : Response * Store :=
  if Str.startsWith "/api" (path req) then (Next, st)
  else
    let id := params_id req in
    let linkKey := "link:" +:+ id in
    let link := Redis.hGetAll st linkKey in
    if falsy (link !! "id") then (Next, st)
    else
      let visitsKey := "visits:" +:+ id in
      let userAgent := or_else (user_agent req) "" in
      let visit := {| timestamp := ISO.toISOString now;
                      userAgent := userAgent;
                      deviceType := detectDeviceType (Some userAgent) |} in
      let '(incremented, st1) := Redis.hIncrBy st linkKey "visitCount" 1 in
      let st2 := Redis.rPush st1 visitsKey (JSON.stringify_visit visit) in
      match incremented with
      | Normal _ => (Redirect (link !! "originalUrl"), st2)
      | Throw => (Rejected, st2)
      end.

End handlers.

(** ** A reference platform

    An executable platform for running the handlers on concrete inputs.
    It follows the language definition on the fragment described at each
    function and answers with a failure (a throw, or NaN) outside of it. *)

Module Ref.

Definition is_digit (c : ascii) : bool :=
  let n := N_of_ascii c in ((48 <=? n) && (n <=? 57))%N.

Definition is_alpha (c : ascii) : bool :=
  let n := N_of_ascii c in
  (((65 <=? n) && (n <=? 90)) || ((97 <=? n) && (n <=? 122)))%N.

Definition digit_val (c : ascii) : Z := Z.of_N (N_of_ascii c) - 48.

Fixpoint drop (n : nat) (s : string) : string :=
  match n, s with
  | S n', String _ s' => drop n' s'
  | _, _ => s
  end.

(** The longest prefix of characters that satisfy [p], and the rest. *)
Fixpoint span (p : ascii -> bool) (s : string) : string * string :=
  match s with
  | String c s' =>
      if p c then let '(a, b) := span p s' in (String c a, b)
      else (EmptyString, s)
  | EmptyString => (EmptyString, EmptyString)
  end.

(** The value of a string of decimal digits. *)
Definition number_of_digits (s : string) : Z :=
  fold_left (fun acc c => 10 * acc + digit_val c) (list_ascii_of_string s) 0.

(** A field of exactly [w] decimal digits at the head of [s]. *)
Definition fixed_digits (w : nat) (s : string) : option (Z * string) :=
  let '(ds, _) := span is_digit s in
  if (w <=? String.length ds)%nat
  then Some (number_of_digits (String.substring 0 w s), drop w s)
  else None.

(** A single expected character. *)
Definition expect (c : ascii) (s : string) : option string :=
  match s with
  | String c' s' => if Ascii.eqb c c' then Some s' else None
  | EmptyString => None
  end.

(** *** [Date.parse]

    The forms [YYYY-MM-DD], [YYYY-MM-DDTHH:mmZ], [YYYY-MM-DDTHH:mm:ssZ]
    and [YYYY-MM-DDTHH:mm:ss.sssZ], with a signed six-digit year as
    well; a date alone is midnight UTC.  As in V8 the day of the month
    may run to 31 in every month and carries over. *)
Definition parse_year (s : string) : option (Z * string) :=
  match s with
  | String c s' =>
      if Ascii.eqb c "+" then fixed_digits 6 s'
      else if Ascii.eqb c "-" then
        '(y, r) ← fixed_digits 6 s';
        if y =? 0 then None else Some (- y, r)
      else fixed_digits 4 s
  | EmptyString => None
  end.

Definition parse_time (s : string) : option Z :=
  '(h, s) ← fixed_digits 2 s;
  s ← expect ":" s;
  '(mi, s) ← fixed_digits 2 s;
  '(sec, ms) ←
    (if String.eqb s "Z" then Some (0, 0)
     else
       s ← expect ":" s;
       '(sec, s) ← fixed_digits 2 s;
       if String.eqb s "Z" then Some (sec, 0)
       else
         s ← expect "." s;
         '(ms, s) ← fixed_digits 3 s;
         if String.eqb s "Z" then Some (sec, ms) else None);
  if (h <=? 23) && (mi <=? 59) && (sec <=? 59)
  then Some (((h * 60 + mi) * 60 + sec) * 1000 + ms)
  else None.

Definition date_parse (s : string) : option Z :=
  TimeClip (
    '(y, s) ← parse_year s;
    s ← expect "-" s;
    '(m, s) ← fixed_digits 2 s;
    s ← expect "-" s;
    '(d, s) ← fixed_digits 2 s;
    if (1 <=? m) && (m <=? 12) && (1 <=? d) && (d <=? 31) then
      let day := ISO.days_from_civil y m 1 + d - 1 in
      match s with
      | EmptyString => Some (day * msPerDay)
      | String "T" s' => t ← parse_time s'; Some (day * msPerDay + t)
      | _ => None
      end
    else None).

(** *** [JSON.parse]

    The grammar of JSON texts.  A [\u] escape above 255 has no
    counterpart among the strings of this file and is refused. *)
Definition is_ws (c : ascii) : bool :=
  let n := N_of_ascii c in ((n =? 32) || (n =? 9) || (n =? 10) || (n =? 13))%N.

Fixpoint skip_ws (s : string) : string :=
  match s with
  | String c s' => if is_ws c then skip_ws s' else s
  | EmptyString => s
  end.

Definition hex_val (c : ascii) : option N :=
  let n := N_of_ascii c in
  if ((48 <=? n) && (n <=? 57))%N then Some (n - 48)%N
  else if ((65 <=? n) && (n <=? 70))%N then Some (n - 55)%N
  else if ((97 <=? n) && (n <=? 102))%N then Some (n - 87)%N
  else None.

(** The characters of a string literal after its opening quote, and
    what follows the closing quote. *)
Fixpoint string_body (s : string) : option (string * string) :=
  match s with
  | EmptyString => None
  | String c s' =>
      if (N_of_ascii c =? 34)%N then Some (EmptyString, s')
      else if (N_of_ascii c =? 92)%N then
        match s' with
        | String "u" (String a (String b (String c' (String d s'')))) =>
            a ← hex_val a; b ← hex_val b; c' ← hex_val c'; d ← hex_val d;
            if ((a =? 0) && (b =? 0))%N then
              '(r, rest) ← string_body s'';
              Some (String (ascii_of_N (16 * c' + d)) r, rest)
            else None
        | String e s'' =>
            ch ← (if (N_of_ascii e =? 34)%N then Some e
                  else if (N_of_ascii e =? 92)%N then Some e
                  else match e with
                       | "/" => Some e
                       | "b" => Some "008"
                       | "f" => Some "012"
                       | "n" => Some "010"
                       | "r" => Some "013"
                       | "t" => Some "009"
                       | _ => None
                       end%char);
            '(r, rest) ← string_body s'';
            Some (String ch r, rest)
        | EmptyString => None
        end
      else if (N_of_ascii c <? 32)%N then None
      else '(r, rest) ← string_body s'; Some (String c r, rest)
  end.

(** A number: [-]? int frac? exp?, read as [Dec m e]. *)
Definition number (s : string) : option (JsNumber * string) :=
  let '(neg, s) := match s with
                   | String "-" s' => (true, s')
                   | _ => (false, s)
                   end in
  let '(int, s) := span is_digit s in
  if (String.length int =? 0)%nat then None
  else if (1 <? String.length int)%nat && Str.startsWith "0" int then None
  else
    '(frac, s) ←
      match s with
      | String "." s' =>
          let '(f, r) := span is_digit s' in
          if (String.length f =? 0)%nat then None else Some (f, r)
      | _ => Some (EmptyString, s)
      end;
    '(ex, s) ←
      match s with
      | String c s' =>
          if Ascii.eqb c "e" || Ascii.eqb c "E" then
            let '(sg, s1) := match s' with
                             | String "-" s1 => (-1, s1)
                             | String "+" s1 => (1, s1)
                             | _ => (1, s')
                             end in
            let '(ds, r) := span is_digit s1 in
            if (String.length ds =? 0)%nat then None
            else Some (sg * number_of_digits ds, r)
          else Some (0, s)
      | EmptyString => Some (0, s)
      end;
    let m := number_of_digits (int +:+ frac) in
    Some (Dec (if neg : bool then - m else m) (ex - Z.of_nat (String.length frac)), s).

Definition literal (word : string) (v : JsVal) (s : string) : option (JsVal * string) :=
  if Str.startsWith word s then Some (v, drop (String.length word) s) else None.

Fixpoint value (fuel : nat) (s : string) : option (JsVal * string) :=
  match fuel with
  | O => None
  | S fuel' =>
      let s := skip_ws s in
      match s with
      | String "n" _ => literal "null" JNull s
      | String "t" _ => literal "true" (JBool true) s
      | String "f" _ => literal "false" (JBool false) s
      | String "[" s' =>
          match skip_ws s' with
          | String "]" r => Some (JArr [], r)
          | _ => '(vs, r) ← elements fuel' s'; Some (JArr vs, r)
          end
      | String "{" s' =>
          match skip_ws s' with
          | String "}" r => Some (JObj [], r)
          | _ => '(ps, r) ← members fuel' s'; Some (JObj ps, r)
          end
      | String c s' =>
          if (N_of_ascii c =? 34)%N
          then '(str, r) ← string_body s'; Some (JStr str, r)
          else '(n, r) ← number s; Some (JNum n, r)
      | EmptyString => None
      end
  end
with elements (fuel : nat) (s : string) : option (list JsVal * string) :=
  match fuel with
  | O => None
  | S fuel' =>
      '(v, r) ← value fuel' s;
      match skip_ws r with
      | String "," r' => '(vs, r'') ← elements fuel' r'; Some (v :: vs, r'')
      | String "]" r' => Some ([v], r')
      | _ => None
      end
  end
with members (fuel : nat) (s : string) : option (list (string * JsVal) * string) :=
  match fuel with
  | O => None
  | S fuel' =>
      match skip_ws s with
      | String q s1 =>
          if (N_of_ascii q =? 34)%N then
            '(k, r) ← string_body s1;
            r ← expect ":" (skip_ws r);
            '(v, r) ← value fuel' r;
            match skip_ws r with
            | String "," r' => '(ps, r'') ← members fuel' r'; Some ((k, v) :: ps, r'')
            | String "}" r' => Some ([(k, v)], r')
            | _ => None
            end
          else None
      | EmptyString => None
      end
  end.

Definition json_parse (s : string) : option JsVal :=
  '(v, r) ← value (2 * String.length s + 2) s;
  match skip_ws r with
  | EmptyString => Some v
  | _ => None
  end.

(** *** The URL parser

    Absolute URLs [scheme:rest].  For the schemes http, https, ftp, ws
    and wss the rest is slashes, a host of letters, digits and
    single dots that ends in a letter, an optional port up to
    65535, and then nothing or a path, query or fragment that starts
    with [/], [?] or [#].  For any other scheme the rest is free except
    that it does not start with a slash.  The result is the scheme in
    lower case, followed by a colon. *)
Definition is_scheme_char (c : ascii) : bool :=
  is_alpha c || is_digit c || Ascii.eqb c "+" || Ascii.eqb c "-" || Ascii.eqb c ".".

Definition is_host_char (c : ascii) : bool :=
  is_alpha c || is_digit c || Ascii.eqb c ".".

Fixpoint last_char (s : string) : option ascii :=
  match s with
  | EmptyString => None
  | String c EmptyString => Some c
  | String _ s' => last_char s'
  end.

Fixpoint has_double_dot (s : string) : bool :=
  match s with
  | String "." (String "." _) => true
  | String _ s' => has_double_dot s'
  | EmptyString => false
  end.

Definition host_ok (h : string) : bool :=
  match h, last_char h with
  | String c _, Some l =>
      (is_alpha c || is_digit c) && is_alpha l && negb (has_double_dot h)
  | _, _ => false
  end.

Definition tail_ok (s : string) : bool :=
  match s with
  | EmptyString => true
  | String c _ => Ascii.eqb c "/" || Ascii.eqb c "?" || Ascii.eqb c "#"
  end.

Definition url_protocol (s : string) : option string :=
  match s with
  | String c _ =>
      if is_alpha c then
        let '(scheme, r) := span is_scheme_char s in
        r ← expect ":" r;
        let scheme := Str.toLowerCase scheme in
        if includes ["http"; "https"; "ftp"; "ws"; "wss"] scheme then
          let '(_, r) := span (Ascii.eqb "/") r in
          let '(host, r) := span is_host_char r in
          if host_ok host then
            match r with
            | String ":" r' =>
                let '(port, r'') := span is_digit r' in
                if (number_of_digits port <=? 65535) && tail_ok r''
                then Some (scheme +:+ ":") else None
            | _ => if tail_ok r then Some (scheme +:+ ":") else None
            end
          else None
        else if Str.startsWith "file" scheme && (String.length scheme =? 4)%nat then None
        else
          match r with
          | String "/" _ => None
          | _ => Some (scheme +:+ ":")
          end
      else None
  | EmptyString => None
  end.

(** *** [Number(s)]: integers in canonical decimal form; the empty
    string is 0. *)
Definition number_of_string (s : string) : JsNumber :=
  if String.eqb s "" then Dec 0 0
  else match Redis.Z_of_string s with
       | Some z => Dec z 0
       | None => NaN
       end.

(** *** Time values of numbers, arrays and objects

    A number written without fraction or negative exponent is its
    own time value.  An object that
    has a property [toString] of its own cannot be converted; any
    other object, and the empty array, convert to a string that is
    not a date. *)
Definition date_value (v : JsVal) : completion (option Z) :=
  match v with
  | JNum (Dec m e) => if 0 <=? e then Normal (Some (m * 10 ^ e)) else Normal None
  | JObj props =>
      match last_prop "toString" props with
      | Some _ => Throw
      | None => Normal None
      end
  | _ => Normal None
  end.

Definition platform (base : string) : Platform :=
  Build_Platform url_protocol json_parse date_parse date_value number_of_string base.

End Ref.

(** ** Reading the store *)

(** The check [!link || !link.id] fails: the link exists. *)
Definition link_exists (st : Store) (id : string) : bool :=
  negb (falsy (Redis.hGetAll st ("link:" +:+ id) !! "id")).

(** The counter kept in the link's hash, as HINCRBY reads it: 0 when the
    field is absent, nothing when the field is not an integer. *)
Definition stored_visitCount (st : Store) (id : string) : option Z :=
  match Redis.hGetAll st ("link:" +:+ id) !! "visitCount" with
  | Some s => Redis.Z_of_string s
  | None => Some 0
  end.

(** The link's visit log. *)
Definition visit_log (st : Store) (id : string) : list string :=
  Redis.lRange_all st ("visits:" +:+ id).

(** An identifier of the index that has no usable record: the hash is
    missing, or it has no [id] field. *)
Definition dangling (st : Store) (id : string) : Prop :=
  match hashes st !! ("link:" +:+ id) with
  | Some h => h !! "id" = None
  | None => True
  end.

(** ** Sequences of core operations *)

Inductive Op :=
| Create (url id : string) (now : Z)
| RecordVisit (req : Request) (now : Z).

Section runs.
Context `{Platform}.

Definition step (st : Store) (op : Op) : Response * Store :=
  match op with
  | Create url id now => create st url id now
  | RecordVisit req now => redirect st req now
  end.

Fixpoint run (st : Store) (ops : list Op) : Store :=
  match ops with
  | [] => st
  | op :: ops' => run (snd (step st op)) ops'
  end.

(** The identifier that an operation takes from the generator, if any:
    the create route asks for one once the URL has passed. *)
Definition generated_id (st : Store) (op : Op) : option string :=
  match op with
  | Create url id now =>
      match fst (create st url id now) with
      | SendLink _ => Some id
      | _ => None
      end
  | RecordVisit _ _ => None
  end.

(** The generator never returns an identifier that is in use: whenever
    an operation of the sequence takes an identifier, the store holds no
    link under it yet. *)
Fixpoint fresh_ids (st : Store) (ops : list Op) : Prop :=
  match ops with
  | [] => True
  | op :: ops' =>
      match generated_id st op with
      | Some id => hashes st !! ("link:" +:+ id) = None
      | None => True
      end
      /\ fresh_ids (snd (step st op)) ops'
  end.

(** The visit that the redirect route records. *)
Definition recorded_visit (ua : string) (now : Z) : Visit :=
  {| timestamp := ISO.toISOString now;
     userAgent := ua;
     deviceType := detectDeviceType (Some ua) |}.

(** The date of a decoded visit, invalid when the conversion throws. *)
Definition date_or_invalid (v : JsVal) : Date :=
  match visit_date v with
  | Normal d => d
  | Throw => None
  end.

(** The decoded log: every entry that parses to a truthy value. *)
Definition decoded (visits : list string) : list JsVal :=
  List.filter ToBoolean (map parse_entry visits).
End runs.

(** ** The date window, in the words of the specification

    A visit is excluded when [start] is given and its timestamp is
    before [start], and when [end] is given and its timestamp is after
    [end] plus one day.  An invalid date is neither before nor after
    anything. *)
Definition before (ts bound : Date) : Prop :=
  match ts, bound with
  | Some t, Some b => t < b
  | _, _ => False
  end.

Definition after_day (ts bound : Date) : Prop :=
  match ts, bound with
  | Some t, Some b => t > b + msPerDay
  | _, _ => False
  end.

Definition in_window (start end_ : option Date) (ts : Date) : Prop :=
  match start with Some s => ~ before ts s | None => True end
  /\ match end_ with Some e => ~ after_day ts e | None => True end.

#[global] Instance before_dec ts bound : Decision (before ts bound).
Proof. destruct ts, bound; cbn; apply _. Defined.

#[global] Instance after_day_dec ts bound : Decision (after_day ts bound).
Proof. destruct ts, bound; cbn; apply _. Defined.

#[global] Instance in_window_dec start end_ ts : Decision (in_window start end_ ts).
Proof. destruct start, end_; cbn; apply _. Defined.

(** Newest first. *)
Definition newer_or_equal (a b : Date) : Prop :=
  match a, b with
  | Some x, Some y => y <= x
  | _, _ => False
  end.

(** A comparison function is [(a, b) => key(b) - key(a)] on the elements
    of [l]. *)
Definition keyed_on {A} (comparefn : A -> A -> completion (option Z))
    (key : A -> Date) (l : list A) : Prop :=
  forall x y, x ∈ l -> y ∈ l -> comparefn x y = Normal (date_sub (key y) (key x)).

(** Every hash of a link holds a counter equal to the length of the
    link's log, and there is no log without a hash. *)
Definition consistent (st : Store) : Prop :=
  forall id,
    match hashes st !! ("link:" +:+ id) with
    | Some _ => stored_visitCount st id = Some (Z.of_nat (length (visit_log st id)))
    | None => visit_log st id = []
    end.

(** The store after a visit of the link [id] whose counter was [n]. *)
Definition visited (st : Store) (id : string) (n : Z) (entry : string) : Store :=
  {| hashes := <["link:" +:+ id :=
                  <["visitCount" := Redis.string_of_Z (n + 1)]>
                    (Redis.hGetAll st ("link:" +:+ id))]> (hashes st);
     lists := <["visits:" +:+ id := visit_log st id ++ [entry]]> (lists st);
     sets := sets st |}.

(** The store after the creation of the link [id]. *)
Definition created `{Platform} (st : Store) (url id : string) (now : Z) : Store :=
  Redis.sAdd
    (Redis.hSet st ("link:" +:+ id)
       [("id", id); ("originalUrl", url);
        ("createdAt", ISO.toISOString now);
        ("visitCount", Redis.string_of_Z 0);
        ("shortUrl", BASE_URL +:+ "/" +:+ id)])
    linksSetKey id.

(** The creation date by which the list is ordered. *)
Definition created_date `{Platform} (l : Link.t) : Date :=
  Date_of_string (Link.createdAt l).

(** A date whose time value, if any, is in the range of time values. *)
Definition clipped (d : Date) : Prop :=
  match d with
  | Some t => Z.abs t <= 8640000000000000
  | None => True
  end.

(** ** Concrete stores, on the reference platform *)

Module Example.

Definition platform : Platform := Ref.platform "http://localhost:3000".

Definition get (id ua : string) : Request :=
  {| path := "/" +:+ id; params_id := id; user_agent := Some ua |}.

Definition windows : string := "Mozilla/5.0 (Windows NT 10.0; Win64; x64)".
Definition iphone : string := "Mozilla/5.0 (iPhone; CPU iPhone OS 17_0 like Mac OS X)".

(** One link, created on 2023-12-31 and visited at 2024-01-01T10:00Z,
    2024-01-05T23:59Z and 2024-01-10T00:01Z. *)
Definition three_visits : Store :=
  run (H := platform) empty_store
    [Create "https://example.com/landing" "k3Yq9wZ" 1704000000000;
     RecordVisit (get "k3Yq9wZ" windows) 1704103200000;
     RecordVisit (get "k3Yq9wZ" iphone) 1704499140000;
     RecordVisit (get "k3Yq9wZ" "") 1704844860000].

Definition first_visit : JsVal :=
  JObj [("timestamp", JStr "2024-01-01T10:00:00.000Z");
        ("userAgent", JStr windows);
        ("deviceType", JStr "desktop")].

Definition second_visit : JsVal :=
  JObj [("timestamp", JStr "2024-01-05T23:59:00.000Z");
        ("userAgent", JStr iphone);
        ("deviceType", JStr "mobile")].

Definition third_visit : JsVal :=
  JObj [("timestamp", JStr "2024-01-10T00:01:00.000Z");
        ("userAgent", JStr "");
        ("deviceType", JStr "desktop")].

Definition landing : Link.t :=
  {| Link.id := "k3Yq9wZ";
     Link.originalUrl := Some "https://example.com/landing";
     Link.createdAt := Some "2023-12-31T05:20:00.000Z";
     Link.visitCount := Dec 3 0;
     Link.shortUrl := "http://localhost:3000/k3Yq9wZ" |}.

(** The same link with an entry in its log that is not JSON, or that
    is the JSON text [null], between the first and the second visit. *)
Definition with_entry (entry : string) : Store :=
  run (H := platform)
    (Redis.rPush
       (run (H := platform) empty_store
          [Create "https://example.com/landing" "k3Yq9wZ" 1704000000000;
           RecordVisit (get "k3Yq9wZ" windows) 1704103200000])
       "visits:k3Yq9wZ" entry)
    [RecordVisit (get "k3Yq9wZ" iphone) 1704499140000].

Definition two_visits : Store :=
  run (H := platform) empty_store
    [Create "https://example.com/landing" "k3Yq9wZ" 1704000000000;
     RecordVisit (get "k3Yq9wZ" windows) 1704103200000;
     RecordVisit (get "k3Yq9wZ" iphone) 1704499140000].

Definition first_entry : string :=
  JSON.stringify_visit (recorded_visit windows 1704103200000).

Definition second_entry : string :=
  JSON.stringify_visit (recorded_visit iphone 1704499140000).

(** An entry that is valid JSON for an object whose [timestamp] is an
    object with a property [toString] of its own. *)
Definition unconvertible_entry : string :=
  "{" +:+ JSON.quote "timestamp" +:+ ":{" +:+ JSON.quote "toString" +:+ ":1}}".

(** Two links created at the same instant, [Zq8rT1a] first. *)
Definition two_links : Store :=
  run (H := platform) empty_store
    [Create "https://example.com/a" "Zq8rT1a" 1704103200000;
     Create "https://example.com/b" "b7Hk2Lx" 1704103200000].

Definition link_a : Link.t :=
  {| Link.id := "Zq8rT1a";
     Link.originalUrl := Some "https://example.com/a";
     Link.createdAt := Some "2024-01-01T10:00:00.000Z";
     Link.visitCount := Dec 0 0;
     Link.shortUrl := "http://localhost:3000/Zq8rT1a" |}.

Definition link_b : Link.t :=
  {| Link.id := "b7Hk2Lx";
     Link.originalUrl := Some "https://example.com/b";
     Link.createdAt := Some "2024-01-01T10:00:00.000Z";
     Link.visitCount := Dec 0 0;
     Link.shortUrl := "http://localhost:3000/b7Hk2Lx" |}.

(** The identifier [k3Yq9wZ] generated a second time, after one visit. *)
Definition collision : Store :=
  run (H := platform) empty_store
    [Create "https://example.com/landing" "k3Yq9wZ" 1704000000000;
     RecordVisit (get "k3Yq9wZ" windows) 1704103200000;
     Create "https://example.com/other" "k3Yq9wZ" 1704200000000].


(** An index entry without a record: [gone] is in the set [links] and
    has no hash. *)
Definition with_dangling : Store :=
  Redis.sAdd two_links linksSetKey "gone".

End Example.

(** The value that a recorded visit parses back to. *)
Definition visit_value (v : Visit) : JsVal :=
  JObj [("timestamp", JStr (timestamp v));
        ("userAgent", JStr (userAgent v));
        ("deviceType", JStr (JSON.device_name (deviceType v)))].

(** Every entry of every log was written by the redirect route. *)
Definition recorded_logs (st : Store) : Prop :=
  forall key entries, lists st !! key = Some entries ->
    Forall (fun e => exists v, e = JSON.stringify_visit v) entries.

(** ** What the routes write, and a platform that reads it back *)

(** [JSON.parse] inverts [JSON.stringify] on recorded visits, and
    [Date.parse] inverts [toISOString] on time values. *)
Definition reads_back (P : Platform) : Prop :=
  (forall v, JSON_parse (JSON.stringify_visit v) = Some (visit_value v))
  /\ (forall t, Z.abs t <= 8640000000000000 ->
                Date_parse (ISO.toISOString t) = Some t).

(** Every hash carries the creation date that [toISOString] wrote. *)
Definition dated_links (st : Store) : Prop :=
  forall key h, hashes st !! key = Some h ->
    exists t, Z.abs t <= 8640000000000000
              /\ h !! "createdAt" = Some (ISO.toISOString t).

(** The time of the call, in an operation. *)
Definition time_of (op : Op) : Z :=
  match op with
  | Create _ _ now => now
  | RecordVisit _ now => now
  end.

(** [new Date()] is a valid date in every operation of the sequence. *)
Definition clock_in_range (ops : list Op) : Prop :=
  Forall (fun op => Z.abs (time_of op) <= 8640000000000000) ops.

(** ** Further readings of the store and of a platform *)

(** The index: the identifiers in the set [links]. *)
Definition index (st : Store) : gset string :=
  default ∅ (sets st !! linksSetKey).

(** [Number] reads the counters that the server writes. *)
Definition reads_counters (P : Platform) : Prop :=
  forall n, 0 <= n -> Number_of_string (Redis.string_of_Z n) = Dec n 0.

(** Every hash is the record of an identifier of the index, kept under
    the key of that identifier, and every identifier of the index has
    one. *)
Definition indexed_links (st : Store) : Prop :=
  (forall key h, hashes st !! key = Some h ->
     exists id, key = "link:" +:+ id /\ h !! "id" = Some id /\ id ∈ index st)
  /\ (forall id, id ∈ index st -> is_Some (hashes st !! ("link:" +:+ id))).

(** Every entry of every log is a visit that the redirect route recorded
    at a time in the range of time values. *)
Definition dated_logs (st : Store) : Prop :=
  forall key entries, lists st !! key = Some entries ->
    Forall (fun e => exists ua t,
                Z.abs t <= 8640000000000000
                /\ e = JSON.stringify_visit (recorded_visit ua t)) entries.

(** The identifiers that the create route is given are not empty. *)
Definition named_ids (ops : list Op) : Prop :=
  Forall (fun op => match op with
                    | Create _ id _ => id <> ""
                    | RecordVisit _ _ => True
                    end) ops.

(** ** More concrete stores *)

Module Scenario.

(** The link of [Example.two_visits] with a counter that is not an
    integer. *)
Definition corrupt_counter : Store :=
  Redis.hSet Example.two_visits "link:k3Yq9wZ" [("visitCount", "many")].

(** The link of [Example.two_visits] with the JSON number 7 as a third
    entry of its log. *)
Definition with_number : Store :=
  Redis.rPush Example.two_visits "visits:k3Yq9wZ" "7".

(** The value of that entry: a number has no timestamp. *)
Definition undated : JsVal := JNum (Dec 7 0).

(** The value of [Example.unconvertible_entry]. *)
Definition unconvertible : JsVal :=
  JObj [("timestamp", JObj [("toString", JNum (Dec 1 0))])].

(** The link of the examples as the create route answers it. *)
Definition fresh_landing : Link.t :=
  {| Link.id := "k3Yq9wZ";
     Link.originalUrl := Some "https://example.com/landing";
     Link.createdAt := Some "2023-12-31T05:20:00.000Z";
     Link.visitCount := Dec 0 0;
     Link.shortUrl := "http://localhost:3000/k3Yq9wZ" |}.

(** The operations behind [Example.three_visits] and
    [Example.two_links]. *)
Definition three_ops : list Op :=
  [Create "https://example.com/landing" "k3Yq9wZ" 1704000000000;
   RecordVisit (Example.get "k3Yq9wZ" Example.windows) 1704103200000;
   RecordVisit (Example.get "k3Yq9wZ" Example.iphone) 1704499140000;
   RecordVisit (Example.get "k3Yq9wZ" "") 1704844860000].

Definition two_ops : list Op :=
  [Create "https://example.com/a" "Zq8rT1a" 1704103200000;
   Create "https://example.com/b" "b7Hk2Lx" 1704103200000].

(** One link and one visit at 2024-01-06T00:00:00.000Z, the first
    instant of the day after 2024-01-05. *)
Definition midnight_ops : list Op :=
  [Create "https://example.com/landing" "k3Yq9wZ" 1704000000000;
   RecordVisit (Example.get "k3Yq9wZ" Example.windows) 1704499200000].

Definition midnight_visit : JsVal :=
  JObj [("timestamp", JStr "2024-01-06T00:00:00.000Z");
        ("userAgent", JStr Example.windows);
        ("deviceType", JStr "desktop")].

End Scenario.

(** ** Starting the servers

    The end of [server.js]: the module body creates the HTTPS server
    when both certificate paths are set, and then the HTTP server
    unless [serverStarted] is set.  The calls that the body makes are
    recorded in order; a callback that it hands to [listen] is kept for
    later, since [listen] calls back once the server is listening, after
    the module body has run to its end. *)

Module Startup.

(** The environment variables; [None] is a variable that is not set. *)
Record Env := {
  env_PORT : option string;
  env_SSL_KEY_PATH : option string;
  env_SSL_CERT_PATH : option string;
}.

(** [process.env.PORT || 3000], as text. *)
Definition PORT (env : Env) : string := or_else (env_PORT env) "3000".

(** What the body takes from Node: [fs.readFileSync], and
    [https.createServer(options, app).listen(port, callback)], each of
    which returns or throws. *)
Record Node := {
  readFileSync : string -> completion string;
  createServer_listen : string -> string -> string -> completion unit;
}.

Inductive Call :=
| HttpsListen (key cert port : string)
| AppListen (port : string)
| Warn (message : string)
| Log (message : string).

Inductive Callback :=
| HttpsListening (port : string)
| HttpListening (port : string).

Record Process := {
  serverStarted : bool;
  calls : list Call;
  pending : list Callback;
}.

Definition call (c : Call) (p : Process) : Process :=
  {| serverStarted := serverStarted p; calls := calls p ++ [c]; pending := pending p |}.

Definition later (cb : Callback) (p : Process) : Process :=
  {| serverStarted := serverStarted p; calls := calls p; pending := pending p ++ [cb] |}.

(** The body of the [try] block. *)
Definition try_https (env : Env) (node : Node) (p : Process) : completion Process :=
  key ← readFileSync node (default "" (env_SSL_KEY_PATH env));
  cert ← readFileSync node (default "" (env_SSL_CERT_PATH env));
  _ ← createServer_listen node key cert (PORT env);
  mret (later (HttpsListening (PORT env)) (call (HttpsListen key cert (PORT env)) p)).

(** The module body, from [let serverStarted = false] on. *)
Definition main (env : Env) (node : Node) : Process :=
  let p0 := {| serverStarted := false; calls := []; pending := [] |} in
  let p1 :=
    if negb (falsy (env_SSL_KEY_PATH env)) && negb (falsy (env_SSL_CERT_PATH env)) then
      match try_https env node p0 with
      | Normal p => p
      | Throw =>
          call (Warn "SSL certificates not found or failed to load. Falling back to HTTP.") p0
      end
    else p0 in
  if negb (serverStarted p1)
  then later (HttpListening (PORT env)) (call (AppListen (PORT env)) p1)
  else p1.

(** A callback of [listen], when the event loop runs it. *)
Definition run_callback (cb : Callback) (p : Process) : Process :=
  match cb with
  | HttpsListening port =>
      {| serverStarted := true;
         calls := calls p ++ [Log ("HTTPS server listening on https://localhost:" +:+ port)];
         pending := pending p |}
  | HttpListening port =>
      call (Log ("HTTP server listening on http://localhost:" +:+ port)) p
  end.

End Startup.

(** ** The page: [App.jsx] *)

Module App.

(** [deviceLabel]; the argument is the property [deviceType] of a
    visit, [None] when the visit has none. *)
Definition deviceLabel (deviceType : option JsVal) : string :=
  match deviceType with
  | Some (JStr s) =>
      if String.eqb s "mobile" then "Mobile"
      else if String.eqb s "desktop" then "Desktop"
      else "Unknown"
  | _ => "Unknown"
  end.

(** What [fetch] resolves to: the status and the text of the body. *)
Record Reply := {
  status : Z;
  text : string;
}.

(** [res.ok]. *)
Definition ok (res : Reply) : bool :=
  (200 <=? status res) && (status res <=? 299).

(** A settled promise: fulfilled with a value, or rejected with an
    [Error] that carries a message. *)
Inductive Settled (A : Type) :=
| Fulfilled (a : A)
| RejectedWith (message : string).
Arguments Fulfilled {A} a.
Arguments RejectedWith {A} message.

(** [fetchJson], from the reply of [fetch] on; [json] is [res.json()]. *)
Definition fetchJson {A} (json : Reply -> Settled A) (res : Reply) : Settled A :=
  if negb (ok res)
  then RejectedWith (or_else (Some (text res)) "Request failed")
  else json res.

(** The reply that the page receives when a route answers with
    [res.status(code).send(body)]. *)
Definition reply_of (r : Response) : option Reply :=
  match r with
  | SendStatus code body => Some {| status := code; text := body |}
  | _ => None
  end.

End App.

(** * Properties *)

(** ** Strings *)

#[local] Arguments String.append !_ _ / : simpl nomatch.

Lemma append_assoc (a b c : string) : (a +:+ b) +:+ c = a +:+ b +:+ c.
Proof. induction a as [|x a IH]; cbn; [reflexivity | f_equal; exact IH]. Qed.

Lemma append_nil_r (a : string) : a +:+ "" = a.
Proof. induction a as [|x a IH]; cbn; [reflexivity | f_equal; exact IH]. Qed.

Lemma append_inv_head (a b c : string) : a +:+ b = a +:+ c -> b = c.
Proof. induction a as [|x a IH]; cbn; intros E; [assumption | injection E; auto]. Qed.

Lemma startsWith_spec (p s : string) :
  Str.startsWith p s = true <-> exists r, s = p +:+ r.
Proof.
  revert s; induction p as [|a p IH]; intros s; simpl.
  - split; [intros _; now exists s | reflexivity].
  - destruct s as [|b s].
    + split; [discriminate | intros [r E]; discriminate].
    + rewrite andb_true_iff, Ascii.eqb_eq, IH. split.
      * intros [-> [r ->]]. now exists r.
      * intros [r E]. injection E as -> ->. split; [reflexivity | now exists r].
Qed.

Lemma test_alternation_spec (alts : list string) (s : string) :
  Str.test_alternation alts s = true
  <-> exists a pre post, In a alts /\ s = pre +:+ a +:+ post.
Proof.
  induction s as [|c s IH].
  - simpl. rewrite orb_false_r, existsb_exists. split.
    + intros (a & Ha & Hp). apply startsWith_spec in Hp as [r E].
      exists a, "", r. now split.
    + intros (a & pre & post & Ha & E). exists a. split; [assumption|].
      destruct pre; [|discriminate]. simpl in E. apply startsWith_spec. now exists post.
  - simpl. rewrite orb_true_iff, existsb_exists, IH. split.
    + intros [(a & Ha & Hp) | (a & pre & post & Ha & E)].
      * apply startsWith_spec in Hp as [r E]. exists a, "", r. now split.
      * exists a, (String c pre), post. split; [assumption|]. simpl. now rewrite E.
    + intros (a & pre & post & Ha & E). destruct pre as [|x pre].
      * left. exists a. split; [assumption|]. apply startsWith_spec. now exists post.
      * right. simpl in E. injection E as _ E. now exists a, pre, post.
Qed.

Lemma toLowerCase_app_inv (s x y : string) :
  Str.toLowerCase s = x +:+ y ->
  exists s1 s2, s = s1 +:+ s2 /\ Str.toLowerCase s1 = x /\ Str.toLowerCase s2 = y.
Proof.
  revert s; induction x as [|a x IH]; intros s E; simpl in E.
  - exists "", s. now repeat split.
  - destruct s as [|c s]; [discriminate|]. simpl in E. injection E as Ea E.
    destruct (IH _ E) as (s1 & s2 & -> & <- & <-).
    exists (String c s1), s2. simpl. now rewrite Ea.
Qed.

Lemma toLowerCase_app (a b : string) :
  Str.toLowerCase (a +:+ b) = Str.toLowerCase a +:+ Str.toLowerCase b.
Proof. induction a as [|x a IH]; cbn; [reflexivity | f_equal; exact IH]. Qed.

Lemma N_of_ascii_inj (a b : ascii) : N_of_ascii a = N_of_ascii b -> a = b.
Proof. intros E. rewrite <- (ascii_N_embedding a), <- (ascii_N_embedding b). now rewrite E. Qed.

(** A code unit lowers to the letter [t] exactly when it is [t] or the
    capital of [t]. *)
Lemma lower_char_letter (c t : ascii) :
  (97 <= N_of_ascii t <= 122)%N ->
  Str.lower_char c = t <-> same_letter c t.
Proof.
  intros Ht. unfold Str.lower_char, same_letter.
  pose proof (N_ascii_bounded c) as Hc.
  set (n := N_of_ascii c) in *.
  set (cond := (((65 <=? n) && (n <=? 90)) || ((192 <=? n) && (n <=? 222) && negb (n =? 215)))%N).
  assert (Hcond : cond = true <-> (65 <= n <= 90 \/ (192 <= n <= 222 /\ n <> 215))%N).
  { unfold cond. rewrite orb_true_iff, !andb_true_iff, negb_true_iff, !N.leb_le, N.eqb_neq. tauto. }
  destruct cond.
  - assert (Hr : (65 <= n <= 90 \/ (192 <= n <= 222 /\ n <> 215))%N) by now apply Hcond.
    assert (Hn : N_of_ascii (ascii_of_N (n + 32)) = (n + 32)%N)
      by (apply N_ascii_embedding; lia).
    split.
    + intros <-. rewrite Hn in Ht. right. now rewrite Hn.
    + intros [-> | E'].
      * exfalso. fold n in Ht. lia.
      * apply N_of_ascii_inj. now rewrite Hn.
  - assert (Hr : ~ (65 <= n <= 90 \/ (192 <= n <= 222 /\ n <> 215))%N)
      by (intros Hr; apply Hcond in Hr; discriminate).
    split.
    + intros <-. now left.
    + intros [-> | E']; [reflexivity|]. exfalso. lia.
Qed.

Lemma toLowerCase_word (w tok : string) :
  lower_letters tok ->
  Str.toLowerCase w = tok <-> same_word w tok.
Proof.
  unfold lower_letters. revert w; induction tok as [|t tok IH]; intros w Hl.
  - destruct w; simpl; [tauto | split; [discriminate | tauto]].
  - simpl in Hl. apply Forall_cons in Hl as [Ht Hl].
    destruct w as [|c w]; simpl; [split; [discriminate | tauto]|].
    rewrite <- (IH w Hl), <- (lower_char_letter c t Ht). split.
    + intros E. now injection E.
    + intros [-> ->]. reflexivity.
Qed.

Lemma device_tokens_lower : Forall lower_letters device_tokens.
Proof.
  unfold device_tokens, lower_letters.
  repeat first
    [ apply List.Forall_nil
    | apply List.Forall_cons;
      [ cbn [list_ascii_of_string];
        repeat first
          [ apply List.Forall_nil
          | apply List.Forall_cons; [cbv; split; intro; discriminate|] ] |] ].
Qed.

(** C6. The classifier answers [mobile] exactly when one of the tokens
    mobile, android, iphone, ipad, ipod occurs in the user agent, letter
    case ignored, and [desktop] otherwise.  It is a total function; the
    empty string is [desktop] and MOBILE-X is [mobile]. *)
Theorem detectDeviceType_spec :
  (forall ua : string,
      (detectDeviceType (Some ua) = mobile
       <-> exists tok, In tok device_tokens /\ occurs_ci tok ua)
      /\ (detectDeviceType (Some ua) = desktop
          <-> ~ exists tok, In tok device_tokens /\ occurs_ci tok ua))
  /\ detectDeviceType (Some "") = desktop
  /\ detectDeviceType None = desktop
  /\ detectDeviceType (Some "MOBILE-X") = mobile
  /\ detectDeviceType (Some "Mozilla/5.0 (iPhone; CPU iPhone OS 17_0 like Mac OS X)") = mobile
  /\ detectDeviceType (Some "Mozilla/5.0 (Windows NT 10.0; Win64; x64)") = desktop.
Proof.
  split; [|repeat split; reflexivity].
  intros ua.
  assert (Hm : Str.test_alternation device_tokens (Str.toLowerCase ua) = true
               <-> exists tok, In tok device_tokens /\ occurs_ci tok ua).
  { rewrite test_alternation_spec. split.
    - intros (a & pre & post & Ha & E). exists a. split; [assumption|].
      apply toLowerCase_app_inv in E as (s1 & s2 & -> & _ & E).
      apply toLowerCase_app_inv in E as (w & s3 & -> & Hw & _).
      exists s1, w, s3. split; [reflexivity|].
      apply toLowerCase_word; [|assumption].
      pose proof device_tokens_lower as Hl. rewrite Forall_forall in Hl.
      apply Hl. now apply list_elem_of_In.
    - intros (tok & Ht & pre & w & post & -> & Hw). 
      exists tok, (Str.toLowerCase pre), (Str.toLowerCase post). split; [assumption|].
      rewrite !toLowerCase_app. f_equal. f_equal.
      apply toLowerCase_word; [|assumption].
      pose proof device_tokens_lower as Hl. rewrite Forall_forall in Hl.
      apply Hl. now apply list_elem_of_In. }
  unfold detectDeviceType. simpl.
  destruct (Str.test_alternation device_tokens (Str.toLowerCase ua)) eqn:E.
  - split; split; auto; try discriminate.
    + intros _. now apply Hm.
    + intros Hn. exfalso. apply Hn. now apply Hm.
  - split; split; auto; try discriminate.
    + intros Hex. apply Hm in Hex. discriminate.
    + intros _ Hex. apply Hm in Hex. discriminate.
Qed.

(** ** Sorting *)

Section sort_props.
Context {A : Type} (comparefn : A -> A -> completion (option Z)) (key : A -> Date).

#[local] Abbreviation keyed_on := (keyed_on comparefn key).

Lemma keyed_on_cons x l : keyed_on (x :: l) -> keyed_on l.
Proof. intros Hk a b Ha Hb. apply Hk; now apply list_elem_of_further. Qed.

Lemma keyed_on_perm l l' : l ≡ₚ l' -> keyed_on l -> keyed_on l'.
Proof. intros Hp Hk a b Ha Hb. apply Hk; now rewrite Hp. Qed.

Lemma sort_insert_split x l :
  (forall y, y ∈ l -> comparefn x y = Normal (date_sub (key y) (key x))) ->
  exists pre post,
    l = pre ++ post
    /\ sort_insert comparefn x l = Normal (pre ++ x :: post)
    /\ Forall (fun y => 0 < default 0 (date_sub (key y) (key x))) pre
    /\ (forall y, head post = Some y -> default 0 (date_sub (key y) (key x)) <= 0).
Proof.
  induction l as [|y l IH]; intros Hc.
  - exists [], []. repeat split; [constructor | discriminate].
  - assert (Hy : comparefn x y = Normal (date_sub (key y) (key x)))
      by (apply Hc; left).
    cbn [sort_insert]. unfold SortCompare. rewrite Hy. cbn.
    destruct (Z.leb_spec (default 0 (date_sub (key y) (key x))) 0) as [Hle|Hgt].
    + exists [], (y :: l). repeat split; [constructor|].
      intros y' [= <-]. exact Hle.
    + destruct IH as (pre & post & -> & -> & Hpre & Hpost).
      { intros z Hz. apply Hc. now right. }
      exists (y :: pre), post. repeat split; [now constructor | assumption].
Qed.

Lemma filter_key_insert k x pre post :
  Forall (fun y => 0 < default 0 (date_sub (key y) (key x))) pre ->
  filter (fun a => key a = k) (pre ++ x :: post)
  = filter (fun a => key a = k) (x :: pre ++ post).
Proof.
  intros Hpre. rewrite filter_app, !filter_cons, filter_app.
  destruct (decide (key x = k)) as [E|E]; [|reflexivity].
  assert (filter (fun a => key a = k) pre = []) as ->; [|reflexivity].
  induction Hpre as [|y pre Hy _ IH]; [reflexivity|].
  rewrite filter_cons, IH. destruct (decide (key y = k)) as [E'|]; [|reflexivity].
  exfalso. rewrite E', <- E in Hy.
  destruct (key x); cbn in Hy; lia.
Qed.

Lemma sorted_insert_middle (R : A -> A -> Prop) pre x post :
  StronglySorted R (pre ++ post) ->
  Forall (fun p => R p x) pre ->
  Forall (R x) post ->
  StronglySorted R (pre ++ x :: post).
Proof.
  induction pre as [|p pre IH]; cbn; intros Hs Hpre Hpost.
  - now constructor.
  - apply StronglySorted_inv in Hs as [Hs Hp].
    apply Forall_cons in Hpre as [Hpx Hpre].
    constructor; [now apply IH|].
    apply Forall_app in Hp as [Hp1 Hp2].
    apply Forall_app. split; [assumption | now constructor].
Qed.

(** The sort returns; its result is a permutation of its argument,
    keeps the elements of equal key in their order, and has the newest
    key first when every key is a valid date. *)
Lemma js_sort_spec l :
  keyed_on l ->
  exists r,
    js_sort comparefn l = Normal r
    /\ r ≡ₚ l
    /\ (forall k, filter (fun a => key a = k) r = filter (fun a => key a = k) l)
    /\ (Forall (fun a => is_Some (key a)) l ->
        StronglySorted (fun a b => newer_or_equal (key a) (key b)) r).
Proof.
  induction l as [|x l IH]; intros Hk.
  - exists []. repeat split; constructor.
  - destruct (IH (keyed_on_cons _ _ Hk)) as (s & Hs & Hperm & Hstable & Hsorted).
    destruct (sort_insert_split x s) as (pre & post & -> & Hins & Hpre & Hpost).
    { intros y Hy. apply Hk; [left | right; now rewrite <- Hperm]. }
    exists (pre ++ x :: post). cbn [js_sort]. rewrite Hs. cbn. rewrite Hins.
    repeat split.
    + now rewrite <- Permutation_middle, Hperm.
    + intros k. rewrite (filter_key_insert k x pre post Hpre).
      rewrite !(filter_cons _ x), Hstable. reflexivity.
    + intros Hvalid. apply Forall_cons in Hvalid as [[tx Hx] Hvalid].
      specialize (Hsorted Hvalid).
      assert (Hall : Forall (fun a => is_Some (key a)) (pre ++ post))
        by now rewrite Hperm.
      apply Forall_app in Hall as [Hvpre Hvpost].
      apply sorted_insert_middle; [assumption| |].
      * clear -Hpre Hvpre Hx. induction Hpre as [|p pre Hp _ IHp]; [constructor|].
        apply Forall_cons in Hvpre as [[tp Htp] Hvpre].
        constructor; [|now apply IHp].
        rewrite Htp, Hx in *. cbn in *. lia.
      * apply StronglySorted_app_1_r in Hsorted as Hspost.
        destruct post as [|y0 post]; [constructor|].
        specialize (Hpost y0 eq_refl).
        apply Forall_cons in Hvpost as [[t0 H0] Hvpost].
        apply StronglySorted_inv in Hspost as [_ Hy0].
        rewrite Hx, H0 in Hpost. cbn in Hpost.
        constructor; [rewrite Hx, H0; cbn; lia|].
        eapply Forall_impl; [exact Hy0|]. intros b Hb. cbn in Hb.
        rewrite H0 in Hb. rewrite Hx. destruct (key b); cbn in *; [lia | assumption].
Qed.
End sort_props.

(** ** The store *)

Lemma Z_of_string_of_Z (z : Z) : Redis.Z_of_string (Redis.string_of_Z z) = Some z.
Proof.
  unfold Redis.Z_of_string, Redis.string_of_Z.
  rewrite DecimalString.NilZero.isi.
  - rewrite DecimalZ.of_to. now rewrite String.eqb_refl.
  - destruct z; cbn; try discriminate.
    intros [= E]. now apply DecimalPos.Unsigned.to_uint_nonnil in E.
  - destruct z; cbn; try discriminate.
    intros [= E]. now apply DecimalPos.Unsigned.to_uint_nonnil in E.
Qed.

Lemma link_key_inj (a b : string) : "link:" +:+ a = "link:" +:+ b -> a = b.
Proof. apply append_inv_head. Qed.

Lemma visits_key_inj (a b : string) : "visits:" +:+ a = "visits:" +:+ b -> a = b.
Proof. apply append_inv_head. Qed.

Lemma link_exists_hash st id :
  link_exists st id = true -> exists h, hashes st !! ("link:" +:+ id) = Some h.
Proof.
  unfold link_exists, Redis.hGetAll.
  destruct (hashes st !! ("link:" +:+ id)) as [h|]; [now exists h|].
  cbn. rewrite lookup_empty. discriminate.
Qed.


(** ** The redirect route *)

Section redirect_props.
Context `{Platform}.

Lemma redirect_found st req now n :
  Str.startsWith "/api" (path req) = false ->
  link_exists st (params_id req) = true ->
  stored_visitCount st (params_id req) = Some n ->
  redirect st req now
  = (Redirect (Redis.hGetAll st ("link:" +:+ params_id req) !! "originalUrl"),
     visited st (params_id req) n
       (JSON.stringify_visit (recorded_visit (or_else (user_agent req) "") now))).
Proof.
  intros Hp He Hn. unfold redirect. rewrite Hp.
  unfold link_exists in He. apply negb_true_iff in He. rewrite He.
  unfold Redis.hIncrBy. unfold stored_visitCount in Hn.
  destruct (Redis.hGetAll st ("link:" +:+ params_id req) !! "visitCount") as [s|];
    [rewrite Hn | injection Hn as <-]; reflexivity.
Qed.


Lemma redirect_not_found st req now :
  link_exists st (params_id req) = false -> redirect st req now = (Next, st).
Proof.
  intros He. unfold redirect.
  destruct (Str.startsWith "/api" (path req)); [reflexivity|].
  unfold link_exists in He. apply negb_false_iff in He. now rewrite He.
Qed.

Lemma visited_count st id n entry :
  stored_visitCount (visited st id n entry) id = Some (n + 1).
Proof.
  unfold stored_visitCount, Redis.hGetAll, visited. cbn.
  rewrite lookup_insert_eq. cbn. rewrite lookup_insert_eq.
  apply Z_of_string_of_Z.
Qed.

Lemma visited_log st id n entry :
  visit_log (visited st id n entry) id = visit_log st id ++ [entry].
Proof.
  unfold visit_log at 1, Redis.lRange_all, visited. cbn.
  now rewrite lookup_insert_eq.
Qed.


Lemma visited_other_hash st id n entry id' :
  id' <> id ->
  hashes (visited st id n entry) !! ("link:" +:+ id') = hashes st !! ("link:" +:+ id').
Proof.
  intros Hne. unfold visited. cbn. rewrite lookup_insert_ne; [reflexivity|].
  intros E. apply link_key_inj in E. congruence.
Qed.

Lemma visited_other_log st id n entry id' :
  id' <> id -> visit_log (visited st id n entry) id' = visit_log st id'.
Proof.
  intros Hne. unfold visit_log, Redis.lRange_all, visited. cbn.
  rewrite lookup_insert_ne; [reflexivity|].
  intros E. apply visits_key_inj in E. congruence.
Qed.

(** C7. When the identifier resolves to no link, the redirect route
    answers with [next()], whatever the user agent, and the store is
    left exactly as it was: no visit is appended, no counter changes. *)
Theorem redirect_unknown_link (st : Store) (req : Request) (now : Z) :
  link_exists st (params_id req) = false ->
  redirect st req now = (Next, st).
Proof. apply redirect_not_found. Qed.

End redirect_props.

(** ** Creating links *)

Section create_props.
Context `{Platform}.

Lemma includes_false (p : string) :
  p <> "http:" -> p <> "https:" -> includes ["http:"; "https:"] p = false.
Proof.
  intros H1 H2. unfold includes. cbn.
  apply String.eqb_neq in H1, H2. now rewrite H1, H2.
Qed.

(** C5, amended. When the URL does not parse, or parses with a scheme
    other than http and https, the create route answers with status
    400 and returns the store it was given: nothing is written before
    the failure.  The status is the same in both cases and the message
    is not: a text that does not parse is answered with "Invalid URL
    provided.", a scheme other than http and https with "Only http(s)
    URLs are allowed.". *)
Theorem create_rejects_invalid_url (st : Store) (url id : string) (now : Z) :
  URL_protocol url = None
  \/ (exists p, URL_protocol url = Some p /\ p <> "http:" /\ p <> "https:") ->
  status_of (fst (create st url id now)) = Some 400
  /\ snd (create st url id now) = st
  /\ (forall id', link_exists (snd (create st url id now)) id' = link_exists st id')
  /\ (URL_protocol url = None ->
      fst (create st url id now) = SendStatus 400 "Invalid URL provided.")
  /\ (forall p, URL_protocol url = Some p ->
      fst (create st url id now) = SendStatus 400 "Only http(s) URLs are allowed.").
Proof.
  intros [E | (p & E & H1 & H2)]; unfold create; rewrite E.
  - repeat split. intros p Hp. discriminate.
  - rewrite (includes_false p H1 H2). repeat split. intros Hn. discriminate.
Qed.

Lemma create_cases st url id now :
  (exists body, create st url id now = (SendStatus 400 body, st))
  \/ (exists l, create st url id now = (SendLink l, created st url id now)).
Proof.
  unfold create. destruct (URL_protocol url) as [p|]; [|left; eauto].
  destruct (includes ["http:"; "https:"] p); cbn [negb];
  [right | left]; eexists; reflexivity.
Qed.

Lemma created_hash st url id now :
  is_Some (hashes (created st url id now) !! ("link:" +:+ id)).
Proof. unfold created, Redis.sAdd, Redis.hSet. cbn. rewrite lookup_insert_eq. eauto. Qed.

Lemma created_count st url id now :
  hashes st !! ("link:" +:+ id) = None ->
  stored_visitCount (created st url id now) id = Some 0.
Proof.
  intros Hf.
  unfold stored_visitCount, Redis.hGetAll, created, Redis.sAdd, Redis.hSet. cbn [hashes].
  rewrite lookup_insert_eq. cbn [default].
  unfold Redis.hGetAll. rewrite Hf. cbn [default]. unfold Datatypes.id.
  rewrite (right_id_L ∅ (∪)). cbn.
  do 3 (rewrite lookup_insert_ne by discriminate).
  rewrite lookup_insert_eq. reflexivity.
Qed.

Lemma created_log st url id now id' :
  visit_log (created st url id now) id' = visit_log st id'.
Proof. reflexivity. Qed.

Lemma created_other_hash st url id now id' :
  id' <> id ->
  hashes (created st url id now) !! ("link:" +:+ id') = hashes st !! ("link:" +:+ id').
Proof.
  intros Hne. unfold created, Redis.sAdd, Redis.hSet. cbn [hashes].
  rewrite lookup_insert_ne; [reflexivity|].
  intros E. apply link_key_inj in E. congruence.
Qed.
End create_props.

(** ** The visit log and the counter *)

Section invariant.
Context `{Platform}.

Lemma consistent_empty : consistent empty_store.
Proof.
  intros id. unfold empty_store, visit_log, Redis.lRange_all. cbn.
  now rewrite !lookup_empty.
Qed.

Lemma generated_id_created st url id now l :
  create st url id now = (SendLink l, created st url id now) ->
  generated_id st (Create url id now) = Some id.
Proof. intros E. unfold generated_id. now rewrite E. Qed.

Lemma step_consistent st op :
  consistent st -> fresh_ids st [op] -> consistent (snd (step st op)).
Proof.
  intros Hc [Hfresh _]. destruct op as [url id now | req now]; cbn [step].
  - destruct (create_cases st url id now) as [[body ->] | [l E]]; [exact Hc|].
    rewrite (generated_id_created _ _ _ _ _ E) in Hfresh. rewrite E.
    cbn [snd]. intros id'. pose proof (Hc id') as Hid'.
    destruct (decide (id' = id)) as [->|Hne].
    + rewrite Hfresh in Hid'.
      destruct (created_hash st url id now) as [h ->].
      now rewrite created_count, created_log, Hid'.
    + rewrite created_other_hash, created_log by assumption.
      destruct (hashes st !! ("link:" +:+ id')); [|exact Hid'].
      unfold stored_visitCount, Redis.hGetAll.
      rewrite created_other_hash by assumption. exact Hid'.
  - destruct (link_exists st (params_id req)) eqn:He;
      [|now rewrite redirect_not_found].
    destruct (Str.startsWith "/api" (path req)) eqn:Hp.
    { unfold redirect. now rewrite Hp. }
    pose proof (Hc (params_id req)) as Hid.
    destruct (link_exists_hash _ _ He) as [h Hh]. rewrite Hh in Hid.
    rewrite (redirect_found st req now _ Hp He Hid). cbn [snd].
    intros id'. destruct (decide (id' = params_id req)) as [->|Hne].
    + unfold visited at 1. cbn [hashes]. rewrite lookup_insert_eq.
      rewrite visited_count, visited_log, length_app. cbn. f_equal. lia.
    + rewrite visited_other_hash, visited_other_log by assumption.
      pose proof (Hc id') as Hid'.
      destruct (hashes st !! ("link:" +:+ id')); [|exact Hid'].
      unfold stored_visitCount, Redis.hGetAll.
      rewrite visited_other_hash by assumption. exact Hid'.
Qed.

Lemma run_consistent st ops :
  consistent st -> fresh_ids st ops -> consistent (run st ops).
Proof.
  revert st; induction ops as [|op ops IH]; intros st Hc Hf; [exact Hc|].
  destruct Hf as [Hf1 Hf2]. cbn [run]. apply IH; [|exact Hf2].
  apply step_consistent; [exact Hc | now split].
Qed.

(** From the empty store, after any sequence of operations in which the
    generated identifiers are new, the counter of every existing link
    equals the length of its visit log, and every further operation
    keeps it so. *)
Lemma counter_follows_log (ops : list Op) :
  fresh_ids empty_store ops ->
  let st := run empty_store ops in
  (forall id, link_exists st id = true ->
              stored_visitCount st id = Some (Z.of_nat (length (visit_log st id))))
  /\ forall op, fresh_ids st [op] ->
       let r := fst (step st op) in
       let st' := snd (step st op) in
       (forall url id now l, op = Create url id now -> r = SendLink l ->
          stored_visitCount st' id = Some 0 /\ visit_log st' id = [])
       /\ (forall req now u, op = RecordVisit req now -> r = Redirect u ->
             stored_visitCount st' (params_id req)
             = Some (Z.of_nat (length (visit_log st (params_id req))) + 1)
             /\ exists entry,
                 visit_log st' (params_id req) = visit_log st (params_id req) ++ [entry])
       /\ (forall id, link_exists st id = true ->
             exists n n', stored_visitCount st id = Some n
                          /\ stored_visitCount st' id = Some n'
                          /\ 0 <= n <= n' /\ n' <= n + 1).
Proof.
  intros Hf st.
  assert (Hc : consistent st) by (apply run_consistent; [apply consistent_empty | exact Hf]).
  assert (Hcount : forall id, link_exists st id = true ->
            stored_visitCount st id = Some (Z.of_nat (length (visit_log st id)))).
  { intros id He. pose proof (Hc id) as Hid.
    destruct (link_exists_hash _ _ He) as [h Hh]. now rewrite Hh in Hid. }
  split; [exact Hcount|].
  intros op Hop r st'.
  assert (Hc' : consistent st') by now apply step_consistent.
  subst r st'. repeat split.
  - destruct Hop as [Hfresh _]. subst op. cbn [step] in *.
    destruct (create_cases st url id now) as [[body E] | [l' E]];
      rewrite E in *; [discriminate|].
    rewrite (generated_id_created _ _ _ _ _ E) in Hfresh.
    now apply created_count.
  - destruct Hop as [Hfresh _]. subst op. cbn [step] in *.
    destruct (create_cases st url id now) as [[body E] | [l' E]];
      rewrite E in *; [discriminate|].
    rewrite (generated_id_created _ _ _ _ _ E) in Hfresh.
    pose proof (Hc id) as Hid. rewrite Hfresh in Hid. exact Hid.
  - subst op. cbn [step] in *.
    destruct (link_exists st (params_id req)) eqn:He;
      [|rewrite redirect_not_found in * by assumption; discriminate].
    destruct (Str.startsWith "/api" (path req)) eqn:Hp.
    { unfold redirect in *. rewrite Hp in *. discriminate. }
    rewrite (redirect_found st req now _ Hp He (Hcount _ He)). cbn [snd].
    apply visited_count.
  - subst op. cbn [step] in *.
    destruct (link_exists st (params_id req)) eqn:He;
      [|rewrite redirect_not_found in * by assumption; discriminate].
    destruct (Str.startsWith "/api" (path req)) eqn:Hp.
    { unfold redirect in *. rewrite Hp in *. discriminate. }
    rewrite (redirect_found st req now _ Hp He (Hcount _ He)). cbn [snd].
    eexists. apply visited_log.
  - intros id He. exists (Z.of_nat (length (visit_log st id))).
    rewrite (Hcount id He).
    destruct (link_exists_hash _ _ He) as [h Hh].
    destruct op as [url id0 now | req now]; cbn [step] in *.
    + destruct Hop as [Hfresh _].
      destruct (create_cases st url id0 now) as [[body E] | [l' E]]; rewrite E; cbn [snd].
      * rewrite (Hcount id He). eexists. repeat split; lia.
      * rewrite (generated_id_created _ _ _ _ _ E) in Hfresh.
        assert (Hne : id <> id0) by (intros ->; congruence).
        exists (Z.of_nat (length (visit_log st id))). repeat split; try lia.
        unfold stored_visitCount, Redis.hGetAll.
        rewrite created_other_hash by assumption.
        apply (Hcount id He).
    + destruct (link_exists st (params_id req)) eqn:He'.
      2:{ rewrite redirect_not_found by assumption. cbn [snd].
          rewrite (Hcount id He). eexists. repeat split; lia. }
      destruct (Str.startsWith "/api" (path req)) eqn:Hp.
      { unfold redirect. rewrite Hp. cbn [snd].
        rewrite (Hcount id He). eexists. repeat split; lia. }
      rewrite (redirect_found st req now _ Hp He' (Hcount _ He')). cbn [snd].
      destruct (decide (id = params_id req)) as [->|Hne].
      * rewrite visited_count. eexists. repeat split; lia.
      * unfold stored_visitCount, Redis.hGetAll.
        rewrite visited_other_hash by assumption.
        fold (Redis.hGetAll st ("link:" +:+ id)). fold (stored_visitCount st id).
        rewrite (Hcount id He). eexists. repeat split; lia.
Qed.
End invariant.

(** ** Listing links *)

Section list_props.
Context `{Platform}.

Lemma elem_of_filter_Boolean {A} (l : list (option A)) (x : A) :
  x ∈ filter_Boolean l <-> Some x ∈ l.
Proof.
  unfold filter_Boolean. rewrite list_elem_of_omap. split.
  - intros (o & Ho & E). now subst.
  - intros Hx. now exists (Some x).
Qed.

Lemma elem_of_map {A B} (f : A -> B) (l : list A) (y : B) :
  y ∈ map f l <-> exists x, y = f x /\ x ∈ l.
Proof.
  rewrite list_elem_of_In, in_map_iff. split; intros (x & Hx & Hin); exists x.
  - now rewrite list_elem_of_In.
  - now rewrite <- list_elem_of_In.
Qed.

Lemma by_createdAt_keyed l : keyed_on by_createdAt created_date l.
Proof. intros a b _ _. reflexivity. Qed.

(** The links that the list route fetches, in the order of the reply
    to SMEMBERS. *)
Lemma list_links_spec st ids :
  exists ls,
    list_links st ids = SendLinks ls
    /\ ls ≡ₚ filter_Boolean (map (fetch_link st) ids)
    /\ (forall k, filter (fun a => created_date a = k) ls
                  = filter (fun a => created_date a = k)
                           (filter_Boolean (map (fetch_link st) ids)))
    /\ (Forall (fun a => is_Some (created_date a))
               (filter_Boolean (map (fetch_link st) ids)) ->
        StronglySorted (fun a b => newer_or_equal (created_date a) (created_date b)) ls).
Proof.
  destruct (js_sort_spec by_createdAt created_date
              (filter_Boolean (map (fetch_link st) ids)) (by_createdAt_keyed _))
    as (r & Hr & Hperm & Hstable & Hsorted).
  exists r. unfold list_links. rewrite Hr. auto.
Qed.

Lemma fetch_link_dangling st d : dangling st d -> fetch_link st d = None.
Proof.
  unfold dangling, fetch_link, Redis.hGetAll. intros Hd.
  destruct (hashes st !! ("link:" +:+ d)) as [h|]; cbn.
  - now rewrite Hd.
  - now rewrite lookup_empty.
Qed.

Lemma filter_Boolean_app {A} (l1 l2 : list (option A)) :
  filter_Boolean (l1 ++ l2) = filter_Boolean l1 ++ filter_Boolean l2.
Proof. apply omap_app. Qed.

Lemma fetch_link_exists st i :
  link_exists st i = true ->
  fetch_link st i = Some (link_of_data i (Redis.hGetAll st ("link:" +:+ i))).
Proof.
  unfold link_exists, fetch_link. intros He. apply negb_true_iff in He. now rewrite He.
Qed.

Lemma fetch_link_missing st i : link_exists st i <> true -> fetch_link st i = None.
Proof.
  unfold link_exists, fetch_link. intros He.
  destruct (falsy (Redis.hGetAll st ("link:" +:+ i) !! "id")); [reflexivity|].
  now contradiction He.
Qed.

Lemma fetched_length st ids :
  length (filter_Boolean (map (fetch_link st) ids))
  = length (filter (fun i => link_exists st i = true) ids).
Proof.
  induction ids as [|i ids IH]; [reflexivity|].
  change (filter_Boolean (map (fetch_link st) (i :: ids)))
    with (match fetch_link st i with
          | Some x => x :: filter_Boolean (map (fetch_link st) ids)
          | None => filter_Boolean (map (fetch_link st) ids)
          end).
  rewrite filter_cons.
  destruct (decide (link_exists st i = true)) as [He|He].
  - rewrite (fetch_link_exists st i He). cbn [length]. now rewrite IH.
  - rewrite (fetch_link_missing st i He). exact IH.
Qed.

(** C10. An identifier of the index whose hash is missing, or has no
    [id] field, contributes nothing to the list: the route answers as
    if the identifier were not in the index, and the answer is the
    successful response that carries the links of the other
    identifiers.  Every other identifier whose hash has an [id] that is
    not empty has its link in the answer, with the fields of its hash,
    and the answer has as many links as there are such identifiers. *)
Theorem list_links_skips_dangling (st : Store) (l1 l2 : list string) (d : string) :
  dangling st d ->
  exists ls,
    list_links st (l1 ++ d :: l2) = SendLinks ls
    /\ list_links st (l1 ++ l2) = SendLinks ls
    /\ status_of (list_links st (l1 ++ d :: l2)) = Some 200
    /\ (forall l, l ∈ ls <-> exists i, i ∈ l1 ++ l2 /\ fetch_link st i = Some l)
    /\ length ls = length (filter (fun i => link_exists st i = true) (l1 ++ l2))
    /\ link_exists st d = false
    /\ (forall i, i ∈ l1 ++ l2 -> link_exists st i = true ->
        exists l,
          l ∈ ls
          /\ Some (Link.id l) = Redis.hGetAll st ("link:" +:+ i) !! "id"
          /\ Link.id l <> ""
          /\ Link.originalUrl l = Redis.hGetAll st ("link:" +:+ i) !! "originalUrl"
          /\ Link.createdAt l = Redis.hGetAll st ("link:" +:+ i) !! "createdAt"
          /\ Link.visitCount l
             = Number_or_zero (Redis.hGetAll st ("link:" +:+ i) !! "visitCount")
          /\ Link.shortUrl l
             = or_else (Redis.hGetAll st ("link:" +:+ i) !! "shortUrl")
                       (BASE_URL +:+ "/" +:+ i)).
Proof.
  intros Hd.
  assert (E : filter_Boolean (map (fetch_link st) (l1 ++ d :: l2))
              = filter_Boolean (map (fetch_link st) (l1 ++ l2))).
  { rewrite !map_app, !filter_Boolean_app. cbn [map].
    unfold filter_Boolean at 2. cbn [omap]. now rewrite (fetch_link_dangling st d Hd). }
  destruct (list_links_spec st (l1 ++ l2)) as (ls & Hls & Hperm & _).
  exists ls.
  assert (E' : list_links st (l1 ++ d :: l2) = SendLinks ls).
  { unfold list_links in *. now rewrite E. }
  rewrite E'.
  split; [reflexivity|]. split; [exact Hls|]. split; [reflexivity|].
  split; [|split; [|split]].
  - intros l. split.
    + intros Hl. rewrite Hperm in Hl. apply elem_of_filter_Boolean in Hl.
      apply elem_of_map in Hl as (i & Hi & Hin). eauto.
    + intros (i & Hin & Hi). rewrite Hperm. apply elem_of_filter_Boolean.
      apply elem_of_map. eauto.
  - rewrite Hperm. apply fetched_length.
  - pose proof (fetch_link_dangling st d Hd) as Hf. unfold fetch_link in Hf.
    unfold link_exists.
    now destruct (falsy (Redis.hGetAll st ("link:" +:+ d) !! "id")).
  - intros i Hin He.
    exists (link_of_data i (Redis.hGetAll st ("link:" +:+ i))). split.
    { rewrite Hperm. apply elem_of_filter_Boolean, elem_of_map.
      exists i. split; [|exact Hin]. symmetry. now apply fetch_link_exists. }
    unfold link_exists in He. apply negb_true_iff in He.
    unfold link_of_data. cbn [Link.id Link.originalUrl Link.createdAt
                              Link.visitCount Link.shortUrl].
    destruct (Redis.hGetAll st ("link:" +:+ i) !! "id") as [s|]; [|discriminate].
    cbn [falsy default from_option] in *. unfold Datatypes.id.
    apply String.eqb_neq in He. repeat split. exact He.
Qed.

(** C4, amended. The list route answers with all the links of the
    index that have a record, each once.  When their creation dates
    are valid the most recent comes first, and links created at the
    same instant keep the order in which the reply to SMEMBERS names
    them.  When the index is empty the answer is the empty list. *)
Theorem list_links_sorted (st : Store) (ids : list string) :
  Redis.sMembers st linksSetKey ids ->
  Forall (fun a => is_Some (created_date a)) (filter_Boolean (map (fetch_link st) ids)) ->
  exists ls,
    list_links st ids = SendLinks ls
    /\ ls ≡ₚ filter_Boolean (map (fetch_link st) ids)
    /\ (forall l, l ∈ ls <->
          exists i, i ∈ default ∅ (sets st !! linksSetKey) /\ fetch_link st i = Some l)
    /\ StronglySorted (fun a b => newer_or_equal (created_date a) (created_date b)) ls
    /\ (forall k, filter (fun a => created_date a = k) ls
                  = filter (fun a => created_date a = k)
                           (filter_Boolean (map (fetch_link st) ids)))
    /\ (sets st !! linksSetKey = None -> ls = []).
Proof.
  intros [Hnd Hmem] Hvalid.
  destruct (list_links_spec st ids) as (ls & Hls & Hperm & Hstable & Hsorted).
  exists ls. repeat split; auto.
  - intros Hl. rewrite Hperm in Hl. apply elem_of_filter_Boolean in Hl.
    apply elem_of_map in Hl as (i & Hi & Hin). exists i. split; [now apply Hmem | auto].
  - intros (i & Hin & Hi). rewrite Hperm. apply elem_of_filter_Boolean.
    apply elem_of_map. exists i. split; [auto | now apply Hmem].
  - intros Hnone. rewrite Hnone in Hmem. cbn in Hmem.
    destruct ids as [|i ids].
    + cbn in Hperm. now apply Permutation_nil_r in Hperm.
    + exfalso. specialize (proj1 (Hmem i) ltac:(left)). set_solver.
Qed.
End list_props.

(** ** Stats queries *)

Section stats_props.
Context `{Platform}.

Lemma filterM_normal {A} (f : A -> completion bool) (g : A -> bool) (l : list A) :
  Forall (fun x => f x = Normal (g x)) l -> filterM f l = Normal (List.filter g l).
Proof.
  induction 1 as [|x l Hx _ IH]; [reflexivity|].
  cbn [filterM List.filter]. rewrite Hx, IH. reflexivity.
Qed.

Lemma filter_bool_decide {A} (P : A -> Prop) `{forall x, Decision (P x)} (l : list A) :
  List.filter (fun x => bool_decide (P x)) l = filter P l.
Proof.
  induction l as [|x l IH]; [reflexivity|].
  cbn [List.filter]. rewrite filter_cons, IH.
  destruct (decide (P x)) as [Hp|Hp].
  - now rewrite bool_decide_true.
  - now rewrite bool_decide_false.
Qed.

Lemma TimeClip_clipped t : clipped (TimeClip t).
Proof.
  unfold TimeClip. destruct t as [z|]; [|exact I].
  destruct (Z.leb_spec (Z.abs z) 8640000000000000); cbn; [assumption | exact I].
Qed.

Lemma new_Date_clipped x d : new_Date x = Normal d -> clipped d.
Proof.
  unfold new_Date. destruct x as [[| b | n | s | items | props]|]; cbn;
    try (destruct (Date_value _); cbn; [|discriminate]);
    intros [= <-]; try apply TimeClip_clipped; try exact I.
  - cbn. lia.
  - destruct b; cbn; lia.
Qed.

Lemma query_date_clipped q d : query_date q = Some d -> clipped d.
Proof.
  unfold query_date. destruct (falsy q); [discriminate|]. intros [= <-].
  destruct q; [apply TimeClip_clipped | exact I].
Qed.

(** The callback of the date filter decides the window. *)
Lemma in_range_window start end_ v ts :
  visit_date v = Normal ts ->
  (forall e, end_ = Some e -> clipped e) ->
  in_range start end_ v = Normal (bool_decide (in_window start end_ ts)).
Proof.
  intros Hv He. unfold in_range. rewrite Hv. cbn. f_equal.
  assert (Hts : clipped ts) by (eapply new_Date_clipped; exact Hv).
  symmetry.
  assert (Hs : forall s, date_lt ts s = true <-> before ts s).
  { intros s. unfold date_lt, before.
    destruct ts, s; try (split; [discriminate | tauto]). apply Z.ltb_lt. }
  assert (Hg : forall e, clipped e -> date_gt ts (date_plus e msPerDay) = true <-> after_day ts e).
  { intros e Hce. unfold date_gt, after_day.
    destruct ts as [t|].
    2:{ destruct (date_plus e msPerDay); cbn; (split; [discriminate | tauto]). }
    destruct e as [b|]; [|cbn; (split; [discriminate | tauto])].
    cbn in Hts, Hce. unfold date_plus, TimeClip, msPerDay.
    destruct (Z.leb_spec (Z.abs (b + 24 * 60 * 60 * 1000)) 8640000000000000); cbn.
    - rewrite Z.ltb_lt. lia.
    - split; [discriminate | lia]. }
  destruct start as [s|], end_ as [e|]; unfold in_window.
  - destruct (date_lt ts s) eqn:E1.
    + apply bool_decide_false. intros [Hn _]. apply Hn, Hs, E1.
    + destruct (date_gt ts (date_plus e msPerDay)) eqn:E2.
      * apply bool_decide_false. intros [_ Hn]. apply Hn, Hg; eauto.
      * apply bool_decide_true. split.
        -- intros Hb. apply Hs in Hb. congruence.
        -- intros Hb. apply Hg in Hb; eauto. congruence.
  - destruct (date_lt ts s) eqn:E1.
    + apply bool_decide_false. intros [Hn _]. apply Hn, Hs, E1.
    + apply bool_decide_true. split; [|exact I].
      intros Hb. apply Hs in Hb. congruence.
  - destruct (date_gt ts (date_plus e msPerDay)) eqn:E2.
    + apply bool_decide_false. intros [_ Hn]. apply Hn, Hg; eauto.
    + apply bool_decide_true. split; [exact I|].
      intros Hb. apply Hg in Hb; eauto. congruence.
  - now apply bool_decide_true.
Qed.

Lemma visit_date_or_invalid v :
  visit_date v <> Throw -> visit_date v = Normal (date_or_invalid v).
Proof. unfold date_or_invalid. destruct (visit_date v); [reflexivity | congruence]. Qed.

Lemma by_timestamp_keyed l :
  Forall (fun v => visit_date v <> Throw) l -> keyed_on by_timestamp date_or_invalid l.
Proof.
  intros Hl a b Ha Hb. rewrite Forall_forall in Hl.
  unfold by_timestamp.
  rewrite (visit_date_or_invalid b (Hl b Hb)), (visit_date_or_invalid a (Hl a Ha)).
  reflexivity.
Qed.

(** What a stats query computes from the log when no conversion of a
    timestamp throws. *)
Lemma parsedVisits_spec visits start end_ :
  (forall e, end_ = Some e -> clipped e) ->
  Forall (fun v => visit_date v <> Throw) (decoded visits) ->
  exists vs,
    parsedVisits visits start end_ = Normal vs
    /\ vs ≡ₚ filter (fun v => in_window start end_ (date_or_invalid v)) (decoded visits)
    /\ (forall k, filter (fun v => date_or_invalid v = k) vs
                  = filter (fun v => date_or_invalid v = k)
                      (filter (fun v => in_window start end_ (date_or_invalid v))
                              (decoded visits)))
    /\ (Forall (fun v => is_Some (date_or_invalid v)) (decoded visits) ->
        StronglySorted (fun a b => newer_or_equal (date_or_invalid a) (date_or_invalid b)) vs).
Proof.
  intros Hend Hok. unfold parsedVisits. fold (decoded visits).
  rewrite (filterM_normal _ (fun v => bool_decide (in_window start end_ (date_or_invalid v)))).
  2:{ eapply Forall_impl; [exact Hok|]. intros v Hv. cbn in Hv.
      apply in_range_window; [now apply visit_date_or_invalid | exact Hend]. }
  cbn. rewrite filter_bool_decide.
  set (kept := filter _ (decoded visits)).
  assert (Hkept : Forall (fun v => visit_date v <> Throw) kept).
  { rewrite Forall_forall in *. intros v Hv. apply Hok.
    apply list_elem_of_filter in Hv. tauto. }
  destruct (js_sort_spec by_timestamp date_or_invalid kept (by_timestamp_keyed _ Hkept))
    as (r & Hr & Hperm & Hstable & Hsorted).
  exists r. repeat split; auto.
  intros Hvalid. apply Hsorted.
  rewrite Forall_forall in *. intros v Hv. apply Hvalid.
  apply list_elem_of_filter in Hv. tauto.
Qed.

Lemma stats_found st id q_start q_end :
  link_exists st id = true ->
  stats st id q_start q_end
  = match parsedVisits (visit_log st id) (query_date q_start) (query_date q_end) with
    | Normal vs => SendStats (link_of_data id (Redis.hGetAll st ("link:" +:+ id))) vs
    | Throw => Rejected
    end.
Proof.
  intros He. unfold stats. unfold link_exists in He.
  apply negb_true_iff in He. now rewrite He.
Qed.

Lemma decoded_app l1 l2 : decoded (l1 ++ l2) = decoded l1 ++ decoded l2.
Proof. unfold decoded. now rewrite map_app, List.filter_app. Qed.

Lemma decoded_skip l1 e l2 :
  ToBoolean (parse_entry e) = false -> decoded (l1 ++ e :: l2) = decoded (l1 ++ l2).
Proof.
  intros He. rewrite !decoded_app. f_equal.
  unfold decoded. cbn [map List.filter]. now rewrite He.
Qed.

Lemma parsedVisits_decoded v1 v2 start end_ :
  decoded v1 = decoded v2 -> parsedVisits v1 start end_ = parsedVisits v2 start end_.
Proof. unfold parsedVisits, decoded. now intros ->. Qed.

Lemma stats_same_link_and_log st st' id q_start q_end :
  Redis.hGetAll st' ("link:" +:+ id) = Redis.hGetAll st ("link:" +:+ id) ->
  decoded (visit_log st' id) = decoded (visit_log st id) ->
  stats st' id q_start q_end = stats st id q_start q_end.
Proof.
  intros Hh Hl. unfold stats. rewrite Hh.
  fold (visit_log st id) (visit_log st' id).
  now rewrite (parsedVisits_decoded _ _ _ _ Hl).
Qed.

Lemma elem_of_decoded v visits :
  v ∈ decoded visits <-> ToBoolean v = true /\ exists e, e ∈ visits /\ parse_entry e = v.
Proof.
  unfold decoded. rewrite list_elem_of_In, filter_In, <- list_elem_of_In, elem_of_map.
  split.
  - intros [(e & -> & He) Hb]. eauto.
  - intros [Hb (e & He & <-)]. eauto.
Qed.
End stats_props.

Lemma filter_no_bounds {A} (f : A -> Date) (l : list A) :
  filter (fun v => in_window None None (f v)) l = l.
Proof.
  induction l as [|v l IH]; [reflexivity|].
  rewrite filter_cons_True by (split; exact I). now rewrite IH.
Qed.

Section stats_entries.
Context `{Platform}.

Lemma stats_window st id q_start q_end :
  link_exists st id = true ->
  Forall (fun v => visit_date v <> Throw) (decoded (visit_log st id)) ->
  exists vs,
    stats st id q_start q_end
    = SendStats (link_of_data id (Redis.hGetAll st ("link:" +:+ id))) vs
    /\ vs ≡ₚ filter (fun v => in_window (query_date q_start) (query_date q_end)
                                        (date_or_invalid v))
                    (decoded (visit_log st id)).
Proof.
  intros He Hok.
  destruct (parsedVisits_spec (visit_log st id) (query_date q_start) (query_date q_end))
    as (vs & Hvs & Hperm & _); [apply query_date_clipped | exact Hok |].
  exists vs. rewrite (stats_found st id q_start q_end He), Hvs. auto.
Qed.

(** C8. An entry of the log that [JSON.parse] rejects is skipped on its
    own: the stats response is the one the query gives on the log
    without that entry.  When no timestamp of the remaining entries
    makes the date conversion throw, that response is a successful
    one and carries every remaining entry that parses to a truthy
    value inside the date window. *)
Theorem stats_skips_corrupt_entry (st st' : Store) (id : string)
    (q_start q_end : option string) (l1 l2 : list string) (bad : string) :
  JSON_parse bad = None ->
  link_exists st id = true ->
  Redis.hGetAll st' ("link:" +:+ id) = Redis.hGetAll st ("link:" +:+ id) ->
  visit_log st id = l1 ++ bad :: l2 ->
  visit_log st' id = l1 ++ l2 ->
  stats st id q_start q_end = stats st' id q_start q_end
  /\ (Forall (fun v => visit_date v <> Throw) (decoded (l1 ++ l2)) ->
      exists vs,
        stats st id q_start q_end
        = SendStats (link_of_data id (Redis.hGetAll st ("link:" +:+ id))) vs
        /\ forall e v,
             e ∈ l1 ++ l2 -> JSON_parse e = Some v -> ToBoolean v = true ->
             in_window (query_date q_start) (query_date q_end) (date_or_invalid v) ->
             v ∈ vs).
Proof.
  intros Hbad He Hh Hl Hl'.
  assert (Hd : decoded (visit_log st' id) = decoded (visit_log st id)).
  { rewrite Hl, Hl'. symmetry. apply decoded_skip.
    unfold parse_entry. now rewrite Hbad. }
  split; [symmetry; now apply stats_same_link_and_log|].
  intros Hok.
  destruct (stats_window st id q_start q_end He) as (vs & Hvs & Hperm).
  { now rewrite <- Hd, Hl'. }
  exists vs. split; [exact Hvs|].
  intros e v Hin Hp Hb Hw. rewrite Hperm. apply list_elem_of_filter. split; [exact Hw|].
  rewrite <- Hd, Hl'. apply elem_of_decoded. split; [exact Hb|].
  exists e. split; [exact Hin|]. unfold parse_entry. now rewrite Hp.
Qed.

(** C9. An entry of the log that is valid JSON for a falsy value is
    dropped like an entry that does not parse: the stats response is
    the one the query gives on the log without that entry, and also
    the one it gives with an unparsable entry in its place.  The falsy
    values are null, false, a number that is zero, and the empty
    string. *)
Theorem stats_drops_falsy_entry (st st' : Store) (id : string)
    (q_start q_end : option string) (l1 l2 : list string) (e : string) (v : JsVal) :
  JSON_parse e = Some v ->
  ToBoolean v = false ->
  Redis.hGetAll st' ("link:" +:+ id) = Redis.hGetAll st ("link:" +:+ id) ->
  visit_log st id = l1 ++ e :: l2 ->
  visit_log st' id = l1 ++ l2 ->
  stats st id q_start q_end = stats st' id q_start q_end
  /\ (forall bad start end_,
        JSON_parse bad = None ->
        parsedVisits (l1 ++ e :: l2) start end_ = parsedVisits (l1 ++ bad :: l2) start end_)
  /\ (v = JNull \/ v = JBool false \/ v = JStr ""
      \/ v = JNum NaN \/ exists m x, v = JNum (Dec m x) /\ rounds_to_zero m x = true).
Proof.
  intros Hp Hb Hh Hl Hl'.
  assert (He : ToBoolean (parse_entry e) = false) by (unfold parse_entry; now rewrite Hp).
  repeat split.
  - symmetry. apply stats_same_link_and_log; [exact Hh|].
    rewrite Hl, Hl'. symmetry. now apply decoded_skip.
  - intros bad start end_ Hbad. apply parsedVisits_decoded.
    rewrite decoded_skip by exact He. symmetry. apply decoded_skip.
    unfold parse_entry. now rewrite Hbad.
  - destruct v as [| b | [| neg | m x] | s | |]; cbn in Hb; try discriminate; auto.
    + destruct b; [discriminate | auto].
    + apply negb_false_iff in Hb. eauto 10.
    + apply negb_false_iff, String.eqb_eq in Hb. subst. auto.
Qed.
End stats_entries.

(** C1. On an existing link, when no timestamp of the log makes the date
    conversion throw, a stats query answers with exactly the decoded
    visits that are inside the window: with [start] given, no visit
    before [start]; with [end] given, no visit after [end] plus one day;
    each bound on its own; with neither, the whole decoded log.  On the
    reference platform a date alone is the start of that day, and for
    visits at 2024-01-01T10:00Z, 2024-01-05T23:59Z and 2024-01-10T00:01Z
    the query from 2024-01-02 to 2024-01-05 answers with the second visit
    alone, and the query up to 2024-01-05 with the second and the first. *)
Theorem stats_date_filter :
  (forall (P : Platform) (st : Store) (id : string) (q_start q_end : option string),
      link_exists st id = true ->
      Forall (fun v => visit_date v <> Throw) (decoded (visit_log st id)) ->
      exists vs,
        stats st id q_start q_end
        = SendStats (link_of_data id (Redis.hGetAll st ("link:" +:+ id))) vs
        /\ vs ≡ₚ filter (fun v => in_window (query_date q_start) (query_date q_end)
                                            (date_or_invalid v))
                        (decoded (visit_log st id))
        /\ (forall v s, v ∈ vs -> query_date q_start = Some s ->
                        ~ before (date_or_invalid v) s)
        /\ (forall v e, v ∈ vs -> query_date q_end = Some e ->
                        ~ after_day (date_or_invalid v) e)
        /\ (q_start = None -> q_end = None -> vs ≡ₚ decoded (visit_log st id)))
  /\ query_date (H := Example.platform) (Some "2024-01-02") = Some (Some 1704153600000)
  /\ query_date (H := Example.platform) (Some "2024-01-05") = Some (Some 1704412800000)
  /\ 1704153600000 mod msPerDay = 0
  /\ decoded (H := Example.platform) (visit_log Example.three_visits "k3Yq9wZ")
     = [Example.first_visit; Example.second_visit; Example.third_visit]
  /\ stats (H := Example.platform) Example.three_visits "k3Yq9wZ"
       (Some "2024-01-02") (Some "2024-01-05")
     = SendStats Example.landing [Example.second_visit]
  /\ stats (H := Example.platform) Example.three_visits "k3Yq9wZ"
       None (Some "2024-01-05")
     = SendStats Example.landing [Example.second_visit; Example.first_visit]
  /\ stats (H := Example.platform) Example.three_visits "k3Yq9wZ" None None
     = SendStats Example.landing
         [Example.third_visit; Example.second_visit; Example.first_visit].
Proof.
  split; [|repeat apply conj; vm_compute; reflexivity].
  intros P st id q_start q_end He Hok.
  destruct (stats_window st id q_start q_end He Hok) as (vs & Hvs & Hperm).
  exists vs. repeat apply conj; [exact Hvs | exact Hperm | | |].
  - intros v s Hv Hs. rewrite Hperm in Hv. apply list_elem_of_filter in Hv as [[Hw _] _].
    now rewrite Hs in Hw.
  - intros v e Hv Hq. rewrite Hperm in Hv. apply list_elem_of_filter in Hv as [[_ Hw] _].
    now rewrite Hq in Hw.
  - intros -> ->. rewrite Hperm. cbn. now rewrite filter_no_bounds.
Qed.

(** ** Concrete stores *)

(** The log of [three_visits] decodes to three visits whose timestamps
    convert without a throw. *)
Lemma three_visits_convert :
  Forall (fun v => visit_date (H := Example.platform) v <> Throw)
         (decoded (H := Example.platform) (visit_log Example.three_visits "k3Yq9wZ")).
Proof.
  assert (E : decoded (H := Example.platform) (visit_log Example.three_visits "k3Yq9wZ")
              = [Example.first_visit; Example.second_visit; Example.third_visit])
    by (vm_compute; reflexivity).
  rewrite E. repeat constructor; vm_compute; discriminate.
Qed.

(** The date filter applied to the three visits of the example. *)
Lemma stats_date_filter_witness :
  link_exists Example.three_visits "k3Yq9wZ" = true
  /\ exists vs,
      stats (H := Example.platform) Example.three_visits "k3Yq9wZ"
        (Some "2024-01-02") (Some "2024-01-05")
      = SendStats
          (link_of_data (H := Example.platform) "k3Yq9wZ"
             (Redis.hGetAll Example.three_visits "link:k3Yq9wZ")) vs
      /\ forall v, v ∈ vs ->
           ~ before (date_or_invalid (H := Example.platform) v) (Some 1704153600000).
Proof.
  assert (He : link_exists Example.three_visits "k3Yq9wZ" = true)
    by (vm_compute; reflexivity).
  split; [exact He|].
  destruct (proj1 stats_date_filter Example.platform Example.three_visits "k3Yq9wZ"
              (Some "2024-01-02") (Some "2024-01-05") He three_visits_convert)
    as (vs & Hvs & _ & Hstart & _).
  exists vs. split; [exact Hvs|].
  intros v Hv. apply (Hstart v (Some 1704153600000) Hv). vm_compute. reflexivity.
Defined.

(** The generator's guarantee is needed: an identifier that is generated
    twice resets the counter of its link and keeps the log. *)
Remark collision_resets_counter :
  stored_visitCount Example.collision "k3Yq9wZ" = Some 0
  /\ length (visit_log Example.collision "k3Yq9wZ") = 1%nat.
Proof. split; vm_compute; reflexivity. Qed.



(** A reply to SMEMBERS that names the second link first. *)
Lemma two_links_reply :
  Redis.sMembers Example.two_links linksSetKey ["b7Hk2Lx"; "Zq8rT1a"].
Proof.
  assert (E : sets Example.two_links !! linksSetKey
              = Some ({["b7Hk2Lx"]} ∪ ({["Zq8rT1a"]} ∪ ∅))) by reflexivity.
  split.
  - apply NoDup_cons. split; [|apply NoDup_singleton].
    rewrite list_elem_of_singleton. discriminate.
  - intros x. rewrite E. cbn. set_solver.
Qed.

(** C4, as stated, fails. [Zq8rT1a] and [b7Hk2Lx] are created in this
    order at the same instant; SMEMBERS may name [b7Hk2Lx] first, and
    the list then has the link created second before the link created
    first, not the two in the order of their creation. *)
Lemma list_links_ties_follow_reply :
  Example.two_links
  = run (H := Example.platform) empty_store
      [Create "https://example.com/a" "Zq8rT1a" 1704103200000;
       Create "https://example.com/b" "b7Hk2Lx" 1704103200000]
  /\ Redis.sMembers Example.two_links linksSetKey ["b7Hk2Lx"; "Zq8rT1a"]
  /\ Link.createdAt Example.link_a = Link.createdAt Example.link_b
  /\ list_links (H := Example.platform) Example.two_links ["b7Hk2Lx"; "Zq8rT1a"]
     = SendLinks [Example.link_b; Example.link_a]
  /\ list_links (H := Example.platform) Example.two_links ["b7Hk2Lx"; "Zq8rT1a"]
     <> SendLinks [Example.link_a; Example.link_b].
Proof.
  assert (Hl : list_links (H := Example.platform) Example.two_links ["b7Hk2Lx"; "Zq8rT1a"]
               = SendLinks [Example.link_b; Example.link_a])
    by (vm_compute; reflexivity).
  split; [reflexivity|]. split; [apply two_links_reply|].
  split; [reflexivity|]. split; [exact Hl|].
  rewrite Hl. discriminate.
Qed.

(** The two links have valid creation dates. *)
Lemma two_links_dated :
  Forall (fun a => is_Some (created_date (H := Example.platform) a))
         (filter_Boolean (map (fetch_link (H := Example.platform) Example.two_links)
                              ["b7Hk2Lx"; "Zq8rT1a"])).
Proof.
  assert (E : filter_Boolean (map (fetch_link (H := Example.platform) Example.two_links)
                                  ["b7Hk2Lx"; "Zq8rT1a"])
              = [Example.link_b; Example.link_a]) by (vm_compute; reflexivity).
  rewrite E. repeat constructor; vm_compute; eauto.
Qed.

(** The list of the two links, from a reply that names the second first. *)
Lemma list_links_sorted_witness :
  Redis.sMembers Example.two_links linksSetKey ["b7Hk2Lx"; "Zq8rT1a"]
  /\ exists ls,
      list_links (H := Example.platform) Example.two_links ["b7Hk2Lx"; "Zq8rT1a"]
      = SendLinks ls
      /\ StronglySorted
           (fun a b => newer_or_equal (created_date (H := Example.platform) a)
                                      (created_date (H := Example.platform) b)) ls.
Proof.
  split; [apply two_links_reply|].
  destruct (list_links_sorted (H := Example.platform) Example.two_links
              ["b7Hk2Lx"; "Zq8rT1a"] two_links_reply two_links_dated)
    as (ls & Hls & _ & _ & Hsorted & _).
  exists ls. split; assumption.
Defined.

(** An ftp URL and a text that is no URL are both refused. *)
Lemma create_rejects_invalid_url_witness :
  (URL_protocol (Platform := Example.platform) "ftp://example.com/file" = None
   \/ exists p, URL_protocol (Platform := Example.platform) "ftp://example.com/file" = Some p
                /\ p <> "http:" /\ p <> "https:")
  /\ (URL_protocol (Platform := Example.platform) "not a url" = None
      \/ exists p, URL_protocol (Platform := Example.platform) "not a url" = Some p
                   /\ p <> "http:" /\ p <> "https:")
  /\ snd (create (H := Example.platform) Example.two_links
            "ftp://example.com/file" "k3Yq9wZ" 1704103200000) = Example.two_links
  /\ status_of (fst (create (H := Example.platform) Example.two_links
                       "not a url" "k3Yq9wZ" 1704103200000)) = Some 400.
Proof.
  assert (H1 : URL_protocol (Platform := Example.platform) "ftp://example.com/file" = None
               \/ exists p, URL_protocol (Platform := Example.platform) "ftp://example.com/file" = Some p
                            /\ p <> "http:" /\ p <> "https:").
  { right. exists "ftp:". split; [vm_compute; reflexivity | split; discriminate]. }
  assert (H2 : URL_protocol (Platform := Example.platform) "not a url" = None
               \/ exists p, URL_protocol (Platform := Example.platform) "not a url" = Some p
                            /\ p <> "http:" /\ p <> "https:").
  { left. vm_compute. reflexivity. }
  repeat apply conj; [exact H1 | exact H2 | |].
  - apply (create_rejects_invalid_url (H := Example.platform) Example.two_links
             "ftp://example.com/file" "k3Yq9wZ" 1704103200000 H1).
  - apply (create_rejects_invalid_url (H := Example.platform) Example.two_links
             "not a url" "k3Yq9wZ" 1704103200000 H2).
Defined.

(** C5, as stated, fails in one respect: the two failure shapes are
    not reported identically.  A text that is no URL and an ftp URL are
    both refused with status 400, and the messages differ. *)
Lemma create_failure_messages_differ :
  URL_protocol (Platform := Example.platform) "not a url" = None
  /\ URL_protocol (Platform := Example.platform) "ftp://example.com/file" = Some "ftp:"
  /\ fst (create (H := Example.platform) Example.two_links
            "not a url" "k3Yq9wZ" 1704103200000)
     = SendStatus 400 "Invalid URL provided."
  /\ fst (create (H := Example.platform) Example.two_links
            "ftp://example.com/file" "k3Yq9wZ" 1704103200000)
     = SendStatus 400 "Only http(s) URLs are allowed."
  /\ fst (create (H := Example.platform) Example.two_links
            "not a url" "k3Yq9wZ" 1704103200000)
     <> fst (create (H := Example.platform) Example.two_links
               "ftp://example.com/file" "k3Yq9wZ" 1704103200000).
Proof.
  assert (H1 : fst (create (H := Example.platform) Example.two_links
                      "not a url" "k3Yq9wZ" 1704103200000)
               = SendStatus 400 "Invalid URL provided.") by (vm_compute; reflexivity).
  assert (H2 : fst (create (H := Example.platform) Example.two_links
                      "ftp://example.com/file" "k3Yq9wZ" 1704103200000)
               = SendStatus 400 "Only http(s) URLs are allowed.")
    by (vm_compute; reflexivity).
  split; [vm_compute; reflexivity|]. split; [vm_compute; reflexivity|].
  split; [exact H1|]. split; [exact H2|].
  rewrite H1, H2. discriminate.
Qed.

(** A redirect request for an identifier that no link has. *)
Lemma redirect_unknown_link_witness :
  link_exists Example.two_links "k3Yq9wZ" = false
  /\ redirect Example.two_links
       (Example.get "k3Yq9wZ" Example.iphone) 1704103200000
     = (Next, Example.two_links).
Proof.
  assert (He : link_exists Example.two_links
                 (params_id (Example.get "k3Yq9wZ" Example.iphone)) = false)
    by (vm_compute; reflexivity).
  split; [exact He|].
  exact (redirect_unknown_link Example.two_links
           (Example.get "k3Yq9wZ" Example.iphone) 1704103200000 He).
Defined.

(** The store with an extra entry has the link and the counter of the
    store without it, and the log with the entry in the middle. *)
Lemma with_entry_link (entry : string) :
  link_exists (Example.with_entry entry) "k3Yq9wZ" = true
  /\ Redis.hGetAll Example.two_visits "link:k3Yq9wZ"
     = Redis.hGetAll (Example.with_entry entry) "link:k3Yq9wZ"
  /\ visit_log (Example.with_entry entry) "k3Yq9wZ"
     = [Example.first_entry] ++ entry :: [Example.second_entry]
  /\ visit_log Example.two_visits "k3Yq9wZ" = [Example.first_entry] ++ [Example.second_entry].
Proof. repeat apply conj; vm_compute; reflexivity. Qed.

(** A log with an entry that is not JSON between two visits. *)
Lemma stats_skips_corrupt_entry_witness :
  JSON_parse (Platform := Example.platform) "{bad" = None
  /\ visit_log (Example.with_entry "{bad") "k3Yq9wZ"
     = [Example.first_entry] ++ "{bad" :: [Example.second_entry]
  /\ visit_log Example.two_visits "k3Yq9wZ" = [Example.first_entry] ++ [Example.second_entry]
  /\ stats (H := Example.platform) (Example.with_entry "{bad") "k3Yq9wZ" None None
     = stats (H := Example.platform) Example.two_visits "k3Yq9wZ" None None.
Proof.
  assert (Hp : JSON_parse (Platform := Example.platform) "{bad" = None)
    by (vm_compute; reflexivity).
  destruct (with_entry_link "{bad") as (He & Hh & Hl & Hl').
  split; [exact Hp|]. split; [exact Hl|]. split; [exact Hl'|].
  exact (proj1 (stats_skips_corrupt_entry (H := Example.platform)
                  (Example.with_entry "{bad") Example.two_visits "k3Yq9wZ" None None
                  [Example.first_entry] [Example.second_entry] "{bad"
                  Hp He Hh Hl Hl')).
Defined.

(** A log with the entry [null] between two visits. *)
Lemma stats_drops_falsy_entry_witness :
  JSON_parse (Platform := Example.platform) "null" = Some JNull
  /\ ToBoolean JNull = false
  /\ visit_log (Example.with_entry "null") "k3Yq9wZ"
     = [Example.first_entry] ++ "null" :: [Example.second_entry]
  /\ stats (H := Example.platform) (Example.with_entry "null") "k3Yq9wZ" None None
     = stats (H := Example.platform) Example.two_visits "k3Yq9wZ" None None.
Proof.
  assert (Hp : JSON_parse (Platform := Example.platform) "null" = Some JNull)
    by (vm_compute; reflexivity).
  destruct (with_entry_link "null") as (_ & Hh & Hl & Hl').
  split; [exact Hp|]. split; [reflexivity|]. split; [exact Hl|].
  exact (proj1 (stats_drops_falsy_entry (H := Example.platform)
                  (Example.with_entry "null") Example.two_visits "k3Yq9wZ" None None
                  [Example.first_entry] [Example.second_entry] "null" JNull
                  Hp eq_refl Hh Hl Hl')).
Defined.

(** The condition on the timestamps is needed: an entry that parses, and
    whose timestamp cannot be converted, makes the whole query fail. *)
Remark stats_rejected_by_unconvertible_timestamp :
  JSON_parse (Platform := Example.platform) Example.unconvertible_entry
  = Some (JObj [("timestamp", JObj [("toString", JNum (Dec 1 0))])])
  /\ stats (H := Example.platform) (Example.with_entry Example.unconvertible_entry)
       "k3Yq9wZ" None None
     = Rejected.
Proof. split; vm_compute; reflexivity. Qed.

(** An index that names [gone], which has no hash, between two links:
    the answer carries the two links, and nothing for [gone]. *)
Lemma list_links_skips_dangling_witness :
  dangling Example.with_dangling "gone"
  /\ list_links (H := Example.platform) Example.with_dangling
       (["Zq8rT1a"] ++ "gone" :: ["b7Hk2Lx"])
     = SendLinks [Example.link_a; Example.link_b]
  /\ list_links (H := Example.platform) Example.with_dangling
       (["Zq8rT1a"] ++ ["b7Hk2Lx"])
     = SendLinks [Example.link_a; Example.link_b].
Proof.
  assert (Hd : dangling Example.with_dangling "gone") by (vm_compute; exact I).
  assert (E : list_links (H := Example.platform) Example.with_dangling
                (["Zq8rT1a"] ++ ["b7Hk2Lx"])
              = SendLinks [Example.link_a; Example.link_b])
    by (vm_compute; reflexivity).
  split; [exact Hd|].
  destruct (list_links_skips_dangling (H := Example.platform) Example.with_dangling
              ["Zq8rT1a"] ["b7Hk2Lx"] "gone" Hd) as (ls & H1 & H2 & _).
  split; [rewrite H1, <- H2|]; exact E.
Defined.

(** ** Parsing back what the redirect route writes *)

Lemma string_body_quote_char (c : ascii) (x : string) :
  Ref.string_body (JSON.quote_char c +:+ x)
  = '(r, rest) ← Ref.string_body x; Some (String c r, rest).
Proof.
  destruct c as [[] [] [] [] [] [] [] []]; reflexivity.
Qed.

Lemma string_body_quote (s rest : string) :
  Ref.string_body (JSON.quote_chars s +:+ JSON.dquote +:+ rest) = Some (s, rest).
Proof.
  induction s as [|c s IH]; [reflexivity|].
  cbn [JSON.quote_chars]. rewrite append_assoc, string_body_quote_char, IH.
  reflexivity.
Qed.

Lemma quote_cons (s rest : string) :
  JSON.quote s +:+ rest = String "034" (JSON.quote_chars s +:+ JSON.dquote +:+ rest).
Proof. unfold JSON.quote. now rewrite !append_assoc. Qed.

Lemma value_quote (fuel : nat) (s rest : string) :
  Ref.value (S fuel) (JSON.quote s +:+ rest) = Some (JStr s, rest).
Proof.
  rewrite quote_cons. cbn [Ref.value Ref.skip_ws Ref.is_ws]. 
  change (Ref.is_ws "034") with false. cbn iota.
  change (N_of_ascii "034" =? 34)%N with true. cbn iota.
  now rewrite string_body_quote.
Qed.

Lemma members_quote (fuel : nat) (k s rest : string) :
  Ref.members (S (S fuel)) (JSON.quote k +:+ ":" +:+ JSON.quote s +:+ rest)
  = match Ref.skip_ws rest with
    | String "," r' =>
        '(ps, r'') ← Ref.members (S fuel) r'; Some ((k, JStr s) :: ps, r'')
    | String "}" r' => Some ([(k, JStr s)], r')
    | _ => None
    end.
Proof.
  rewrite quote_cons.
  cbn [Ref.members Ref.skip_ws]. change (Ref.is_ws "034") with false. cbn iota.
  change (N_of_ascii "034" =? 34)%N with true. cbn iota.
  rewrite string_body_quote. cbn [mbind option_bind].
  change (Ref.expect ":" (Ref.skip_ws (":" +:+ JSON.quote s +:+ rest)))
    with (Some (JSON.quote s +:+ rest)).
  cbn [mbind option_bind]. rewrite value_quote. reflexivity.
Qed.

Lemma value_object (fuel : nat) (k rest : string) :
  Ref.value (S fuel) ("{" +:+ JSON.quote k +:+ rest)
  = '(ps, r) ← Ref.members fuel (JSON.quote k +:+ rest); Some (JObj ps, r).
Proof. rewrite quote_cons. reflexivity. Qed.

Lemma skip_ws_comma (x : string) : Ref.skip_ws ("," +:+ x) = String "," x.
Proof. reflexivity. Qed.

(** On the reference platform, a recorded visit parses back to the
    object it was written from. *)
Lemma parse_stringify_visit (v : Visit) :
  Ref.json_parse (JSON.stringify_visit v) = Some (visit_value v).
Proof.
  unfold Ref.json_parse.
  assert (Hlen : (2 <= String.length (JSON.stringify_visit v))%nat).
  { unfold JSON.stringify_visit. rewrite quote_cons.
    cbn [String.length String.append]. lia. }
  assert (Hfuel : exists k, (2 * String.length (JSON.stringify_visit v) + 2
                             = S (S (S (S (S k)))))%nat).
  { exists (2 * String.length (JSON.stringify_visit v) + 2 - 5)%nat. lia. }
  destruct Hfuel as [k ->]. unfold JSON.stringify_visit.
  rewrite value_object, members_quote, skip_ws_comma.
  rewrite members_quote, skip_ws_comma.
  rewrite members_quote. reflexivity.
Qed.

(** ** Parsing back the dates that the routes write *)

Lemma yoe_bounds (doe : Z) :
  0 <= doe < 146097 ->
  let yoe := (doe - doe / 1460 + doe / 36524 - doe / 146096) / 365 in
  0 <= yoe <= 399 /\ 0 <= doe - (365 * yoe + yoe / 4 - yoe / 100) <= 365.
Proof. intros H yoe. subst yoe. Z.to_euclidean_division_equations; lia. Qed.

(** The two calendar conversions are inverse to each other. *)
Lemma days_from_civil_from_days (z y m d : Z) :
  ISO.civil_from_days z = (y, m, d) ->
  1 <= m <= 12 /\ 1 <= d <= 31 /\ ISO.days_from_civil y m 1 + d - 1 = z.
Proof.
  unfold ISO.civil_from_days, ISO.days_from_civil. cbv zeta.
  remember (z + 719468) as z' eqn:Ez.
  remember (z' / 146097) as era eqn:Eera.
  remember (z' - era * 146097) as doe eqn:Edoe.
  assert (Hdoe : 0 <= doe < 146097).
  { subst doe era. Z.to_euclidean_division_equations; lia. }
  pose proof (yoe_bounds doe Hdoe) as Hy. cbv zeta in Hy.
  remember ((doe - doe / 1460 + doe / 36524 - doe / 146096) / 365) as yoe eqn:Eyoe.
  remember (doe - (365 * yoe + yoe / 4 - yoe / 100)) as doy eqn:Edoy.
  remember ((5 * doy + 2) / 153) as mp eqn:Emp.
  assert (Hmp : 0 <= mp <= 11) by (subst mp; Z.to_euclidean_division_equations; lia).
  assert (Hd : 1 <= doy - (153 * mp + 2) / 5 + 1 <= 31)
    by (subst mp; Z.to_euclidean_division_equations; lia).
  clear Eyoe Emp.
  destruct (Z.ltb_spec mp 10).
  - destruct (Z.leb_spec (mp + 3) 2); [lia|].
    intros E.
    assert (Ey := f_equal (fun p => fst (fst p)) E).
    assert (Em := f_equal (fun p => snd (fst p)) E).
    assert (Ed := f_equal snd E).
    cbn [fst snd] in Ey, Em, Ed. subst y m d. clear E.
    destruct (Z.leb_spec (mp + 3) 2); [lia|].
    split; [lia|]. split; [exact Hd|].
    replace (yoe + era * 400 + 0) with (yoe + era * 400) by lia.
    replace ((yoe + era * 400) / 400) with era
      by (Z.to_euclidean_division_equations; lia).
    replace (mp + 3 - 3) with mp by lia.
    replace (yoe + era * 400 - era * 400) with yoe by lia.
    subst doy doe z'. lia.
  - destruct (Z.leb_spec (mp - 9) 2); [|lia].
    intros E.
    assert (Ey := f_equal (fun p => fst (fst p)) E).
    assert (Em := f_equal (fun p => snd (fst p)) E).
    assert (Ed := f_equal snd E).
    cbn [fst snd] in Ey, Em, Ed. subst y m d. clear E.
    destruct (Z.leb_spec (mp - 9) 2); [|lia].
    split; [lia|]. split; [exact Hd|].
    replace (yoe + era * 400 + 1 - 1) with (yoe + era * 400) by lia.
    replace ((yoe + era * 400) / 400) with era
      by (Z.to_euclidean_division_equations; lia).
    replace (mp - 9 + 9) with mp by lia.
    replace (yoe + era * 400 - era * 400) with yoe by lia.
    subst doy doe z'. lia.
Qed.

Lemma civil_year_bounds (z y m d : Z) :
  ISO.civil_from_days z = (y, m, d) ->
  -100000000 <= z <= 100000000 -> -272000 <= y <= 276000.
Proof.
  unfold ISO.civil_from_days. cbv zeta.
  remember (z + 719468) as z' eqn:Ez.
  remember (z' / 146097) as era eqn:Eera.
  remember (z' - era * 146097) as doe eqn:Edoe.
  assert (Hdoe : 0 <= doe < 146097).
  { subst doe era. Z.to_euclidean_division_equations; lia. }
  pose proof (yoe_bounds doe Hdoe) as Hy. cbv zeta in Hy.
  remember ((doe - doe / 1460 + doe / 36524 - doe / 146096) / 365) as yoe eqn:Eyoe.
  intros E Hz.
  assert (Ey := f_equal (fun p => fst (fst p)) E). cbn [fst snd] in Ey. subst y. clear E.
  assert (Hera : -680 <= era <= 689)
    by (subst era z'; Z.to_euclidean_division_equations; lia).
  clear Eyoe.
  destruct (_ <=? 2); lia.
Qed.

Lemma digit_code (k : Z) :
  0 <= k <= 9 -> N_of_ascii (ISO.digit k) = (48 + Z.to_N k)%N.
Proof. intros Hk. unfold ISO.digit. apply N_ascii_embedding. lia. Qed.

Lemma digit_is_digit (k : Z) : 0 <= k <= 9 -> Ref.is_digit (ISO.digit k) = true.
Proof.
  intros Hk. unfold Ref.is_digit. rewrite (digit_code k Hk).
  apply andb_true_iff. split; apply N.leb_le; lia.
Qed.

Lemma digit_val_digit (k : Z) : 0 <= k <= 9 -> Ref.digit_val (ISO.digit k) = k.
Proof. intros Hk. unfold Ref.digit_val. rewrite (digit_code k Hk). lia. Qed.

Lemma mod_10_digit (n : Z) : 0 <= n mod 10 <= 9.
Proof. pose proof (Z.mod_pos_bound n 10). lia. Qed.

Lemma digits_acc (w : nat) (n : Z) (acc : string) :
  ISO.digits w n acc = ISO.digits w n "" +:+ acc.
Proof.
  revert n acc; induction w as [|w IH]; intros n acc; [reflexivity|].
  cbn [ISO.digits]. rewrite IH, (IH _ (String _ "")), append_assoc. reflexivity.
Qed.

Lemma digits_S (w : nat) (n : Z) :
  ISO.digits (S w) n "" = ISO.digits w (n / 10) "" +:+ String (ISO.digit (n mod 10)) "".
Proof. cbn [ISO.digits]. apply digits_acc. Qed.

Lemma length_append (a b : string) :
  String.length (a +:+ b) = (String.length a + String.length b)%nat.
Proof. induction a as [|c a IH]; cbn; [reflexivity | now rewrite IH]. Qed.

Lemma length_digits (w : nat) (n : Z) : String.length (ISO.digits w n "") = w.
Proof.
  revert n; induction w as [|w IH]; intros n; [reflexivity|].
  rewrite digits_S, length_append, IH. cbn. lia.
Qed.

Lemma span_digits (w : nat) (n : Z) (rest : string) :
  Ref.span Ref.is_digit (ISO.digits w n "" +:+ rest)
  = (ISO.digits w n "" +:+ fst (Ref.span Ref.is_digit rest),
     snd (Ref.span Ref.is_digit rest)).
Proof.
  revert n rest; induction w as [|w IH]; intros n rest.
  - cbn. now destruct (Ref.span Ref.is_digit rest).
  - rewrite digits_S, !append_assoc. cbn [String.append]. rewrite IH.
    cbn [Ref.span]. rewrite digit_is_digit by apply mod_10_digit.
    destruct (Ref.span Ref.is_digit rest) as [a b]. reflexivity.
Qed.

Lemma list_ascii_append (a b : string) :
  list_ascii_of_string (a +:+ b) = list_ascii_of_string a ++ list_ascii_of_string b.
Proof. induction a as [|c a IH]; cbn; [reflexivity | now rewrite IH]. Qed.

Lemma number_of_digits_snoc (a : string) (c : ascii) :
  Ref.number_of_digits (a +:+ String c "")
  = 10 * Ref.number_of_digits a + Ref.digit_val c.
Proof.
  unfold Ref.number_of_digits. rewrite list_ascii_append, fold_left_app. reflexivity.
Qed.

Lemma number_of_digits_digits (w : nat) (n : Z) :
  Ref.number_of_digits (ISO.digits w n "") = n mod 10 ^ Z.of_nat w.
Proof.
  revert n; induction w as [|w IH]; intros n.
  - cbn. now rewrite Z.mod_1_r.
  - rewrite digits_S, number_of_digits_snoc, IH.
    rewrite digit_val_digit by apply mod_10_digit.
    rewrite Nat2Z.inj_succ, Z.pow_succ_r by lia.
    rewrite (Z.rem_mul_r n 10 (10 ^ Z.of_nat w)) by lia. lia.
Qed.

Lemma substring_append (a b : string) :
  String.substring 0 (String.length a) (a +:+ b) = a.
Proof. induction a as [|c a IH]; cbn; [now destruct b | now rewrite IH]. Qed.

Lemma drop_append (a b : string) : Ref.drop (String.length a) (a +:+ b) = b.
Proof. induction a as [|c a IH]; cbn; [now destruct b | exact IH]. Qed.

(** A field of [w] digits reads back as the number it was written from. *)
Lemma fixed_digits_digits (w : nat) (n : Z) (rest : string) :
  0 <= n < 10 ^ Z.of_nat w ->
  Ref.fixed_digits w (ISO.digits w n "" +:+ rest) = Some (n, rest).
Proof.
  intros Hn. unfold Ref.fixed_digits. rewrite span_digits.
  rewrite length_append, length_digits.
  assert ((w <=? w + String.length (fst (Ref.span Ref.is_digit rest)))%nat = true) as ->
    by (apply Nat.leb_le; lia).
  rewrite <- (length_digits w n) at 1 3.
  rewrite substring_append, drop_append, number_of_digits_digits.
  now rewrite Z.mod_small.
Qed.

Lemma digits_head (w : nat) (n : Z) :
  exists k tail, 0 <= k <= 9 /\ ISO.digits (S w) n "" = String (ISO.digit k) tail.
Proof.
  revert n; induction w as [|w IH]; intros n.
  - exists (n mod 10), "". split; [apply mod_10_digit | reflexivity].
  - destruct (IH (n / 10)) as (k & tail & Hk & E).
    exists k, (tail +:+ String (ISO.digit (n mod 10)) ""). split; [exact Hk|].
    now rewrite digits_S, E.
Qed.

Lemma parse_year_digit_head (k : Z) (tail : string) :
  0 <= k <= 9 ->
  Ref.parse_year (String (ISO.digit k) tail) = Ref.fixed_digits 4 (String (ISO.digit k) tail).
Proof.
  intros Hk. cbn [Ref.parse_year].
  assert (Ascii.eqb (ISO.digit k) "+" = false) as ->.
  { apply Ascii.eqb_neq. intros E. apply (f_equal N_of_ascii) in E.
    rewrite (digit_code k Hk) in E. cbn in E. lia. }
  assert (Ascii.eqb (ISO.digit k) "-" = false) as ->.
  { apply Ascii.eqb_neq. intros E. apply (f_equal N_of_ascii) in E.
    rewrite (digit_code k Hk) in E. cbn in E. lia. }
  reflexivity.
Qed.

Lemma parse_year_year_string (y : Z) (rest : string) :
  -999999 <= y <= 999999 ->
  Ref.parse_year (ISO.year_string y +:+ rest) = Some (y, rest).
Proof.
  intros Hy. unfold ISO.year_string.
  destruct ((0 <=? y) && (y <=? 9999)) eqn:E.
  - apply andb_true_iff in E as [E1 E2]. apply Z.leb_le in E1, E2.
    destruct (digits_head 3 y) as (k & tail & Hk & Eh).
    rewrite <- (fixed_digits_digits 4 y rest) by (cbn; lia).
    rewrite Eh. cbn [String.append]. now apply parse_year_digit_head.
  - assert (Hout : y < 0 \/ 9999 < y).
    { apply andb_false_iff in E as [E|E]; [apply Z.leb_gt in E | apply Z.leb_gt in E]; lia. }
    destruct (Z.ltb_spec y 0) as [Hneg|Hpos]; cbn [String.append Ref.parse_year].
    + change (Ascii.eqb "-" "+") with false. change (Ascii.eqb "-" "-") with true.
      cbn iota. rewrite fixed_digits_digits by (cbn; lia). cbn [mbind option_bind].
      destruct (Z.eqb_spec (Z.abs y) 0); [lia|]. f_equal. f_equal. lia.
    + change (Ascii.eqb "+" "+") with true. cbn iota.
      rewrite fixed_digits_digits by (cbn; lia). f_equal. f_equal. lia.
Qed.

Lemma bind_Some {A B} (x : A) (f : A -> option B) : Some x ≫= f = f x.
Proof. reflexivity. Qed.

Lemma parse_time_digits (r : Z) :
  0 <= r < msPerDay ->
  Ref.parse_time
    (ISO.digits 2 (r / 3600000) ""
     +:+ ":" +:+ ISO.digits 2 (r / 60000 mod 60) ""
     +:+ ":" +:+ ISO.digits 2 (r / 1000 mod 60) ""
     +:+ "." +:+ ISO.digits 3 (r mod 1000) "" +:+ "Z")
  = Some r.
Proof.
  unfold msPerDay. intros Hr. unfold Ref.parse_time.
  rewrite fixed_digits_digits by (cbn; Z.to_euclidean_division_equations; lia).
  rewrite bind_Some. cbn [String.append Ref.expect].
  change (Ascii.eqb ":" ":") with true. cbn iota. rewrite bind_Some.
  rewrite fixed_digits_digits by (cbn; Z.to_euclidean_division_equations; lia).
  rewrite bind_Some. cbn [String.append Ref.expect String.eqb].
  change (Ascii.eqb ":" "Z") with false. change (Ascii.eqb ":" ":") with true.
  cbn iota. rewrite bind_Some.
  rewrite fixed_digits_digits by (cbn; Z.to_euclidean_division_equations; lia).
  rewrite bind_Some. cbn [String.append Ref.expect String.eqb].
  change (Ascii.eqb "." "Z") with false. change (Ascii.eqb "." ".") with true.
  cbn iota. rewrite bind_Some.
  rewrite fixed_digits_digits by (cbn; Z.to_euclidean_division_equations; lia).
  rewrite bind_Some. change (String.eqb "Z" "Z") with true. cbn iota.
  rewrite bind_Some.
  assert ((r / 3600000 <=? 23) && (r / 60000 mod 60 <=? 59) && (r / 1000 mod 60 <=? 59) = true) as ->.
  { rewrite !andb_true_iff, !Z.leb_le. Z.to_euclidean_division_equations; lia. }
  f_equal. Z.to_euclidean_division_equations; lia.
Qed.

(** On the reference platform, the date that [toISOString] writes parses
    back to the time value it was written from. *)
Lemma date_parse_toISOString (t : Z) :
  Z.abs t <= 8640000000000000 -> Ref.date_parse (ISO.toISOString t) = Some t.
Proof.
  intros Ht. unfold ISO.toISOString.
  destruct (ISO.civil_from_days (t / msPerDay)) as [[y m] d] eqn:E.
  destruct (days_from_civil_from_days _ _ _ _ E) as (Hm & Hd & Hday).
  assert (Hz : -100000000 <= t / msPerDay <= 100000000)
    by (unfold msPerDay; Z.to_euclidean_division_equations; lia).
  pose proof (civil_year_bounds _ _ _ _ E Hz) as Hy.
  assert (Hr : 0 <= t mod msPerDay < msPerDay) by (apply Z.mod_pos_bound; reflexivity).
  unfold Ref.date_parse.
  rewrite parse_year_year_string by lia.
  rewrite bind_Some. cbn [String.append Ref.expect].
  change (Ascii.eqb "-" "-") with true. cbn iota. rewrite bind_Some.
  rewrite fixed_digits_digits by (cbn; lia).
  rewrite bind_Some. cbn [String.append Ref.expect].
  change (Ascii.eqb "-" "-") with true. cbn iota. rewrite bind_Some.
  rewrite fixed_digits_digits by (cbn; lia).
  rewrite bind_Some.
  assert ((1 <=? m) && (m <=? 12) && (1 <=? d) && (d <=? 31) = true) as ->.
  { rewrite !andb_true_iff, !Z.leb_le. lia. }
  cbn [String.append]. rewrite parse_time_digits by exact Hr.
  rewrite bind_Some, Hday.
  replace (t / msPerDay * msPerDay + t mod msPerDay) with t
    by (rewrite (Z.div_mod t msPerDay) at 1 by discriminate; lia).
  unfold TimeClip. apply Z.leb_le in Ht. now rewrite Ht.
Qed.

Lemma Ref_reads_back (base : string) : reads_back (Ref.platform base).
Proof.
  split.
  - exact parse_stringify_visit.
  - exact date_parse_toISOString.
Qed.

(** ** The stores that the routes produce *)

Section produced.
Context `{Platform}.

Lemma recorded_logs_step st op : recorded_logs st -> recorded_logs (snd (step st op)).
Proof.
  intros Hr. destruct op as [url id now | req now]; cbn [step].
  - destruct (create_cases st url id now) as [[body ->] | [l ->]]; exact Hr.
  - destruct (link_exists st (params_id req)) eqn:He;
      [|now rewrite redirect_not_found].
    unfold redirect. destruct (Str.startsWith "/api" (path req)); [exact Hr|].
    unfold link_exists in He. apply negb_true_iff in He. rewrite He.
    destruct (Redis.hIncrBy st _ "visitCount" 1) as [r st1] eqn:Ei.
    assert (Hl : lists st1 = lists st).
    { unfold Redis.hIncrBy in Ei.
      destruct (match Redis.hGetAll st _ !! "visitCount" with
                | Some s => Redis.Z_of_string s | None => Some 0 end);
        injection Ei as _ <-; reflexivity. }
    assert (Hr2 : recorded_logs (Redis.rPush st1 ("visits:" +:+ params_id req)
                    (JSON.stringify_visit
                       {| timestamp := ISO.toISOString now;
                          userAgent := or_else (user_agent req) "";
                          deviceType := detectDeviceType (Some (or_else (user_agent req) "")) |}))).
    { intros key entries. unfold Redis.rPush. cbn [lists]. rewrite Hl.
      destruct (decide (key = "visits:" +:+ params_id req)) as [->|Hne].
      - rewrite lookup_insert_eq. intros E0.
        apply (f_equal (default [])) in E0. cbn [from_option] in E0.
        unfold Datatypes.id in E0. subst entries.
        apply Forall_app. split.
        + destruct (lists st !! ("visits:" +:+ params_id req)) as [es|] eqn:E;
            cbn [from_option].
          * exact (Hr _ _ E).
          * constructor.
        + repeat constructor. eauto.
      - rewrite lookup_insert_ne by congruence. apply Hr. }
    destruct r; exact Hr2.
Qed.

Lemma recorded_logs_run st ops : recorded_logs st -> recorded_logs (run st ops).
Proof.
  revert st; induction ops as [|op ops IH]; intros st Hr; [exact Hr|].
  cbn [run]. apply IH. now apply recorded_logs_step.
Qed.

Lemma recorded_logs_empty : recorded_logs empty_store.
Proof. intros key entries. unfold empty_store. cbn. now rewrite lookup_empty. Qed.

Lemma visit_date_visit_value v :
  visit_date (visit_value v) = Normal (Date_of_string (Some (timestamp v))).
Proof. reflexivity. Qed.

(** In a store whose logs the redirect route wrote, no stats query is
    rejected: every entry decodes to a visit whose timestamp is a
    string. *)
Lemma recorded_logs_convert st id :
  reads_back H -> recorded_logs st ->
  Forall (fun v => visit_date v <> Throw) (decoded (visit_log st id)).
Proof.
  intros [Hjson _] Hr. apply Forall_forall. intros v Hv.
  apply elem_of_decoded in Hv as [_ (e & He & <-)].
  unfold visit_log, Redis.lRange_all in He.
  destruct (lists st !! ("visits:" +:+ id)) as [es|] eqn:E; cbn in He;
    [|now apply elem_of_nil in He].
  pose proof (Hr _ _ E) as Hes. rewrite Forall_forall in Hes.
  destruct (Hes e He) as [w ->]. unfold parse_entry. rewrite Hjson.
  rewrite visit_date_visit_value. discriminate.
Qed.
End produced.

Section produced_dates.
Context `{Platform}.

Lemma dated_links_step st op :
  Z.abs (time_of op) <= 8640000000000000 ->
  dated_links st -> dated_links (snd (step st op)).
Proof.
  intros Ht Hd. destruct op as [url id now | req now]; cbn [step time_of] in *.
  - destruct (create_cases st url id now) as [[body ->] | [l ->]]; [exact Hd|].
    cbn [snd]. intros key h. unfold created, Redis.sAdd, Redis.hSet. cbn [hashes].
    destruct (decide (key = "link:" +:+ id)) as [->|Hne].
    + rewrite lookup_insert_eq. intros E0.
      apply (f_equal (default ∅)) in E0. cbn [from_option] in E0.
      unfold Datatypes.id in E0. subst h.
      exists now. split; [exact Ht|].
      apply lookup_union_Some_l. cbn.
      do 2 (rewrite lookup_insert_ne by discriminate). apply lookup_insert_eq.
    + rewrite lookup_insert_ne by congruence. apply Hd.
  - unfold redirect. destruct (Str.startsWith "/api" (path req)); [exact Hd|].
    destruct (falsy (Redis.hGetAll st ("link:" +:+ params_id req) !! "id")) eqn:He;
      [exact Hd|].
    unfold Redis.hIncrBy.
    destruct (match Redis.hGetAll st ("link:" +:+ params_id req) !! "visitCount" with
              | Some s => Redis.Z_of_string s | None => Some 0 end) as [n|];
      cbn [snd]; unfold Redis.rPush; [|exact Hd].
    intros key h.
    repeat match goal with
    | |- context [hashes {| hashes := ?a; lists := ?b; sets := ?c |}] =>
        change (hashes {| hashes := a; lists := b; sets := c |}) with a
    end.
    destruct (decide (key = "link:" +:+ params_id req)) as [->|Hne].
    + rewrite lookup_insert_eq. intros E0.
      apply (f_equal (default ∅)) in E0. cbn [from_option] in E0.
      unfold Datatypes.id in E0. subst h.
      rewrite lookup_insert_ne by discriminate.
      unfold Redis.hGetAll in *.
      destruct (hashes st !! ("link:" +:+ params_id req)) as [h0|] eqn:E;
        cbn [from_option] in *.
      * exact (Hd _ _ E).
      * unfold Datatypes.id in He. rewrite lookup_empty in He. discriminate.
    + rewrite lookup_insert_ne by congruence. apply Hd.
Qed.

Lemma dated_links_run st ops :
  clock_in_range ops -> dated_links st -> dated_links (run st ops).
Proof.
  revert st; induction ops as [|op ops IH]; intros st Hc Hd; [exact Hd|].
  apply Forall_cons in Hc as [Ht Hc]. cbn [run]. apply IH; [exact Hc|].
  now apply dated_links_step.
Qed.

Lemma dated_links_empty : dated_links empty_store.
Proof. intros key h. unfold empty_store. cbn. now rewrite lookup_empty. Qed.

(** In a store whose hashes the create route wrote, every link of the
    list has a valid creation date. *)
Lemma dated_links_valid st ids :
  reads_back H -> dated_links st ->
  Forall (fun a => is_Some (created_date a)) (filter_Boolean (map (fetch_link st) ids)).
Proof.
  intros [_ Hdate] Hd. apply Forall_forall. intros a Ha.
  apply elem_of_filter_Boolean, elem_of_map in Ha as (i & Ha & _).
  unfold fetch_link in Ha.
  destruct (falsy (Redis.hGetAll st ("link:" +:+ i) !! "id")) eqn:He; [discriminate|].
  apply (f_equal (default a)) in Ha. cbn [from_option] in Ha.
  unfold Datatypes.id in Ha. subst a.
  unfold Redis.hGetAll in *.
  destruct (hashes st !! ("link:" +:+ i)) as [h|] eqn:E; cbn [from_option] in *.
  - destruct (Hd _ _ E) as (t & Ht & Hc).
    unfold created_date, link_of_data. cbn [Link.createdAt]. unfold Datatypes.id.
    rewrite Hc. cbn [Date_of_string]. rewrite (Hdate t Ht).
    unfold TimeClip. apply Z.leb_le in Ht. rewrite Ht. eauto.
  - unfold Datatypes.id in He. rewrite lookup_empty in He. discriminate.
Qed.

(** X14. From the empty store, on a platform that reads back what the routes
    write, no stats query on an existing link is rejected, and the
    answer is the decoded log cut to the date window. *)
Theorem stats_after_run (ops : list Op) (id : string) (q_start q_end : option string) :
  reads_back H ->
  link_exists (run empty_store ops) id = true ->
  exists vs,
    stats (run empty_store ops) id q_start q_end
    = SendStats (link_of_data id (Redis.hGetAll (run empty_store ops) ("link:" +:+ id))) vs
    /\ vs ≡ₚ filter (fun v => in_window (query_date q_start) (query_date q_end)
                                        (date_or_invalid v))
                    (decoded (visit_log (run empty_store ops) id)).
Proof.
  intros Hrb He. apply stats_window; [exact He|].
  apply recorded_logs_convert; [exact Hrb|].
  apply recorded_logs_run, recorded_logs_empty.
Qed.

(** From the empty store, on such a platform and with a clock in range,
    the list route answers with the links newest first, whatever the
    order of the reply to SMEMBERS. *)
Theorem list_after_run (ops : list Op) (ids : list string) :
  reads_back H ->
  clock_in_range ops ->
  exists ls,
    list_links (run empty_store ops) ids = SendLinks ls
    /\ ls ≡ₚ filter_Boolean (map (fetch_link (run empty_store ops)) ids)
    /\ StronglySorted (fun a b => newer_or_equal (created_date a) (created_date b)) ls.
Proof.
  intros Hrb Hc.
  destruct (list_links_spec (run empty_store ops) ids) as (ls & Hls & Hperm & _ & Hsorted).
  exists ls. split; [exact Hls|]. split; [exact Hperm|].
  apply Hsorted, dated_links_valid; [exact Hrb|].
  apply dated_links_run; [exact Hc | apply dated_links_empty].
Qed.
End produced_dates.

(** * Further properties of the routes *)

(** ** Creating a link, and reading it back *)

Section create_more.
Context `{Platform}.

Lemma create_accepts st url id now p :
  URL_protocol url = Some p -> p = "http:" \/ p = "https:" ->
  create st url id now
  = (SendLink {| Link.id := id;
                 Link.originalUrl := Some url;
                 Link.createdAt := Some (ISO.toISOString now);
                 Link.visitCount := Dec 0 0;
                 Link.shortUrl := BASE_URL +:+ "/" +:+ id |},
     created st url id now).
Proof. intros E [-> | ->]; unfold create; rewrite E; reflexivity. Qed.

Lemma create_sent st url id now l :
  fst (create st url id now) = SendLink l ->
  l = {| Link.id := id;
         Link.originalUrl := Some url;
         Link.createdAt := Some (ISO.toISOString now);
         Link.visitCount := Dec 0 0;
         Link.shortUrl := BASE_URL +:+ "/" +:+ id |}
  /\ snd (create st url id now) = created st url id now.
Proof.
  unfold create. destruct (URL_protocol url) as [p|]; [|discriminate].
  destruct (includes ["http:"; "https:"] p); cbn [negb fst snd]; [|discriminate].
  intros E. split; [|reflexivity]. congruence.
Qed.

Lemma created_fields st url id now :
  let h := Redis.hGetAll (created st url id now) ("link:" +:+ id) in
  h !! "id" = Some id
  /\ h !! "originalUrl" = Some url
  /\ h !! "createdAt" = Some (ISO.toISOString now)
  /\ h !! "visitCount" = Some (Redis.string_of_Z 0)
  /\ h !! "shortUrl" = Some (BASE_URL +:+ "/" +:+ id).
Proof.
  unfold Redis.hGetAll, created, Redis.sAdd, Redis.hSet. cbn [hashes].
  rewrite lookup_insert_eq. cbn [default from_option]. unfold Datatypes.id.
  repeat apply conj; apply lookup_union_Some_l; cbn [list_to_map foldr uncurry fst snd];
    repeat (rewrite lookup_insert_ne by discriminate); apply lookup_insert_eq.
Qed.

Lemma created_index st url id now :
  index (created st url id now) = {[id]} ∪ index st.
Proof.
  unfold index, created, Redis.sAdd. cbn [sets].
  now rewrite lookup_insert_eq.
Qed.

Lemma created_counter st url id now :
  stored_visitCount (created st url id now) id = Some 0.
Proof.
  unfold stored_visitCount.
  destruct (created_fields st url id now) as (_ & _ & _ & -> & _).
  apply Z_of_string_of_Z.
Qed.

(** X1. A URL with the scheme http or https is accepted: the answer is the
    new link, with status 200; its five fields are in the hash under
    [link:<id>], with the counter at 0; the identifier joins the index.
    No visit log changes and no other link's hash does, also when the
    identifier was in use before. *)
Theorem create_writes_link (st : Store) (url id : string) (now : Z) (p : string) :
  URL_protocol url = Some p -> p = "http:" \/ p = "https:" ->
  let st' := snd (create st url id now) in
  let h := Redis.hGetAll st' ("link:" +:+ id) in
  fst (create st url id now)
  = SendLink {| Link.id := id;
                Link.originalUrl := Some url;
                Link.createdAt := Some (ISO.toISOString now);
                Link.visitCount := Dec 0 0;
                Link.shortUrl := BASE_URL +:+ "/" +:+ id |}
  /\ status_of (fst (create st url id now)) = Some 200
  /\ h !! "id" = Some id
  /\ h !! "originalUrl" = Some url
  /\ h !! "createdAt" = Some (ISO.toISOString now)
  /\ h !! "shortUrl" = Some (BASE_URL +:+ "/" +:+ id)
  /\ stored_visitCount st' id = Some 0
  /\ index st' = {[id]} ∪ index st
  /\ (forall id', visit_log st' id' = visit_log st id')
  /\ (forall id', id' <> id ->
        hashes st' !! ("link:" +:+ id') = hashes st !! ("link:" +:+ id')).
Proof.
  intros E Hp st' h. subst st' h. rewrite (create_accepts st url id now p E Hp).
  cbn [fst snd status_of].
  destruct (created_fields st url id now) as (H1 & H2 & H3 & _ & H5).
  repeat apply conj; try assumption; try reflexivity.
  - apply created_counter.
  - apply created_index.
  - intros id' Hne. now apply created_other_hash.
Qed.

Lemma append_slash_nonempty (a b : string) : a +:+ "/" +:+ b <> "".
Proof. destruct a; discriminate. Qed.

Lemma fetch_created st url id now :
  Number_of_string "0" = Dec 0 0 -> id <> "" ->
  fetch_link (created st url id now) id
  = Some {| Link.id := id;
            Link.originalUrl := Some url;
            Link.createdAt := Some (ISO.toISOString now);
            Link.visitCount := Dec 0 0;
            Link.shortUrl := BASE_URL +:+ "/" +:+ id |}.
Proof.
  intros Hn Hid. unfold fetch_link, link_of_data.
  destruct (created_fields st url id now) as (-> & -> & -> & -> & ->).
  apply String.eqb_neq in Hid. cbn [falsy default from_option]. rewrite Hid.
  unfold Number_or_zero, or_else, Datatypes.id. cbn [falsy default from_option].
  change (Redis.string_of_Z 0) with "0". cbn [String.eqb Ascii.eqb].
  rewrite Hn.
  pose proof (append_slash_nonempty BASE_URL id) as Hs.
  apply String.eqb_neq in Hs. rewrite Hs. reflexivity.
Qed.

(** X2. What the create route answers is what the other routes report for
    the link right after: the list route for the identifier alone
    answers with that link, and so does the stats route, with no visits
    when the identifier had no log. *)
Theorem created_link_reads_back (st : Store) (url id : string) (now : Z) (l : Link.t) :
  Number_of_string "0" = Dec 0 0 ->
  id <> "" ->
  fst (create st url id now) = SendLink l ->
  let st' := snd (create st url id now) in
  fetch_link st' id = Some l
  /\ list_links st' [id] = SendLinks [l]
  /\ (visit_log st id = [] ->
      forall q_start q_end, stats st' id q_start q_end = SendStats l []).
Proof.
  intros Hn Hid Hl st'. subst st'.
  destruct (create_sent st url id now l Hl) as [-> ->].
  pose proof (fetch_created st url id now Hn Hid) as Hf.
  repeat apply conj.
  - exact Hf.
  - unfold list_links. cbn [map]. rewrite Hf. reflexivity.
  - intros Hlog q_start q_end.
    unfold fetch_link in Hf. unfold stats.
    destruct (falsy (Redis.hGetAll (created st url id now) ("link:" +:+ id) !! "id"));
      [discriminate|].
    fold (visit_log (created st url id now) id). rewrite created_log, Hlog.
    change (parsedVisits [] (query_date q_start) (query_date q_end))
      with (Normal (@nil JsVal)).
    exact (f_equal (fun o => match o with
                             | Some x => SendStats x []
                             | None => Rejected
                             end) Hf).
Qed.
End create_more.

(** ** The redirect route: what it records and what it keeps *)

Lemma rPush_log st id entry :
  visit_log (Redis.rPush st ("visits:" +:+ id) entry) id = visit_log st id ++ [entry].
Proof.
  unfold visit_log at 1, Redis.lRange_all, Redis.rPush. cbn [lists].
  now rewrite lookup_insert_eq.
Qed.

Lemma rPush_other_log st id entry id' :
  id' <> id -> visit_log (Redis.rPush st ("visits:" +:+ id) entry) id' = visit_log st id'.
Proof.
  intros Hne. unfold visit_log, Redis.lRange_all, Redis.rPush. cbn [lists].
  rewrite lookup_insert_ne; [reflexivity|].
  intros E. apply visits_key_inj in E. congruence.
Qed.

Lemma redirect_failed_counter st req now :
  Str.startsWith "/api" (path req) = false ->
  link_exists st (params_id req) = true ->
  stored_visitCount st (params_id req) = None ->
  redirect st req now
  = (Rejected,
     Redis.rPush st ("visits:" +:+ params_id req)
       (JSON.stringify_visit (recorded_visit (or_else (user_agent req) "") now))).
Proof.
  intros Hp He Hn. unfold redirect. rewrite Hp.
  unfold link_exists in He. apply negb_true_iff in He. rewrite He.
  unfold Redis.hIncrBy. unfold stored_visitCount in Hn.
  destruct (Redis.hGetAll st ("link:" +:+ params_id req) !! "visitCount") as [s|];
    [rewrite Hn; reflexivity | discriminate].
Qed.

(** The three ways in which the redirect route ends. *)
Lemma redirect_cases st req now :
  redirect st req now = (Next, st)
  \/ (exists n,
        link_exists st (params_id req) = true
        /\ stored_visitCount st (params_id req) = Some n
        /\ redirect st req now
           = (Redirect (Redis.hGetAll st ("link:" +:+ params_id req) !! "originalUrl"),
              visited st (params_id req) n
                (JSON.stringify_visit (recorded_visit (or_else (user_agent req) "") now))))
  \/ (link_exists st (params_id req) = true
      /\ redirect st req now
         = (Rejected,
            Redis.rPush st ("visits:" +:+ params_id req)
              (JSON.stringify_visit (recorded_visit (or_else (user_agent req) "") now)))).
Proof.
  destruct (Str.startsWith "/api" (path req)) eqn:Hp.
  { left. unfold redirect. now rewrite Hp. }
  destruct (link_exists st (params_id req)) eqn:He.
  2:{ left. now apply redirect_not_found. }
  destruct (stored_visitCount st (params_id req)) as [n|] eqn:Hn.
  - right; left. exists n. repeat split. now apply redirect_found.
  - right; right. split; [reflexivity|]. now apply redirect_failed_counter.
Qed.

Lemma visited_field st id n entry key field :
  field <> "visitCount" ->
  Redis.hGetAll (visited st id n entry) key !! field = Redis.hGetAll st key !! field.
Proof.
  intros Hf. unfold Redis.hGetAll at 1, visited. cbn [hashes].
  destruct (decide (key = "link:" +:+ id)) as [->|Hne].
  - rewrite lookup_insert_eq. cbn [default from_option]. unfold Datatypes.id.
    now rewrite lookup_insert_ne by congruence.
  - now rewrite lookup_insert_ne by congruence.
Qed.

(** X5. The counter cannot be read as an integer: the visit is appended to
    the log all the same, since both commands are issued before either
    is awaited; no hash changes, and the handler fails instead of
    redirecting. *)
Theorem redirect_with_unreadable_counter (st : Store) (req : Request) (now : Z) :
  Str.startsWith "/api" (path req) = false ->
  link_exists st (params_id req) = true ->
  stored_visitCount st (params_id req) = None ->
  let st' := snd (redirect st req now) in
  fst (redirect st req now) = Rejected
  /\ hashes st' = hashes st
  /\ sets st' = sets st
  /\ visit_log st' (params_id req)
     = visit_log st (params_id req)
       ++ [JSON.stringify_visit (recorded_visit (or_else (user_agent req) "") now)]
  /\ stored_visitCount st' (params_id req) = None.
Proof.
  intros Hp He Hn st'. subst st'.
  rewrite (redirect_failed_counter st req now Hp He Hn). cbn [fst snd].
  repeat apply conj; try reflexivity.
  - apply rPush_log.
  - exact Hn.
Qed.

(** X4. A request without the header User-Agent is recorded like a request
    whose header is empty: with the empty string as user agent, and as
    a desktop visit. *)
Theorem redirect_without_user_agent (st : Store) (path id : string) (now : Z) :
  let req := {| path := path; params_id := id; user_agent := None |} in
  redirect st req now
  = redirect st {| path := path; params_id := id; user_agent := Some "" |} now
  /\ (Str.startsWith "/api" path = false ->
      link_exists st id = true ->
      visit_log (snd (redirect st req now)) id
      = visit_log st id
        ++ [JSON.stringify_visit {| timestamp := ISO.toISOString now;
                                    userAgent := "";
                                    deviceType := desktop |}]).
Proof.
  intros req. split; [reflexivity|].
  intros Hp He.
  destruct (stored_visitCount st id) as [n|] eqn:Hn.
  - rewrite (redirect_found st req now n Hp He Hn). cbn [snd]. apply visited_log.
  - rewrite (redirect_failed_counter st req now Hp He Hn). cbn [snd]. apply rPush_log.
Qed.

Lemma redirect_preserves (st : Store) (req : Request) (now : Z) :
  let st' := snd (redirect st req now) in
  sets st' = sets st
  /\ (forall key field, field <> "visitCount" ->
        Redis.hGetAll st' key !! field = Redis.hGetAll st key !! field)
  /\ (forall id, link_exists st' id = link_exists st id)
  /\ (forall id, id <> params_id req ->
        visit_log st' id = visit_log st id
        /\ hashes st' !! ("link:" +:+ id) = hashes st !! ("link:" +:+ id))
  /\ (exists suffix,
        visit_log st' (params_id req) = visit_log st (params_id req) ++ suffix).
Proof.
  intros st'. subst st'.
  destruct (redirect_cases st req now) as [-> | [(n & _ & Hn & ->) | [_ ->]]]; cbn [snd].
  - repeat apply conj; try reflexivity; [now intros | exists []; now rewrite app_nil_r].
  - repeat apply conj.
    + reflexivity.
    + intros key field Hf. now apply visited_field.
    + intros id. unfold link_exists. now rewrite visited_field.
    + intros id Hne. split; [now apply visited_other_log | now apply visited_other_hash].
    + eexists. apply visited_log.
  - repeat apply conj; try reflexivity.
    + intros id Hne. split; [now apply rPush_other_log | reflexivity].
    + eexists. apply rPush_log.
Qed.

Section redirect_more.
Context `{Platform}.

(** X6. Whatever the request, the redirect route changes nothing but the
    counter and the log of the link it is asked for.  The index, every
    other field of every hash, and with them the existence of every
    link, stay as they were; the log of the link is only ever extended;
    and what the list and the stats routes report for any other link
    is what they reported before. *)
Theorem redirect_keeps_records (st : Store) (req : Request) (now : Z) :
  let st' := snd (redirect st req now) in
  sets st' = sets st
  /\ (forall key field, field <> "visitCount" ->
        Redis.hGetAll st' key !! field = Redis.hGetAll st key !! field)
  /\ (forall id, link_exists st' id = link_exists st id)
  /\ (exists suffix,
        visit_log st' (params_id req) = visit_log st (params_id req) ++ suffix)
  /\ (forall id, id <> params_id req ->
        fetch_link st' id = fetch_link st id
        /\ forall q_start q_end, stats st' id q_start q_end = stats st id q_start q_end).
Proof.
  intros st'.
  destruct (redirect_preserves st req now) as (Hsets & Hfields & Hexists & Hothers & Hsuffix).
  fold st' in Hsets, Hfields, Hexists, Hothers, Hsuffix.
  split; [exact Hsets|]. split; [exact Hfields|].
  split; [exact Hexists|]. split; [exact Hsuffix|].
  intros id Hne. destruct (Hothers id Hne) as [Hl Hh]. split.
  - unfold fetch_link, Redis.hGetAll. now rewrite Hh.
  - intros q_start q_end. apply stats_same_link_and_log.
    + unfold Redis.hGetAll. now rewrite Hh.
    + now rewrite Hl.
Qed.
End redirect_more.

(** ** Sequences of operations: nothing is taken away *)

Section run_more.
Context `{Platform}.

Lemma step_log_extends st op id :
  exists suffix, visit_log (snd (step st op)) id = visit_log st id ++ suffix.
Proof.
  destruct op as [url i now | req now]; cbn [step].
  - exists []. rewrite app_nil_r.
    destruct (create_cases st url i now) as [[body ->] | [l ->]]; reflexivity.
  - destruct (decide (id = params_id req)) as [->|Hne].
    + apply (redirect_preserves st req now).
    + exists []. rewrite app_nil_r.
      now apply (redirect_preserves st req now).
Qed.

Lemma step_keeps_link st op id :
  named_ids [op] -> link_exists st id = true -> link_exists (snd (step st op)) id = true.
Proof.
  intros Hn He. apply Forall_cons in Hn as [Hn _].
  destruct op as [url i now | req now]; cbn [step].
  - destruct (create_cases st url i now) as [[body ->] | [l ->]]; [exact He|].
    cbn [snd]. unfold link_exists. destruct (decide (id = i)) as [->|Hne].
    + destruct (created_fields st url i now) as (-> & _). cbn [falsy].
      apply negb_true_iff. now apply String.eqb_neq.
    + unfold Redis.hGetAll. rewrite created_other_hash by assumption. exact He.
  - rewrite <- He. apply (redirect_preserves st req now).
Qed.

(** X7. Over any sequence of operations the log of a link is only ever
    extended at its end: what it held before is still there, in the
    same order, at its start.  And a link that exists is never removed,
    as long as the generated identifiers are not empty. *)
Theorem run_only_extends (st : Store) (ops : list Op) (id : string) :
  (exists suffix, visit_log (run st ops) id = visit_log st id ++ suffix)
  /\ (named_ids ops -> link_exists st id = true -> link_exists (run st ops) id = true).
Proof.
  revert st. induction ops as [|op ops IH]; intros st.
  - split; [exists []; now rewrite app_nil_r | auto].
  - cbn [run]. destruct (IH (snd (step st op))) as [[s2 Hs2] Hk]. split.
    + destruct (step_log_extends st op id) as [s1 Hs1].
      exists (s1 ++ s2). now rewrite Hs2, Hs1, app_assoc.
    + intros Hn He. apply Forall_cons in Hn as [Hn1 Hn2].
      apply Hk; [exact Hn2|]. apply step_keeps_link; [|exact He].
      now apply Forall_cons.
Qed.
End run_more.

(** ** Stats queries: unknown links, unusable bounds, undated entries *)

Lemma filterM_ext {A} (f g : A -> completion bool) (l : list A) :
  (forall x, f x = g x) -> filterM f l = filterM g l.
Proof.
  intros Hfg. induction l as [|x l IH]; [reflexivity|].
  cbn [filterM]. now rewrite Hfg, IH.
Qed.

Lemma filterM_throw {A} (f : A -> completion bool) (l : list A) :
  (exists x, x ∈ l /\ f x = Throw) -> filterM f l = Throw.
Proof.
  induction l as [|y l IH]; intros (x & Hx & Hf).
  - now apply elem_of_nil in Hx.
  - cbn [filterM]. apply elem_of_cons in Hx as [->|Hx].
    + now rewrite Hf.
    + rewrite IH by eauto. now destruct (f y).
Qed.

Lemma date_lt_invalid (ts : Date) : date_lt ts None = false.
Proof. now destruct ts. Qed.

Lemma string_of_Z_nonempty (n : Z) : Redis.string_of_Z n <> "".
Proof.
  intros E. pose proof (Z_of_string_of_Z n) as Hn. rewrite E in Hn. discriminate.
Qed.

Lemma Z_of_string_inv (s : string) (n : Z) :
  Redis.Z_of_string s = Some n -> s = Redis.string_of_Z n.
Proof.
  unfold Redis.Z_of_string.
  destruct (DecimalString.NilZero.int_of_string s) as [d|]; [|discriminate].
  destruct (String.eqb_spec (Redis.string_of_Z (Z.of_int d)) s) as [E|]; [|discriminate].
  intros [= <-]. now symmetry.
Qed.

Section stats_more.
Context `{Platform}.

Lemma in_range_invalid_start end_ v :
  in_range (Some None) end_ v = in_range None end_ v.
Proof.
  unfold in_range. destruct (visit_date v) as [ts|]; [|reflexivity].
  cbn. now rewrite date_lt_invalid.
Qed.

Lemma in_range_invalid_end start v :
  in_range start (Some None) v = in_range start None v.
Proof.
  unfold in_range. destruct (visit_date v) as [ts|]; [|reflexivity].
  cbn. now destruct (match start with Some s => date_lt ts s | None => false end).
Qed.

Lemma query_date_unusable (s : string) :
  s = "" \/ Date_parse s = None ->
  query_date (Some s) = None \/ query_date (Some s) = Some None.
Proof.
  intros Hs. unfold query_date, falsy.
  destruct (String.eqb_spec s "") as [E|E]; [now left | right].
  destruct Hs as [->|Hp]; [congruence|].
  cbn [Date_of_string]. now rewrite Hp.
Qed.

Lemma parsedVisits_invalid_start visits end_ :
  parsedVisits visits (Some None) end_ = parsedVisits visits None end_.
Proof.
  unfold parsedVisits.
  now rewrite (filterM_ext _ _ _ (in_range_invalid_start end_)).
Qed.

Lemma parsedVisits_invalid_end visits start :
  parsedVisits visits start (Some None) = parsedVisits visits start None.
Proof.
  unfold parsedVisits.
  now rewrite (filterM_ext _ _ _ (in_range_invalid_end start)).
Qed.

(** X8. The stats route answers 404 for an identifier without a link,
    whatever the query and whatever is kept under the identifier's log
    key, and for no other identifier: for a link that exists the answer
    is a 200 or the handler fails. *)
Theorem stats_unknown_link (st : Store) (id : string) (q_start q_end : option string) :
  (link_exists st id = false ->
   stats st id q_start q_end = SendStatus 404 "Link not found.")
  /\ (status_of (stats st id q_start q_end) = Some 404 <-> link_exists st id = false)
  /\ (link_exists st id = true ->
      status_of (stats st id q_start q_end) = Some 200
      \/ stats st id q_start q_end = Rejected).
Proof.
  unfold stats, link_exists.
  destruct (falsy (Redis.hGetAll st ("link:" +:+ id) !! "id")); cbn [negb].
  - repeat split; try reflexivity; discriminate.
  - destruct (parsedVisits _ _ _); cbn [status_of];
      repeat split; try discriminate; auto.
Qed.

(** X9. A bound that is the empty string, or that [Date.parse] does not
    read as a date, bounds nothing: the answer is the one the query
    gives without that bound. *)
Theorem stats_ignores_unusable_bound (st : Store) (id s : string) (q : option string) :
  s = "" \/ Date_parse s = None ->
  stats st id (Some s) q = stats st id None q
  /\ stats st id q (Some s) = stats st id q None.
Proof.
  intros Hs. unfold stats.
  destruct (falsy (Redis.hGetAll st ("link:" +:+ id) !! "id")); [now split|].
  change (query_date None) with (@None Date).
  destruct (query_date_unusable s Hs) as [-> | ->]; [now split|].
  now rewrite parsedVisits_invalid_start, parsedVisits_invalid_end.
Qed.

(** X10. An entry that parses to a truthy value whose timestamp is no valid
    date (it is missing, or is not a date) is inside every window: the
    stats response carries it whatever [start] and [end] are. *)
Theorem stats_keeps_undated_entry (st : Store) (id : string)
    (q_start q_end : option string) (e : string) (v : JsVal) :
  link_exists st id = true ->
  Forall (fun v => visit_date v <> Throw) (decoded (visit_log st id)) ->
  e ∈ visit_log st id ->
  JSON_parse e = Some v ->
  ToBoolean v = true ->
  visit_date v = Normal None ->
  exists vs,
    stats st id q_start q_end
    = SendStats (link_of_data id (Redis.hGetAll st ("link:" +:+ id))) vs
    /\ v ∈ vs.
Proof.
  intros He Hok Hin Hp Hb Hd.
  destruct (stats_window st id q_start q_end He Hok) as (vs & Hvs & Hperm).
  exists vs. split; [exact Hvs|].
  rewrite Hperm. apply list_elem_of_filter. split.
  - unfold date_or_invalid. rewrite Hd.
    unfold in_window, before, after_day.
    destruct (query_date q_start), (query_date q_end); split; auto.
  - apply elem_of_decoded. split; [exact Hb|].
    exists e. split; [exact Hin|]. unfold parse_entry. now rewrite Hp.
Qed.

Lemma valid_date_converts l :
  Forall (fun v => is_Some (date_or_invalid v)) l ->
  Forall (fun v => visit_date v <> Throw) l.
Proof.
  intros Hl. eapply Forall_impl; [exact Hl|]. intros v [d Hd] E.
  unfold date_or_invalid in Hd. rewrite E in Hd. discriminate.
Qed.

(** X12. When every decoded entry has a valid timestamp, the visits of the
    stats response are ordered newest first, and visits with the same
    timestamp keep the order of the log. *)
Theorem stats_newest_first (st : Store) (id : string) (q_start q_end : option string) :
  link_exists st id = true ->
  Forall (fun v => is_Some (date_or_invalid v)) (decoded (visit_log st id)) ->
  exists vs,
    stats st id q_start q_end
    = SendStats (link_of_data id (Redis.hGetAll st ("link:" +:+ id))) vs
    /\ StronglySorted
         (fun a b => newer_or_equal (date_or_invalid a) (date_or_invalid b)) vs
    /\ (forall k,
          filter (fun v => date_or_invalid v = k) vs
          = filter (fun v => date_or_invalid v = k)
              (filter (fun v => in_window (query_date q_start) (query_date q_end)
                                          (date_or_invalid v))
                      (decoded (visit_log st id)))).
Proof.
  intros He Hvalid.
  destruct (parsedVisits_spec (visit_log st id) (query_date q_start) (query_date q_end))
    as (vs & Hvs & _ & Hstable & Hsorted);
    [apply query_date_clipped | now apply valid_date_converts |].
  exists vs. rewrite (stats_found st id q_start q_end He), Hvs. auto.
Qed.

Lemma converts_or_throws (l : list JsVal) :
  Forall (fun v => visit_date v <> Throw) l
  \/ exists v, v ∈ l /\ visit_date v = Throw.
Proof.
  induction l as [|x l [IH | (v & Hv & Ht)]].
  - left. constructor.
  - destruct (visit_date x) as [d|] eqn:E.
    + left. constructor; [congruence | exact IH].
    + right. exists x. split; [left | exact E].
  - right. exists v. split; [now right | exact Ht].
Qed.

(** X13. The stats route fails on an existing link exactly when the log holds
    an entry that parses to a truthy value whose timestamp cannot be
    converted to a date: one such entry makes every query on the link
    fail, whatever the window. *)
Theorem stats_rejected_iff (st : Store) (id : string) (q_start q_end : option string) :
  link_exists st id = true ->
  stats st id q_start q_end = Rejected
  <-> exists v, v ∈ decoded (visit_log st id) /\ visit_date v = Throw.
Proof.
  intros He. split.
  - intros Hr. destruct (converts_or_throws (decoded (visit_log st id))) as [Hok|Hex];
      [|exact Hex].
    destruct (stats_window st id q_start q_end He Hok) as (vs & Hvs & _).
    rewrite Hvs in Hr. discriminate.
  - intros (v & Hv & Ht). rewrite (stats_found st id q_start q_end He).
    unfold parsedVisits. fold (decoded (visit_log st id)).
    rewrite filterM_throw; [reflexivity|].
    exists v. split; [exact Hv|]. unfold in_range. now rewrite Ht.
Qed.
End stats_more.

(** ** The stores that the routes produce, continued *)

Section produced_more.
Context `{Platform}.

Lemma dated_logs_empty : dated_logs empty_store.
Proof. intros key entries. unfold empty_store. cbn. now rewrite lookup_empty. Qed.

Lemma dated_logs_push st st' id ua t :
  lists st'
  = <["visits:" +:+ id := visit_log st id ++ [JSON.stringify_visit (recorded_visit ua t)]]>
      (lists st) ->
  Z.abs t <= 8640000000000000 ->
  dated_logs st -> dated_logs st'.
Proof.
  intros Hl Ht Hd key entries. rewrite Hl.
  destruct (decide (key = "visits:" +:+ id)) as [->|Hne].
  - rewrite lookup_insert_eq. intros E.
    apply (f_equal (default [])) in E. cbn [default from_option] in E.
    unfold Datatypes.id in E. subst entries.
    apply Forall_app. split; [|repeat constructor; eauto].
    unfold visit_log, Redis.lRange_all.
    destruct (lists st !! ("visits:" +:+ id)) as [es|] eqn:Ees; cbn [default from_option].
    + exact (Hd _ _ Ees).
    + constructor.
  - rewrite lookup_insert_ne by congruence. apply Hd.
Qed.

Lemma dated_logs_step st op :
  Z.abs (time_of op) <= 8640000000000000 ->
  dated_logs st -> dated_logs (snd (step st op)).
Proof.
  intros Ht Hd. destruct op as [url id now | req now]; cbn [step time_of] in *.
  - destruct (create_cases st url id now) as [[body ->] | [l ->]]; exact Hd.
  - destruct (redirect_cases st req now) as [-> | [(n & _ & _ & ->) | [_ ->]]];
      cbn [snd]; [exact Hd | |];
      eapply dated_logs_push; try eassumption; reflexivity.
Qed.

Lemma dated_logs_run st ops :
  clock_in_range ops -> dated_logs st -> dated_logs (run st ops).
Proof.
  revert st; induction ops as [|op ops IH]; intros st Hc Hd; [exact Hd|].
  apply Forall_cons in Hc as [Ht Hc]. cbn [run]. apply IH; [exact Hc|].
  now apply dated_logs_step.
Qed.

(** In a store whose logs the redirect route wrote with a clock in
    range, every decoded entry has a valid date. *)
Lemma dated_logs_valid st id :
  reads_back H -> dated_logs st ->
  Forall (fun v => is_Some (date_or_invalid v)) (decoded (visit_log st id)).
Proof.
  intros [Hjson Hdate] Hd. apply Forall_forall. intros v Hv.
  apply elem_of_decoded in Hv as [_ (e & He & <-)].
  unfold visit_log, Redis.lRange_all in He.
  destruct (lists st !! ("visits:" +:+ id)) as [es|] eqn:E; cbn in He;
    [|now apply elem_of_nil in He].
  pose proof (Hd _ _ E) as Hes. rewrite Forall_forall in Hes.
  destruct (Hes e He) as (ua & t & Ht & ->).
  unfold parse_entry. rewrite Hjson.
  unfold date_or_invalid. rewrite visit_date_visit_value.
  cbn [timestamp recorded_visit Date_of_string]. rewrite (Hdate t Ht).
  unfold TimeClip. apply Z.leb_le in Ht. rewrite Ht. eauto.
Qed.

(** X15. From the empty store, on a platform that reads back what the routes
    write and with a clock in range, the stats route answers with the
    visits newest first, for every window. *)
Theorem stats_after_run_newest_first (ops : list Op) (id : string)
    (q_start q_end : option string) :
  reads_back H ->
  clock_in_range ops ->
  link_exists (run empty_store ops) id = true ->
  exists vs,
    stats (run empty_store ops) id q_start q_end
    = SendStats (link_of_data id (Redis.hGetAll (run empty_store ops) ("link:" +:+ id))) vs
    /\ StronglySorted
         (fun a b => newer_or_equal (date_or_invalid a) (date_or_invalid b)) vs.
Proof.
  intros Hrb Hc He.
  destruct (parsedVisits_spec (visit_log (run empty_store ops) id)
              (query_date q_start) (query_date q_end))
    as (vs & Hvs & _ & _ & Hsorted).
  - apply query_date_clipped.
  - apply valid_date_converts, dated_logs_valid; [exact Hrb|].
    apply dated_logs_run; [exact Hc | apply dated_logs_empty].
  - exists vs. rewrite (stats_found _ id q_start q_end He), Hvs.
    split; [reflexivity|]. apply Hsorted, dated_logs_valid; [exact Hrb|].
    apply dated_logs_run; [exact Hc | apply dated_logs_empty].
Qed.

Lemma decoded_recorded_length (entries : list string) :
  reads_back H ->
  Forall (fun e => exists v, e = JSON.stringify_visit v) entries ->
  length (decoded entries) = length entries.
Proof.
  intros [Hjson _]. induction 1 as [|e es [v ->] _ IH]; [reflexivity|].
  unfold decoded in *. cbn [map List.filter]. unfold parse_entry at 1.
  rewrite Hjson. cbn [ToBoolean visit_value length]. now rewrite IH.
Qed.

(** The counter that the responses carry, in a store where the counter
    of the hash is the length of the log. *)
Lemma reported_count st id :
  reads_counters H -> consistent st -> link_exists st id = true ->
  Link.visitCount (link_of_data id (Redis.hGetAll st ("link:" +:+ id)))
  = Dec (Z.of_nat (length (visit_log st id))) 0.
Proof.
  intros Hnum Hc He. pose proof (Hc id) as Hid.
  destruct (link_exists_hash _ _ He) as [h Hh]. rewrite Hh in Hid.
  unfold link_of_data. cbn [Link.visitCount].
  unfold stored_visitCount in Hid.
  destruct (Redis.hGetAll st ("link:" +:+ id) !! "visitCount") as [s|].
  - apply Z_of_string_inv in Hid. subst s.
    unfold Number_or_zero. cbn [falsy default from_option].
    pose proof (string_of_Z_nonempty (Z.of_nat (length (visit_log st id)))) as Hs.
    apply String.eqb_neq in Hs. rewrite Hs. apply Hnum. lia.
  - injection Hid as Hid. rewrite <- Hid. reflexivity.
Qed.

(** X16. From the empty store, with generated identifiers that are new, the
    counter in the stats response is the number of visits that the
    response carries when the query has no bounds: the length of the
    link's log. *)
Theorem stats_count_matches_visits (ops : list Op) (id : string) :
  reads_back H ->
  reads_counters H ->
  fresh_ids empty_store ops ->
  link_exists (run empty_store ops) id = true ->
  exists l vs,
    stats (run empty_store ops) id None None = SendStats l vs
    /\ Link.visitCount l = Dec (Z.of_nat (length vs)) 0
    /\ length vs = length (visit_log (run empty_store ops) id).
Proof.
  intros Hrb Hnum Hf He.
  assert (Hr : recorded_logs (run empty_store ops))
    by apply recorded_logs_run, recorded_logs_empty.
  destruct (stats_window (run empty_store ops) id None None He) as (vs & Hvs & Hperm).
  { now apply recorded_logs_convert. }
  assert (Hlen : length vs = length (visit_log (run empty_store ops) id)).
  { rewrite Hperm. change (query_date None) with (@None Date).
    rewrite filter_no_bounds. apply decoded_recorded_length; [exact Hrb|].
    unfold visit_log, Redis.lRange_all.
    destruct (lists (run empty_store ops) !! ("visits:" +:+ id)) as [es|] eqn:E;
      cbn [default from_option]; [exact (Hr _ _ E) | constructor]. }
  exists (link_of_data id (Redis.hGetAll (run empty_store ops) ("link:" +:+ id))), vs.
  split; [exact Hvs|]. split; [|exact Hlen].
  rewrite Hlen. apply reported_count; [exact Hnum | | exact He].
  apply run_consistent; [apply consistent_empty | exact Hf].
Qed.
End produced_more.

(** ** The index and the records *)

Section indexed.
Context `{Platform}.

Lemma indexed_links_empty : indexed_links empty_store.
Proof.
  split.
  - intros key h. unfold empty_store. cbn. now rewrite lookup_empty.
  - intros id. unfold index, empty_store. cbn. rewrite lookup_empty. cbn. set_solver.
Qed.

Lemma indexed_links_created st url id now :
  indexed_links st -> indexed_links (created st url id now).
Proof.
  intros [HJ HK]. split.
  - intros key h. rewrite created_index.
    destruct (decide (key = "link:" +:+ id)) as [->|Hne].
    + intros Eh. exists id. split; [reflexivity|].
      pose proof (created_fields st url id now) as (Hid & _).
      unfold Redis.hGetAll in Hid. rewrite Eh in Hid. split; [exact Hid|].
      apply elem_of_union. left. now apply elem_of_singleton.
    + unfold created, Redis.sAdd, Redis.hSet. cbn [hashes].
      rewrite lookup_insert_ne by congruence. intros Eh.
      destruct (HJ _ _ Eh) as (i & -> & Hid & Hin). exists i.
      split; [reflexivity|]. split; [exact Hid|]. apply elem_of_union. now right.
  - intros i. rewrite created_index. intros Hi.
    destruct (decide (i = id)) as [->|Hne]; [apply created_hash|].
    rewrite created_other_hash by assumption. apply HK.
    apply elem_of_union in Hi as [Hi|Hi]; [|exact Hi].
    apply elem_of_singleton in Hi. contradiction.
Qed.

Lemma indexed_links_visited st id n entry :
  link_exists st id = true ->
  indexed_links st -> indexed_links (visited st id n entry).
Proof.
  intros He [HJ HK]. destruct (link_exists_hash _ _ He) as [h0 Hh0]. split.
  - intros key h. unfold visited at 1. cbn [hashes].
    destruct (decide (key = "link:" +:+ id)) as [->|Hne].
    + rewrite lookup_insert_eq. intros Eh.
      apply (f_equal (default ∅)) in Eh. cbn [default from_option] in Eh.
      unfold Datatypes.id in Eh. subst h.
      destruct (HJ _ _ Hh0) as (i & Ei & Hi & Hin). exists i.
      split; [exact Ei|]. split; [|exact Hin].
      rewrite lookup_insert_ne by discriminate.
      unfold Redis.hGetAll. rewrite Hh0. exact Hi.
    + rewrite lookup_insert_ne by congruence. apply HJ.
  - intros i Hi. destruct (decide (i = id)) as [->|Hne].
    + unfold visited. cbn [hashes]. rewrite lookup_insert_eq. eauto.
    + rewrite visited_other_hash by assumption. now apply HK.
Qed.

Lemma indexed_links_step st op : indexed_links st -> indexed_links (snd (step st op)).
Proof.
  intros Hi. destruct op as [url id now | req now]; cbn [step].
  - destruct (create_cases st url id now) as [[body ->] | [l ->]];
      [exact Hi | now apply indexed_links_created].
  - destruct (redirect_cases st req now) as [-> | [(n & He & _ & ->) | [_ ->]]];
      cbn [snd]; [exact Hi | now apply indexed_links_visited | exact Hi].
Qed.

Lemma indexed_links_run st ops : indexed_links st -> indexed_links (run st ops).
Proof.
  revert st; induction ops as [|op ops IH]; intros st Hi; [exact Hi|].
  cbn [run]. apply IH. now apply indexed_links_step.
Qed.

(** A hash under the key of [i] names [i]. *)
Lemma indexed_links_id st i h :
  indexed_links st -> hashes st !! ("link:" +:+ i) = Some h -> h !! "id" = Some i.
Proof.
  intros [HJ _] Eh. destruct (HJ _ _ Eh) as (i' & Ei & Hi & _).
  apply link_key_inj in Ei. now subst i'.
Qed.

Lemma fetch_link_indexed st i l :
  indexed_links st -> fetch_link st i = Some l ->
  Link.id l = i /\ link_exists st i = true
  /\ l = link_of_data i (Redis.hGetAll st ("link:" +:+ i)).
Proof.
  intros Hi. unfold fetch_link, link_exists.
  destruct (falsy (Redis.hGetAll st ("link:" +:+ i) !! "id")) eqn:Ef; [discriminate|].
  intros E. apply (f_equal (default l)) in E. cbn [default from_option] in E.
  unfold Datatypes.id in E. subst l. repeat split.
  unfold link_of_data. cbn [Link.id].
  unfold Redis.hGetAll in *.
  destruct (hashes st !! ("link:" +:+ i)) as [h|] eqn:Eh; cbn [default from_option] in *.
  - unfold Datatypes.id. now rewrite (indexed_links_id st i h Hi Eh).
  - unfold Datatypes.id in Ef. rewrite lookup_empty in Ef. discriminate.
Qed.

Lemma fetch_link_of_index st i :
  indexed_links st -> i ∈ index st ->
  exists l, Link.id l = i
            /\ fetch_link st i = if String.eqb i "" then None else Some l.
Proof.
  intros [HJ HK] Hin. destruct (HK i Hin) as [h Eh].
  pose proof (indexed_links_id st i h (conj HJ HK) Eh) as Hid.
  exists (link_of_data i h). split.
  - unfold link_of_data. cbn [Link.id]. now rewrite Hid.
  - unfold fetch_link, Redis.hGetAll. rewrite Eh.
    cbn [default from_option]. unfold Datatypes.id. now rewrite Hid.
Qed.

Lemma fetched_ids st ids :
  indexed_links st ->
  Forall (fun i => i ∈ index st) ids ->
  map Link.id (filter_Boolean (map (fetch_link st) ids)) = filter (fun i => i <> "") ids.
Proof.
  intros Hi. induction 1 as [|i ids Hin _ IH]; [reflexivity|].
  destruct (fetch_link_of_index st i Hi Hin) as (l & Hl & Hf).
  change (map Link.id (filter_Boolean (map (fetch_link st) (i :: ids))))
    with (map Link.id
            (match fetch_link st i with
             | Some x => x :: filter_Boolean (map (fetch_link st) ids)
             | None => filter_Boolean (map (fetch_link st) ids)
             end)).
  rewrite Hf, filter_cons.
  destruct (String.eqb_spec i "") as [E|E].
  - rewrite decide_False by (intros Hne; now apply Hne). exact IH.
  - rewrite decide_True by exact E. cbn [map]. now rewrite Hl, IH.
Qed.

(** X18. From the empty store, on a platform that reads back what the routes
    write and with a clock in range, the list route answers with one
    link for each identifier of the index that is not empty, under
    that identifier, and with the links newest first, whatever the
    order of the reply to SMEMBERS. *)
Theorem list_after_run_complete (ops : list Op) (ids : list string) :
  reads_back H ->
  clock_in_range ops ->
  Redis.sMembers (run empty_store ops) linksSetKey ids ->
  exists ls,
    list_links (run empty_store ops) ids = SendLinks ls
    /\ StronglySorted (fun a b => newer_or_equal (created_date a) (created_date b)) ls
    /\ map Link.id ls ≡ₚ filter (fun i => i <> "") ids
    /\ NoDup (map Link.id ls).
Proof.
  intros Hrb Hc [Hnd Hmem].
  destruct (list_links_spec (run empty_store ops) ids) as (ls & Hls & Hperm & _ & Hsorted).
  assert (Hids : map Link.id ls ≡ₚ filter (fun i => i <> "") ids).
  { rewrite <- (fetched_ids (run empty_store ops) ids).
    - now apply Permutation_map.
    - apply indexed_links_run, indexed_links_empty.
    - apply Forall_forall. intros i Hi. now apply Hmem. }
  exists ls. repeat apply conj; [exact Hls | | exact Hids |].
  - apply Hsorted, dated_links_valid; [exact Hrb|].
    apply dated_links_run; [exact Hc | apply dated_links_empty].
  - rewrite Hids. now apply NoDup_filter.
Qed.

(** X19. From the empty store, with generated identifiers that are new, every
    link of the list carries as its counter the number of visits in the
    log of its identifier. *)
Theorem list_counts_match_logs (ops : list Op) (ids : list string) :
  reads_counters H ->
  fresh_ids empty_store ops ->
  exists ls,
    list_links (run empty_store ops) ids = SendLinks ls
    /\ forall l, l ∈ ls ->
         Link.visitCount l
         = Dec (Z.of_nat (length (visit_log (run empty_store ops) (Link.id l)))) 0.
Proof.
  intros Hnum Hf.
  destruct (list_links_spec (run empty_store ops) ids) as (ls & Hls & Hperm & _).
  exists ls. split; [exact Hls|]. intros l Hl.
  rewrite Hperm in Hl. apply elem_of_filter_Boolean, elem_of_map in Hl as (i & Hl & _).
  symmetry in Hl.
  destruct (fetch_link_indexed _ i l (indexed_links_run _ ops indexed_links_empty) Hl)
    as (Hid & He & ->).
  rewrite Hid. apply reported_count; [exact Hnum | | exact He].
  apply run_consistent; [apply consistent_empty | exact Hf].
Qed.
End indexed.

(** ** The further properties on concrete stores *)

Lemma Ref_reads_counters (base : string) : reads_counters (Ref.platform base).
Proof.
  intros n _. cbn [Number_of_string Ref.platform]. unfold Ref.number_of_string.
  pose proof (string_of_Z_nonempty n) as Hs. apply String.eqb_neq in Hs.
  now rewrite Hs, Z_of_string_of_Z.
Qed.

Lemma three_ops_run :
  run (H := Example.platform) empty_store Scenario.three_ops = Example.three_visits.
Proof. reflexivity. Qed.

Lemma three_ops_fresh : fresh_ids (H := Example.platform) empty_store Scenario.three_ops.
Proof. vm_compute. repeat split. Qed.

Lemma three_ops_clock : clock_in_range Scenario.three_ops.
Proof. repeat constructor; cbn; lia. Qed.

Lemma three_visits_exists :
  link_exists (run (H := Example.platform) empty_store Scenario.three_ops) "k3Yq9wZ" = true.
Proof. vm_compute. reflexivity. Qed.

(** An https URL is accepted into the store of the two links. *)
Lemma create_writes_link_witness :
  URL_protocol (Platform := Example.platform) "https://example.com/landing" = Some "https:"
  /\ stored_visitCount
       (snd (create (H := Example.platform) Example.two_links
               "https://example.com/landing" "k3Yq9wZ" 1704000000000)) "k3Yq9wZ"
     = Some 0.
Proof.
  assert (E : URL_protocol (Platform := Example.platform) "https://example.com/landing"
              = Some "https:") by (vm_compute; reflexivity).
  split; [exact E|].
  destruct (create_writes_link (H := Example.platform) Example.two_links
              "https://example.com/landing" "k3Yq9wZ" 1704000000000 "https:"
              E (or_intror eq_refl)) as (_ & _ & _ & _ & _ & _ & Hc & _).
  exact Hc.
Defined.

(** The first link of an empty store, listed right after its creation. *)
Lemma created_link_reads_back_witness :
  Number_of_string (Platform := Example.platform) "0" = Dec 0 0
  /\ fst (create (H := Example.platform) empty_store
            "https://example.com/landing" "k3Yq9wZ" 1704000000000)
     = SendLink Scenario.fresh_landing
  /\ list_links (H := Example.platform)
       (snd (create (H := Example.platform) empty_store
               "https://example.com/landing" "k3Yq9wZ" 1704000000000)) ["k3Yq9wZ"]
     = SendLinks [Scenario.fresh_landing].
Proof.
  assert (Hn : Number_of_string (Platform := Example.platform) "0" = Dec 0 0)
    by reflexivity.
  assert (Hl : fst (create (H := Example.platform) empty_store
                      "https://example.com/landing" "k3Yq9wZ" 1704000000000)
               = SendLink Scenario.fresh_landing) by (vm_compute; reflexivity).
  assert (Hid : "k3Yq9wZ" <> "") by discriminate.
  split; [exact Hn|]. split; [exact Hl|].
  exact (proj1 (proj2 (created_link_reads_back (H := Example.platform) empty_store
                         "https://example.com/landing" "k3Yq9wZ" 1704000000000
                         Scenario.fresh_landing Hn Hid Hl))).
Defined.

(** A visit of the link whose counter reads [many]. *)
Lemma redirect_with_unreadable_counter_witness :
  link_exists Scenario.corrupt_counter "k3Yq9wZ" = true
  /\ stored_visitCount Scenario.corrupt_counter "k3Yq9wZ" = None
  /\ fst (redirect Scenario.corrupt_counter
            (Example.get "k3Yq9wZ" Example.iphone) 1704844860000) = Rejected
  /\ length (visit_log
               (snd (redirect Scenario.corrupt_counter
                       (Example.get "k3Yq9wZ" Example.iphone) 1704844860000)) "k3Yq9wZ")
     = 3%nat.
Proof.
  assert (Hp : Str.startsWith "/api" (path (Example.get "k3Yq9wZ" Example.iphone)) = false)
    by reflexivity.
  assert (He : link_exists Scenario.corrupt_counter
                 (params_id (Example.get "k3Yq9wZ" Example.iphone)) = true)
    by (vm_compute; reflexivity).
  assert (Hn : stored_visitCount Scenario.corrupt_counter
                 (params_id (Example.get "k3Yq9wZ" Example.iphone)) = None)
    by (vm_compute; reflexivity).
  destruct (redirect_with_unreadable_counter Scenario.corrupt_counter
              (Example.get "k3Yq9wZ" Example.iphone) 1704844860000 Hp He Hn)
    as (Hr & _ & _ & Hlog & _).
  split; [exact He|]. split; [exact Hn|]. split; [exact Hr|].
  cbn [params_id Example.get] in Hlog. rewrite Hlog, length_app.
  assert (E : length (visit_log Scenario.corrupt_counter "k3Yq9wZ") = 2%nat)
    by (vm_compute; reflexivity).
  now rewrite E.
Defined.

(** A start bound that is no date. *)
Lemma stats_ignores_unusable_bound_witness :
  Date_parse (Platform := Example.platform) "yesterday" = None
  /\ stats (H := Example.platform) Example.three_visits "k3Yq9wZ" (Some "yesterday") None
     = stats (H := Example.platform) Example.three_visits "k3Yq9wZ" None None.
Proof.
  assert (Hp : Date_parse (Platform := Example.platform) "yesterday" = None)
    by (vm_compute; reflexivity).
  split; [exact Hp|].
  exact (proj1 (stats_ignores_unusable_bound (H := Example.platform)
                  Example.three_visits "k3Yq9wZ" "yesterday" None (or_intror Hp))).
Defined.

Lemma with_number_decoded :
  decoded (H := Example.platform) (visit_log Scenario.with_number "k3Yq9wZ")
  = [Example.first_visit; Example.second_visit; Scenario.undated].
Proof. vm_compute. reflexivity. Qed.

(** The entry [7] is in the answer to a query that starts in 2030. *)
Lemma stats_keeps_undated_entry_witness :
  link_exists Scenario.with_number "k3Yq9wZ" = true
  /\ JSON_parse (Platform := Example.platform) "7" = Some Scenario.undated
  /\ exists vs,
      stats (H := Example.platform) Scenario.with_number "k3Yq9wZ" (Some "2030-01-01") None
      = SendStats
          (link_of_data (H := Example.platform) "k3Yq9wZ"
             (Redis.hGetAll Scenario.with_number "link:k3Yq9wZ")) vs
      /\ Scenario.undated ∈ vs.
Proof.
  assert (He : link_exists Scenario.with_number "k3Yq9wZ" = true)
    by (vm_compute; reflexivity).
  assert (Hok : Forall (fun v => visit_date (H := Example.platform) v <> Throw)
                  (decoded (H := Example.platform) (visit_log Scenario.with_number "k3Yq9wZ"))).
  { rewrite with_number_decoded. repeat constructor; vm_compute; discriminate. }
  assert (Hlog : visit_log Scenario.with_number "k3Yq9wZ"
                 = [Example.first_entry; Example.second_entry; "7"])
    by (vm_compute; reflexivity).
  assert (Hin : "7" ∈ visit_log Scenario.with_number "k3Yq9wZ").
  { rewrite Hlog. do 2 apply list_elem_of_further. apply list_elem_of_here. }
  assert (Hp : JSON_parse (Platform := Example.platform) "7" = Some Scenario.undated)
    by (vm_compute; reflexivity).
  split; [exact He|]. split; [exact Hp|].
  exact (stats_keeps_undated_entry (H := Example.platform) Scenario.with_number "k3Yq9wZ"
           (Some "2030-01-01") None "7" Scenario.undated He Hok Hin Hp eq_refl eq_refl).
Defined.

Lemma three_visits_dated :
  Forall (fun v => is_Some (date_or_invalid (H := Example.platform) v))
         (decoded (H := Example.platform) (visit_log Example.three_visits "k3Yq9wZ")).
Proof.
  assert (E : decoded (H := Example.platform) (visit_log Example.three_visits "k3Yq9wZ")
              = [Example.first_visit; Example.second_visit; Example.third_visit])
    by (vm_compute; reflexivity).
  rewrite E. repeat constructor; vm_compute; eauto.
Qed.

(** The three visits of the example, newest first. *)
Lemma stats_newest_first_witness :
  link_exists Example.three_visits "k3Yq9wZ" = true
  /\ exists vs,
      stats (H := Example.platform) Example.three_visits "k3Yq9wZ" None None
      = SendStats
          (link_of_data (H := Example.platform) "k3Yq9wZ"
             (Redis.hGetAll Example.three_visits "link:k3Yq9wZ")) vs
      /\ StronglySorted
           (fun a b => newer_or_equal (date_or_invalid (H := Example.platform) a)
                                      (date_or_invalid (H := Example.platform) b)) vs.
Proof.
  assert (He : link_exists Example.three_visits "k3Yq9wZ" = true)
    by (vm_compute; reflexivity).
  split; [exact He|].
  destruct (stats_newest_first (H := Example.platform) Example.three_visits "k3Yq9wZ"
              None None He three_visits_dated) as (vs & Hvs & Hs & _).
  exists vs. split; assumption.
Defined.

(** One entry whose timestamp cannot be converted: the query fails. *)
Lemma stats_rejected_iff_witness :
  link_exists (Example.with_entry Example.unconvertible_entry) "k3Yq9wZ" = true
  /\ stats (H := Example.platform) (Example.with_entry Example.unconvertible_entry)
       "k3Yq9wZ" (Some "2024-01-02") None
     = Rejected.
Proof.
  assert (He : link_exists (Example.with_entry Example.unconvertible_entry) "k3Yq9wZ" = true)
    by (vm_compute; reflexivity).
  split; [exact He|].
  apply (stats_rejected_iff (H := Example.platform)
           (Example.with_entry Example.unconvertible_entry) "k3Yq9wZ"
           (Some "2024-01-02") None He).
  exists Scenario.unconvertible. split.
  - assert (E : decoded (H := Example.platform)
                  (visit_log (Example.with_entry Example.unconvertible_entry) "k3Yq9wZ")
                = [Example.first_visit; Scenario.unconvertible; Example.second_visit])
      by (vm_compute; reflexivity).
    rewrite E. apply list_elem_of_further, list_elem_of_here.
  - vm_compute. reflexivity.
Defined.

(** The three visits of the example, read back. *)
Lemma stats_after_run_witness :
  reads_back Example.platform
  /\ link_exists (run (H := Example.platform) empty_store Scenario.three_ops) "k3Yq9wZ" = true
  /\ exists vs,
      stats (H := Example.platform) (run (H := Example.platform) empty_store Scenario.three_ops)
        "k3Yq9wZ" (Some "2024-01-02") (Some "2024-01-05")
      = SendStats
          (link_of_data (H := Example.platform) "k3Yq9wZ"
             (Redis.hGetAll (run (H := Example.platform) empty_store Scenario.three_ops)
                "link:k3Yq9wZ")) vs.
Proof.
  split; [apply Ref_reads_back|]. split; [exact three_visits_exists|].
  destruct (stats_after_run (H := Example.platform) Scenario.three_ops "k3Yq9wZ"
              (Some "2024-01-02") (Some "2024-01-05")
              (Ref_reads_back _) three_visits_exists) as (vs & Hvs & _).
  exists vs. exact Hvs.
Defined.

Lemma stats_after_run_newest_first_witness :
  clock_in_range Scenario.three_ops
  /\ exists vs,
      stats (H := Example.platform) (run (H := Example.platform) empty_store Scenario.three_ops)
        "k3Yq9wZ" None None
      = SendStats
          (link_of_data (H := Example.platform) "k3Yq9wZ"
             (Redis.hGetAll (run (H := Example.platform) empty_store Scenario.three_ops)
                "link:k3Yq9wZ")) vs
      /\ StronglySorted
           (fun a b => newer_or_equal (date_or_invalid (H := Example.platform) a)
                                      (date_or_invalid (H := Example.platform) b)) vs.
Proof.
  split; [exact three_ops_clock|].
  exact (stats_after_run_newest_first (H := Example.platform) Scenario.three_ops "k3Yq9wZ"
           None None (Ref_reads_back _) three_ops_clock three_visits_exists).
Defined.

(** Three visits recorded, three visits reported. *)
Lemma stats_count_matches_visits_witness :
  fresh_ids (H := Example.platform) empty_store Scenario.three_ops
  /\ exists l vs,
      stats (H := Example.platform) (run (H := Example.platform) empty_store Scenario.three_ops)
        "k3Yq9wZ" None None = SendStats l vs
      /\ Link.visitCount l = Dec (Z.of_nat (length vs)) 0.
Proof.
  split; [exact three_ops_fresh|].
  destruct (stats_count_matches_visits (H := Example.platform) Scenario.three_ops "k3Yq9wZ"
              (Ref_reads_back _) (Ref_reads_counters _) three_ops_fresh three_visits_exists)
    as (l & vs & Hvs & Hc & _).
  exists l, vs. split; assumption.
Defined.

Lemma two_ops_clock : clock_in_range Scenario.two_ops.
Proof. repeat constructor; cbn; lia. Qed.

(** The two links of the example, from a reply that names the second
    first. *)
Lemma list_after_run_complete_witness :
  Redis.sMembers (run (H := Example.platform) empty_store Scenario.two_ops) linksSetKey
    ["b7Hk2Lx"; "Zq8rT1a"]
  /\ exists ls,
      list_links (H := Example.platform)
        (run (H := Example.platform) empty_store Scenario.two_ops) ["b7Hk2Lx"; "Zq8rT1a"]
      = SendLinks ls
      /\ NoDup (map Link.id ls).
Proof.
  split; [exact two_links_reply|].
  destruct (list_after_run_complete (H := Example.platform) Scenario.two_ops
              ["b7Hk2Lx"; "Zq8rT1a"] (Ref_reads_back _) two_ops_clock two_links_reply)
    as (ls & Hls & _ & _ & Hnd).
  exists ls. split; assumption.
Defined.

Lemma list_counts_match_logs_witness :
  fresh_ids (H := Example.platform) empty_store Scenario.three_ops
  /\ exists ls,
      list_links (H := Example.platform)
        (run (H := Example.platform) empty_store Scenario.three_ops) ["k3Yq9wZ"]
      = SendLinks ls
      /\ forall l, l ∈ ls ->
           Link.visitCount l
           = Dec (Z.of_nat
                    (length (visit_log
                               (run (H := Example.platform) empty_store Scenario.three_ops)
                               (Link.id l)))) 0.
Proof.
  split; [exact three_ops_fresh|].
  exact (list_counts_match_logs (H := Example.platform) Scenario.three_ops ["k3Yq9wZ"]
           (Ref_reads_counters _) three_ops_fresh).
Defined.

(** ** The window of a stats query, as an interval *)

Section window.
Context `{Platform}.

(** X11. With both bounds given and valid, a visit with a valid timestamp is
    in the stats response exactly when its time lies between the start
    bound and the end bound plus one day, both ends included: a visit
    at the very first instant of the day after [end] is still inside. *)
Theorem stats_window_is_closed_interval (st : Store) (id : string)
    (q_start q_end : option string) (s e t : Z) (v : JsVal) :
  link_exists st id = true ->
  Forall (fun v => visit_date v <> Throw) (decoded (visit_log st id)) ->
  query_date q_start = Some (Some s) ->
  query_date q_end = Some (Some e) ->
  v ∈ decoded (visit_log st id) ->
  date_or_invalid v = Some t ->
  exists vs,
    stats st id q_start q_end
    = SendStats (link_of_data id (Redis.hGetAll st ("link:" +:+ id))) vs
    /\ (v ∈ vs <-> s <= t <= e + msPerDay).
Proof.
  intros He Hok Hs Hend Hv Ht.
  destruct (stats_window st id q_start q_end He Hok) as (vs & Hvs & Hperm).
  exists vs. split; [exact Hvs|].
  rewrite Hperm, list_elem_of_filter, Hs, Hend, Ht.
  unfold in_window, before, after_day. split.
  - intros [[H1 H2] _]. lia.
  - intros Hr. split; [split; lia | exact Hv].
Qed.
End window.

Lemma midnight_decoded :
  decoded (H := Example.platform)
    (visit_log (run (H := Example.platform) empty_store Scenario.midnight_ops) "k3Yq9wZ")
  = [Scenario.midnight_visit].
Proof. vm_compute. reflexivity. Qed.

(** A visit at 2024-01-06T00:00:00.000Z is inside the window that ends
    on 2024-01-05. *)
Lemma stats_window_is_closed_interval_witness :
  query_date (H := Example.platform) (Some "2024-01-05") = Some (Some 1704412800000)
  /\ date_or_invalid (H := Example.platform) Scenario.midnight_visit
     = Some (1704412800000 + msPerDay)
  /\ exists vs,
      stats (H := Example.platform)
        (run (H := Example.platform) empty_store Scenario.midnight_ops) "k3Yq9wZ"
        (Some "2024-01-01") (Some "2024-01-05")
      = SendStats
          (link_of_data (H := Example.platform) "k3Yq9wZ"
             (Redis.hGetAll (run (H := Example.platform) empty_store Scenario.midnight_ops)
                "link:k3Yq9wZ")) vs
      /\ Scenario.midnight_visit ∈ vs.
Proof.
  assert (He : link_exists (run (H := Example.platform) empty_store Scenario.midnight_ops)
                 "k3Yq9wZ" = true) by (vm_compute; reflexivity).
  assert (Hok : Forall (fun v => visit_date (H := Example.platform) v <> Throw)
                  (decoded (H := Example.platform)
                     (visit_log (run (H := Example.platform) empty_store Scenario.midnight_ops)
                        "k3Yq9wZ"))).
  { rewrite midnight_decoded. repeat constructor. vm_compute. discriminate. }
  assert (Hs : query_date (H := Example.platform) (Some "2024-01-01")
               = Some (Some 1704067200000)) by (vm_compute; reflexivity).
  assert (Hend : query_date (H := Example.platform) (Some "2024-01-05")
                 = Some (Some 1704412800000)) by (vm_compute; reflexivity).
  assert (Hv : Scenario.midnight_visit
               ∈ decoded (H := Example.platform)
                   (visit_log (run (H := Example.platform) empty_store Scenario.midnight_ops)
                      "k3Yq9wZ")).
  { rewrite midnight_decoded. apply list_elem_of_here. }
  assert (Ht : date_or_invalid (H := Example.platform) Scenario.midnight_visit
               = Some (1704412800000 + msPerDay)) by (vm_compute; reflexivity).
  split; [exact Hend|]. split; [exact Ht|].
  destruct (stats_window_is_closed_interval (H := Example.platform) _ "k3Yq9wZ"
              (Some "2024-01-01") (Some "2024-01-05")
              1704067200000 1704412800000 (1704412800000 + msPerDay)
              Scenario.midnight_visit He Hok Hs Hend Hv Ht) as (vs & Hvs & Hiff).
  exists vs. split; [exact Hvs|]. apply Hiff. unfold msPerDay. lia.
Defined.

(** ** The classifier under extension *)

(** X20. Text added before or after a user agent that is classified as
    mobile leaves it mobile. *)
Theorem detectDeviceType_extension (ua pre post : string) :
  detectDeviceType (Some ua) = mobile ->
  detectDeviceType (Some (pre +:+ ua +:+ post)) = mobile.
Proof.
  intros Hm.
  assert (E : Str.test_alternation device_tokens (Str.toLowerCase ua) = true).
  { unfold detectDeviceType in Hm. cbn [default from_option] in Hm.
    unfold Datatypes.id in Hm.
    now destruct (Str.test_alternation device_tokens (Str.toLowerCase ua)). }
  apply test_alternation_spec in E as (a & p & q & Ha & E).
  assert (Ht : Str.test_alternation device_tokens
                 (Str.toLowerCase (pre +:+ ua +:+ post)) = true).
  { apply test_alternation_spec.
    exists a, (Str.toLowerCase pre +:+ p), (q +:+ Str.toLowerCase post).
    split; [exact Ha|].
    rewrite !toLowerCase_app, E. now rewrite !append_assoc. }
  unfold detectDeviceType. cbn [default from_option]. unfold Datatypes.id.
  now rewrite Ht.
Qed.

Lemma detectDeviceType_extension_witness :
  detectDeviceType (Some "iPhone") = mobile
  /\ detectDeviceType (Some ("Mozilla/5.0 (" +:+ "iPhone" +:+ "; CPU iPhone OS 17_0)")) = mobile.
Proof.
  split; [reflexivity|].
  exact (detectDeviceType_extension "iPhone" "Mozilla/5.0 (" "; CPU iPhone OS 17_0)" eq_refl).
Defined.

(** ** What the redirect route writes, read by the reference platform *)

(** X21. On the reference platform, the entry that the redirect route writes
    for a visit is read back by the stats route as a truthy object with
    the user agent, the device type and the timestamp of the visit,
    whatever characters the user agent holds, and the date that the
    route makes of the timestamp is the time of the visit. *)
Theorem recorded_visit_read_back (base ua : string) (now : Z) :
  Z.abs now <= 8640000000000000 ->
  let v := parse_entry (H := Ref.platform base)
             (JSON.stringify_visit (recorded_visit ua now)) in
  ToBoolean v = true
  /\ js_get v "userAgent" = Some (JStr ua)
  /\ js_get v "deviceType"
     = Some (JStr (JSON.device_name (detectDeviceType (Some ua))))
  /\ js_get v "timestamp" = Some (JStr (ISO.toISOString now))
  /\ visit_date (H := Ref.platform base) v = Normal (Some now).
Proof.
  intros Ht v. subst v. unfold parse_entry.
  cbn [JSON_parse Ref.platform]. rewrite parse_stringify_visit.
  unfold visit_value, recorded_visit. cbn [timestamp userAgent deviceType].
  repeat apply conj; try reflexivity.
  unfold visit_date. cbn [js_get last_prop fold_left fst snd String.eqb Ascii.eqb Bool.eqb].
  cbn [new_Date Date_of_string Date_parse Ref.platform].
  rewrite (date_parse_toISOString now Ht).
  unfold TimeClip. apply Z.leb_le in Ht. now rewrite Ht.
Qed.

Lemma recorded_visit_read_back_witness :
  Z.abs 1704499140000 <= 8640000000000000
  /\ visit_date (H := Example.platform)
       (parse_entry (H := Example.platform)
          (JSON.stringify_visit (recorded_visit Example.iphone 1704499140000)))
     = Normal (Some 1704499140000).
Proof.
  assert (Ht : Z.abs 1704499140000 <= 8640000000000000) by (cbn; lia).
  split; [exact Ht|].
  destruct (recorded_visit_read_back "http://localhost:3000" Example.iphone
              1704499140000 Ht) as (_ & _ & _ & _ & Hd).
  exact Hd.
Defined.

(** ** Starting the servers *)

Lemma try_https_cases (env : Startup.Env) (node : Startup.Node) (p : Startup.Process) :
  Startup.try_https env node p = Throw
  \/ exists key cert,
       Startup.try_https env node p
       = Normal (Startup.later (Startup.HttpsListening (Startup.PORT env))
                   (Startup.call (Startup.HttpsListen key cert (Startup.PORT env)) p)).
Proof.
  unfold Startup.try_https.
  destruct (Startup.readFileSync node (default "" (Startup.env_SSL_KEY_PATH env)))
    as [key|]; [|now left].
  destruct (Startup.readFileSync node (default "" (Startup.env_SSL_CERT_PATH env)))
    as [cert|]; [|now left].
  cbn. destruct (Startup.createServer_listen node key cert (Startup.PORT env));
    [right; now exists key, cert | now left].
Qed.

(** X22. The module body asks the Express app to listen over HTTP in every
    environment: [serverStarted] is still false when it is tested, since
    only the callback of the HTTPS server sets it, and that callback
    runs after the module body.  So when both certificate files are
    read and the HTTPS server is created, the two servers are asked to
    listen on the same port.  The callbacks that run later only log. *)
Theorem http_listen_always (env : Startup.Env) (node : Startup.Node) :
  let p := Startup.main env node in
  Startup.serverStarted p = false
  /\ last (Startup.calls p) = Some (Startup.AppListen (Startup.PORT env))
  /\ (forall kp cp key cert,
        Startup.env_SSL_KEY_PATH env = Some kp -> kp <> "" ->
        Startup.env_SSL_CERT_PATH env = Some cp -> cp <> "" ->
        Startup.readFileSync node kp = Normal key ->
        Startup.readFileSync node cp = Normal cert ->
        Startup.createServer_listen node key cert (Startup.PORT env) = Normal tt ->
        Startup.calls p
        = [Startup.HttpsListen key cert (Startup.PORT env);
           Startup.AppListen (Startup.PORT env)]
        /\ Startup.pending p
           = [Startup.HttpsListening (Startup.PORT env);
              Startup.HttpListening (Startup.PORT env)])
  /\ (falsy (Startup.env_PORT env) = true -> Startup.PORT env = "3000")
  /\ (forall cb, exists message,
        Startup.calls (Startup.run_callback cb p) = Startup.calls p ++ [Startup.Log message]).
Proof.
  intros p. split; [|split; [|split; [|split]]]; cycle 4.
  { intros [port|port]; eexists; reflexivity. }
  all: subst p; unfold Startup.main;
    set (p0 := {| Startup.serverStarted := false; Startup.calls := [];
                  Startup.pending := [] |}).
  - destruct (negb (falsy (Startup.env_SSL_KEY_PATH env))
              && negb (falsy (Startup.env_SSL_CERT_PATH env))); [|reflexivity].
    destruct (try_https_cases env node p0) as [-> | (key & cert & ->)]; reflexivity.
  - destruct (negb (falsy (Startup.env_SSL_KEY_PATH env))
              && negb (falsy (Startup.env_SSL_CERT_PATH env))); [|reflexivity].
    destruct (try_https_cases env node p0) as [-> | (key & cert & ->)]; reflexivity.
  - intros kp cp key cert Hk Hkp Hc Hcp Hrk Hrc Hl.
    rewrite Hk, Hc. cbn [falsy].
    apply String.eqb_neq in Hkp, Hcp. rewrite Hkp, Hcp. cbn [negb andb].
    unfold Startup.try_https. rewrite Hk, Hc. cbn [default from_option].
    unfold Datatypes.id. rewrite Hrk, Hrc. cbn. rewrite Hl.
    split; reflexivity.
  - unfold Startup.PORT, or_else, falsy.
    destruct (Startup.env_PORT env) as [s|]; [|reflexivity].
    now intros ->.
Qed.

(** ** The page and the server *)

Section page.
Context `{Platform}.

(** X23. A visit that the redirect route has recorded is labelled Mobile or
    Desktop on the page, as the classifier decided, and never Unknown;
    the label is Unknown for every device type other than the two
    strings [mobile] and [desktop], in exactly this spelling. *)
Theorem deviceLabel_of_recorded_visit (ua : string) (now : Z) :
  reads_back H ->
  App.deviceLabel
    (js_get (parse_entry (JSON.stringify_visit (recorded_visit ua now))) "deviceType")
  = match detectDeviceType (Some ua) with
    | mobile => "Mobile"
    | desktop => "Desktop"
    end
  /\ forall d, App.deviceLabel d <> "Unknown"
               <-> d = Some (JStr "mobile") \/ d = Some (JStr "desktop").
Proof.
  intros [Hjson _]. split.
  - unfold parse_entry. rewrite Hjson.
    unfold visit_value, recorded_visit. cbn [deviceType].
    destruct (detectDeviceType (Some ua)); reflexivity.
  - intros d. unfold App.deviceLabel.
    destruct d as [[| b | n | s | items | props]|];
      try (split; [congruence | intros [E|E]; discriminate]).
    destruct (String.eqb_spec s "mobile") as [->|Hm].
    { split; [auto | discriminate]. }
    destruct (String.eqb_spec s "desktop") as [->|Hd].
    { split; [auto | discriminate]. }
    split; [congruence | intros [E|E]; congruence].
Qed.

(** X24. A reply that is not ok makes [fetchJson] fail with a message that is
    never empty.  For the error answers of the create and the stats
    routes the message is the text that the route sent. *)
Theorem fetchJson_reports_server_error {A} (json : App.Reply -> App.Settled A) :
  (forall res, App.ok res = false ->
     exists m, App.fetchJson json res = App.RejectedWith m /\ m <> ""
               /\ (App.text res <> "" -> m = App.text res))
  /\ (forall st url id now res,
        App.reply_of (fst (create st url id now)) = Some res ->
        App.fetchJson json res = App.RejectedWith "Only http(s) URLs are allowed."
        \/ App.fetchJson json res = App.RejectedWith "Invalid URL provided.")
  /\ (forall st id q_start q_end res,
        App.reply_of (stats st id q_start q_end) = Some res ->
        App.fetchJson json res = App.RejectedWith "Link not found.").
Proof.
  repeat apply conj.
  - intros res Hok. unfold App.fetchJson. rewrite Hok. cbn [negb].
    eexists. split; [reflexivity|]. unfold or_else.
    destruct (String.eqb_spec (App.text res) "") as [E|E]; split; congruence.
  - intros st url id now res. unfold create.
    destruct (URL_protocol url) as [p|].
    + destruct (includes ["http:"; "https:"] p); cbn [negb fst App.reply_of];
        [discriminate|].
      intros [= <-]. now left.
    + cbn [fst App.reply_of]. intros [= <-]. now right.
  - intros st id q_start q_end res. unfold stats.
    destruct (falsy (Redis.hGetAll st ("link:" +:+ id) !! "id")).
    + cbn [App.reply_of]. now intros [= <-].
    + destruct (parsedVisits _ _ _); discriminate.
Qed.
End page.

Lemma deviceLabel_of_recorded_visit_witness :
  reads_back Example.platform
  /\ App.deviceLabel
       (js_get (parse_entry (H := Example.platform)
                  (JSON.stringify_visit (recorded_visit Example.iphone 1704499140000)))
               "deviceType")
     = match detectDeviceType (Some Example.iphone) with
       | mobile => "Mobile"
       | desktop => "Desktop"
       end.
Proof.
  split; [apply Ref_reads_back|].
  exact (proj1 (deviceLabel_of_recorded_visit (H := Example.platform)
                  Example.iphone 1704499140000 (Ref_reads_back _))).
Defined.

(** ** From creation to the first visit, and the list on any store *)

Section create_then_visit.
Context `{Platform}.

(** X3. A request for the short path of a link that has just been created
    is answered with a redirect to the URL that was submitted, and is
    recorded as the link's first visit since its creation.  The one
    exception is an identifier that starts with the letters api: its
    short path is left to the next handler, and nothing is recorded. *)
Theorem created_link_redirects (st : Store) (url id : string) (now now' : Z)
    (ua : option string) (l : Link.t) :
  fst (create st url id now) = SendLink l ->
  id <> "" ->
  let st' := snd (create st url id now) in
  let req := {| path := "/" +:+ id; params_id := id; user_agent := ua |} in
  (Str.startsWith "api" id = false ->
   fst (redirect st' req now') = Redirect (Some url)
   /\ stored_visitCount (snd (redirect st' req now')) id = Some 1
   /\ visit_log (snd (redirect st' req now')) id
      = visit_log st id ++ [JSON.stringify_visit (recorded_visit (or_else ua "") now')])
  /\ (Str.startsWith "api" id = true -> redirect st' req now' = (Next, st')).
Proof.
  intros Hl Hid st' req. subst st'.
  destruct (create_sent st url id now l Hl) as [_ ->].
  assert (Hpath : Str.startsWith "/api" (path req) = Str.startsWith "api" id) by reflexivity.
  destruct (created_fields st url id now) as (Hfid & Hurl & _).
  split; intros Hp.
  - assert (He : link_exists (created st url id now) (params_id req) = true).
    { unfold link_exists. cbn [params_id req]. rewrite Hfid. cbn [falsy].
      apply negb_true_iff. now apply String.eqb_neq. }
    rewrite Hp in Hpath.
    rewrite (redirect_found _ req now' 0 Hpath He (created_counter st url id now)).
    cbn [fst snd params_id user_agent req]. rewrite Hurl.
    repeat apply conj; [reflexivity | apply visited_count |].
    now rewrite visited_log, created_log.
  - unfold redirect. now rewrite Hpath, Hp.
Qed.

Lemma length_filter_Boolean {A} (l : list (option A)) :
  (length (filter_Boolean l) <= length l)%nat.
Proof.
  unfold filter_Boolean. induction l as [|[x|] l IH]; cbn; lia.
Qed.

(** X17. The list route never fails: whatever the store holds and whatever
    identifiers the index names, the answer is a 200 with one link for
    each named identifier that has a record, and nothing else. *)
Theorem list_links_never_fails (st : Store) (ids : list string) :
  exists ls,
    list_links st ids = SendLinks ls
    /\ status_of (list_links st ids) = Some 200
    /\ (length ls <= length ids)%nat
    /\ forall l, l ∈ ls <-> exists i, i ∈ ids /\ fetch_link st i = Some l.
Proof.
  destruct (list_links_spec st ids) as (ls & Hls & Hperm & _).
  exists ls. rewrite Hls. repeat apply conj; [reflexivity.. | |].
  - rewrite Hperm. etransitivity; [apply length_filter_Boolean|].
    now rewrite length_map.
  - intros l. rewrite Hperm, elem_of_filter_Boolean, elem_of_map. split.
    + intros (i & Hi & Hin). eauto.
    + intros (i & Hin & Hi). eauto.
Qed.
End create_then_visit.

(** The link of the examples, visited right after its creation. *)
Lemma created_link_redirects_witness :
  fst (create (H := Example.platform) empty_store
         "https://example.com/landing" "k3Yq9wZ" 1704000000000)
  = SendLink Scenario.fresh_landing
  /\ Str.startsWith "api" "k3Yq9wZ" = false
  /\ fst (redirect
            (snd (create (H := Example.platform) empty_store
                    "https://example.com/landing" "k3Yq9wZ" 1704000000000))
            {| path := "/" +:+ "k3Yq9wZ"; params_id := "k3Yq9wZ";
               user_agent := Some Example.iphone |}
            1704103200000)
     = Redirect (Some "https://example.com/landing").
Proof.
  assert (Hl : fst (create (H := Example.platform) empty_store
                      "https://example.com/landing" "k3Yq9wZ" 1704000000000)
               = SendLink Scenario.fresh_landing) by (vm_compute; reflexivity).
  assert (Hid : "k3Yq9wZ" <> "") by discriminate.
  split; [exact Hl|]. split; [reflexivity|].
  exact (proj1 (proj1 (created_link_redirects (H := Example.platform) empty_store
                         "https://example.com/landing" "k3Yq9wZ"
                         1704000000000 1704103200000 (Some Example.iphone)
                         Scenario.fresh_landing Hl Hid) eq_refl)).
Defined.

(** ** The links that the responses carry *)

Section reported_links.
Context `{Platform}.

Lemma link_of_data_shortUrl (id : string) (data : gmap string string) :
  Link.shortUrl (link_of_data id data) <> ""
  /\ (falsy (data !! "shortUrl") = true ->
      Link.shortUrl (link_of_data id data) = BASE_URL +:+ "/" +:+ id).
Proof.
  unfold link_of_data, or_else, falsy. cbn [Link.shortUrl].
  destruct (data !! "shortUrl") as [s|].
  - destruct (String.eqb_spec s "") as [->|Hs].
    + split; [apply append_slash_nonempty | reflexivity].
    + split; [exact Hs | discriminate].
  - split; [apply append_slash_nonempty | reflexivity].
Qed.

(** X25. Every link that the list or the stats route answers with has an
    [id] and a [shortUrl] that are not empty, whatever the store holds;
    for a record without a [shortUrl] the response carries [BASE_URL],
    a slash and the identifier that was asked for. *)
Theorem reported_links_are_named (st : Store) :
  (forall ids ls l,
     list_links st ids = SendLinks ls -> l ∈ ls ->
     Link.id l <> "" /\ Link.shortUrl l <> "")
  /\ (forall id q_start q_end l vs,
        stats st id q_start q_end = SendStats l vs ->
        Link.id l <> "" /\ Link.shortUrl l <> "")
  /\ (forall id l,
        fetch_link st id = Some l ->
        falsy (Redis.hGetAll st ("link:" +:+ id) !! "shortUrl") = true ->
        Link.shortUrl l = BASE_URL +:+ "/" +:+ id).
Proof.
  assert (Hfetch : forall id l, fetch_link st id = Some l ->
            l = link_of_data id (Redis.hGetAll st ("link:" +:+ id))
            /\ Link.id l <> "").
  { intros id l. unfold fetch_link.
    destruct (Redis.hGetAll st ("link:" +:+ id) !! "id") as [s|] eqn:Es;
      cbn [falsy]; [|discriminate].
    destruct (String.eqb_spec s "") as [|Hs]; [discriminate|].
    intros E. apply (f_equal (default l)) in E. cbn [default from_option] in E.
    unfold Datatypes.id in E. subst l. split; [reflexivity|].
    unfold link_of_data. cbn [Link.id]. now rewrite Es. }
  repeat apply conj.
  - intros ids ls l Hls Hl.
    destruct (list_links_spec st ids) as (ls' & Hls' & Hperm & _).
    rewrite Hls in Hls'. injection Hls' as <-.
    rewrite Hperm in Hl. apply elem_of_filter_Boolean, elem_of_map in Hl as (i & Hl & _).
    symmetry in Hl. destruct (Hfetch i l Hl) as [-> Hid].
    split; [exact Hid | apply link_of_data_shortUrl].
  - intros id q_start q_end l vs. unfold stats.
    destruct (Redis.hGetAll st ("link:" +:+ id) !! "id") as [s|] eqn:Es;
      cbn [falsy]; [|discriminate].
    destruct (String.eqb_spec s "") as [|Hs]; [discriminate|].
    destruct (parsedVisits _ _ _) as [vs'|]; [|discriminate].
    intros E. apply (f_equal (fun r => match r with SendStats x _ => x | _ => l end)) in E.
    subst l. split; [|apply link_of_data_shortUrl].
    unfold link_of_data. cbn [Link.id]. now rewrite Es.
  - intros id l Hl Hs. destruct (Hfetch id l Hl) as [-> _].
    now apply link_of_data_shortUrl.
Qed.
End reported_links.

(** ** The counter and the log *)

Section counter_and_log.
Context `{Platform}.

Lemma counted_empty (id : string) : stored_visitCount empty_store id = Some 0.
Proof.
  unfold stored_visitCount, Redis.hGetAll, empty_store. cbn [hashes].
  rewrite lookup_empty. cbn [default from_option]. now rewrite lookup_empty.
Qed.

Lemma counted_step st op :
  (forall id, exists n, 0 <= n /\ stored_visitCount st id = Some n) ->
  forall id, exists n, 0 <= n /\ stored_visitCount (snd (step st op)) id = Some n.
Proof.
  intros Hc id. destruct op as [url i now | req now]; cbn [step].
  - destruct (create_cases st url i now) as [[body ->] | [l ->]]; [apply Hc|].
    cbn [snd]. destruct (decide (id = i)) as [->|Hne].
    + exists 0. split; [lia | apply created_counter].
    + unfold stored_visitCount, Redis.hGetAll.
      rewrite created_other_hash by assumption. apply Hc.
  - destruct (redirect_cases st req now) as [-> | [(n & _ & Hn & ->) | [_ ->]]];
      cbn [snd]; [apply Hc | | apply Hc].
    destruct (decide (id = params_id req)) as [->|Hne].
    + destruct (Hc (params_id req)) as (n0 & H0 & E). rewrite Hn in E.
      injection E as ->. exists (n0 + 1). split; [lia | apply visited_count].
    + unfold stored_visitCount, Redis.hGetAll.
      rewrite visited_other_hash by assumption. apply Hc.
Qed.

Lemma counted_run st ops :
  (forall id, exists n, 0 <= n /\ stored_visitCount st id = Some n) ->
  forall id, exists n, 0 <= n /\ stored_visitCount (run st ops) id = Some n.
Proof.
  revert st; induction ops as [|op ops IH]; intros st Hc; [exact Hc|].
  cbn [run]. apply IH. now apply counted_step.
Qed.

Lemma redirect_sent st req now u :
  fst (redirect st req now) = Redirect u ->
  exists n,
    link_exists st (params_id req) = true
    /\ stored_visitCount st (params_id req) = Some n
    /\ snd (redirect st req now)
       = visited st (params_id req) n
           (JSON.stringify_visit (recorded_visit (or_else (user_agent req) "") now)).
Proof.
  destruct (redirect_cases st req now) as [-> | [(n & He & Hn & ->) | [_ ->]]];
    cbn [fst snd]; try discriminate.
  intros _. now exists n.
Qed.

Lemma created_exists st url id now :
  id <> "" -> link_exists (created st url id now) id = true.
Proof.
  intros Hid. unfold link_exists.
  destruct (created_fields st url id now) as (-> & _). cbn [falsy].
  apply negb_true_iff. now apply String.eqb_neq.
Qed.

(** C2. From the empty store, after every sequence of Create and
    RecordVisit operations, the counter of every identifier reads as an
    integer that is not negative.  In every state so reached, a Create
    that succeeds answers with [visitCount] 0, writes the record of its
    link with the field [visitCount] at 0, so that the link exists, and
    leaves the log of its identifier as it was; a RecordVisit that
    redirects adds exactly one to the counter of its link and exactly
    one entry, the visit, to the end of its log.

    The identifier that Create takes from the generator is an input
    here.  When every identifier so taken is new, as the generator is
    trusted to ensure, the counter of every existing link equals the
    length of its visit log after every sequence; a Create that
    succeeds then starts its link with counter 0 and an empty log, and
    no operation lowers the counter of an existing link. *)
Theorem visitCount_matches_log :
  (forall ops : list Op,
     let st := run empty_store ops in
     (forall id, exists n, 0 <= n /\ stored_visitCount st id = Some n)
     /\ (forall url id now l,
           fst (create st url id now) = SendLink l ->
           let st' := snd (create st url id now) in
           Link.visitCount l = Dec 0 0
           /\ Redis.hGetAll st' ("link:" +:+ id) !! "id" = Some id
           /\ Redis.hGetAll st' ("link:" +:+ id) !! "visitCount" = Some "0"
           /\ stored_visitCount st' id = Some 0
           /\ (id <> "" -> link_exists st' id = true)
           /\ visit_log st' id = visit_log st id)
     /\ (forall req now u,
           fst (redirect st req now) = Redirect u ->
           let st' := snd (redirect st req now) in
           link_exists st (params_id req) = true
           /\ exists n,
               0 <= n
               /\ stored_visitCount st (params_id req) = Some n
               /\ stored_visitCount st' (params_id req) = Some (n + 1)
               /\ visit_log st' (params_id req)
                  = visit_log st (params_id req)
                    ++ [JSON.stringify_visit
                          (recorded_visit (or_else (user_agent req) "") now)]))
  /\ (forall ops : list Op,
        fresh_ids empty_store ops ->
        let st := run empty_store ops in
        (forall id, link_exists st id = true ->
                    stored_visitCount st id = Some (Z.of_nat (length (visit_log st id))))
        /\ forall op, fresh_ids st [op] ->
             let r := fst (step st op) in
             let st' := snd (step st op) in
             (forall url id now l, op = Create url id now -> r = SendLink l ->
                stored_visitCount st' id = Some 0
                /\ visit_log st' id = []
                /\ Redis.hGetAll st' ("link:" +:+ id) !! "visitCount" = Some "0"
                /\ (id <> "" -> link_exists st' id = true))
             /\ (forall req now u, op = RecordVisit req now -> r = Redirect u ->
                   stored_visitCount st' (params_id req)
                   = Some (Z.of_nat (length (visit_log st (params_id req))) + 1)
                   /\ exists entry,
                       visit_log st' (params_id req)
                       = visit_log st (params_id req) ++ [entry])
             /\ (forall id, link_exists st id = true ->
                   exists n n', stored_visitCount st id = Some n
                                /\ stored_visitCount st' id = Some n'
                                /\ 0 <= n <= n' /\ n' <= n + 1)).
Proof.
  split.
  - intros ops st.
    assert (Hc : forall id, exists n, 0 <= n /\ stored_visitCount st id = Some n).
    { apply counted_run. intros id. exists 0. split; [lia | apply counted_empty]. }
    split; [exact Hc|]. split.
    + intros url id now l Hl st'. subst st'.
      destruct (create_sent st url id now l Hl) as [-> ->].
      destruct (created_fields st url id now) as (Hid & _ & _ & Hv & _).
      repeat apply conj; try assumption; try reflexivity.
      * apply created_counter.
      * apply created_exists.
    + intros req now u Hu st'. subst st'.
      destruct (redirect_sent st req now u Hu) as (n & He & Hn & ->).
      split; [exact He|]. exists n.
      destruct (Hc (params_id req)) as (n0 & H0 & E). rewrite Hn in E.
      injection E as <-.
      repeat apply conj; [exact H0 | exact Hn | apply visited_count | apply visited_log].
  - intros ops Hf st.
    destruct (counter_follows_log ops Hf) as [HA HB]. fold st in HA, HB.
    split; [exact HA|]. intros op Hop r st'.
    destruct (HB op Hop) as (Hcreate & Hvisit & Hmono). fold r st' in Hcreate, Hvisit, Hmono.
    split; [|split; [exact Hvisit | exact Hmono]].
    intros url id now l Hop' Hr.
    destruct (Hcreate url id now l Hop' Hr) as [H0 Hlog].
    split; [exact H0|]. split; [exact Hlog|].
    subst r st' op. cbn [step] in *.
    destruct (create_sent st url id now l Hr) as [_ ->].
    destruct (created_fields st url id now) as (_ & _ & _ & Hv & _).
    split; [exact Hv | apply created_exists].
Qed.
End counter_and_log.

(** One creation and three visits: the link exists, its counter is 3,
    and its log has three entries. *)
Lemma visitCount_matches_log_witness :
  fresh_ids (H := Example.platform) empty_store Scenario.three_ops
  /\ link_exists Example.three_visits "k3Yq9wZ" = true
  /\ Redis.hGetAll Example.three_visits "link:k3Yq9wZ" !! "visitCount" = Some "3"
  /\ length (visit_log Example.three_visits "k3Yq9wZ") = 3%nat
  /\ stored_visitCount Example.three_visits "k3Yq9wZ"
     = Some (Z.of_nat (length (visit_log Example.three_visits "k3Yq9wZ"))).
Proof.
  assert (He : link_exists Example.three_visits "k3Yq9wZ" = true)
    by (vm_compute; reflexivity).
  split; [exact three_ops_fresh|]. split; [exact He|].
  split; [vm_compute; reflexivity|]. split; [vm_compute; reflexivity|].
  exact (proj1 (proj2 (visitCount_matches_log (H := Example.platform))
                  Scenario.three_ops three_ops_fresh) "k3Yq9wZ" He).
Defined.
